(** * arca-bot: workflow engine, fingerprints, transaction store, autoscaler

    A shallow embedding of the Python sources of the repository and the
    properties of its specification that were checked against them.

    Conventions of the embedding.
    - A Python [dict] is an association list in insertion order with unique
      keys ([dict_set] overwrites in place, as CPython does); iteration order
      is the list order.
    - A Python [set] of step names is a [gset string].
    - Python's truthiness ([if x:]) is the function [truthy].
    - Code that reads a clock, spawns a task, calls a handler or a library
      function of the Python runtime takes that collaborator as a parameter
      of the enclosing Section.
    - Logging calls are dropped; metric and store calls that a property
      speaks about are kept as events of a trace. *)

From Stdlib Require Import ZArith String List Bool Lia Ascii.
From Stdlib Require SpecFloat.
From stdpp Require Import base strings list gmap pretty.
Import ListNotations.
Local Open Scope string_scope.
Local Open Scope list_scope.
Local Open Scope Z_scope.
Set Warnings "-register-all".

(** ** Python values and dictionaries *)

Module Py.

(** core/workflows/base.py :: WorkflowStatus *)
Inductive WorkflowStatus : Type :=
| CREATED | PENDING | RUNNING | COMPLETED | FAILED | CANCELLED.

(** [WorkflowStatus.X.value] *)
Definition value (s : WorkflowStatus) : string :=
  match s with
  | CREATED => "created"
  | PENDING => "pending"
  | RUNNING => "running"
  | COMPLETED => "completed"
  | FAILED => "failed"
  | CANCELLED => "cancelled"
  end.


(** [WorkflowStatus.is_active(status)] *)
Definition is_active (status : string) : bool :=
  String.eqb status (value RUNNING).

(** The exception classes that core/utils/error_classifier.py tells apart;
    every other class is [OtherException]. *)
Inductive ExcKind : Type :=
| InfrastructureException
| BrowserSessionException
| TimeoutError
| ConnectionRefusedError
| ConnectionAbortedError
| ConnectionResetError
| ServiceUnavailable
| SessionNotCreatedException
| WebDriverException
| NoSuchDriverException
| BrowserNotConnectedException
| OtherException (cls : string).

(** The values that travel through the dictionaries of the program. The
    last constructor is a [WorkflowResult] object (base.py) as far as its
    readers look into it: status, results and errors. *)
Inductive pyval : Type :=
| PNone
| PBool (b : bool)
| PInt (n : Z)
| PStr (s : string)
| PList (l : list pyval)
| PDict (d : list (string * pyval))
| PExc (k : ExcKind) (msg : string)
| PResult (status : WorkflowStatus) (results errors : list (string * pyval)).

Definition dict (V : Type) : Type := list (string * V).

Fixpoint dict_get {V : Type} (k : string) (d : dict V) : option V :=
  match d with
  | [] => None
  | (k', v) :: rest => if String.eqb k' k then Some v else dict_get k rest
  end.

(** [d[k] = v]: an existing key keeps its position. *)
Fixpoint dict_set {V : Type} (k : string) (v : V) (d : dict V) : dict V :=
  match d with
  | [] => [(k, v)]
  | (k', v') :: rest =>
      if String.eqb k' k then (k, v) :: rest else (k', v') :: dict_set k v rest
  end.

(** [k in d] *)
Definition dict_mem {V : Type} (k : string) (d : dict V) : bool :=
  match dict_get k d with Some _ => true | None => false end.

(** [d.get(k, default)] *)
Definition dict_get_default {V : Type} (k : string) (default : V) (d : dict V) : V :=
  match dict_get k d with Some v => v | None => default end.

(** [{**a, **b}] *)
Definition dict_merge {V : Type} (a b : dict V) : dict V :=
  fold_left (fun acc kv => dict_set (fst kv) (snd kv) acc) b a.

Definition keys {V : Type} (d : dict V) : list string := map fst d.
Definition values {V : Type} (d : dict V) : list V := map snd d.

(** Python truthiness of a value. *)
Definition truthy (v : pyval) : bool :=
  match v with
  | PNone => false
  | PBool b => b
  | PInt n => negb (n =? 0)%Z
  | PStr s => negb (String.eqb s "")
  | PList l => match l with [] => false | _ => true end
  | PDict d => match d with [] => false | _ => true end
  | PExc _ _ => true
  | PResult _ _ _ => true
  end.

(** Truthiness of a [str] and of an [Optional[str]]. *)
Definition str_truthy (s : string) : bool := negb (String.eqb s "").
Definition opt_truthy (o : option string) : bool :=
  match o with Some s => str_truthy s | None => false end.

(** [str.lower()] on ASCII letters. *)
Definition lower_ascii (c : ascii) : ascii :=
  let n := nat_of_ascii c in
  if ((65 <=? n)%nat && (n <=? 90)%nat)%bool then ascii_of_nat (n + 32) else c.

Fixpoint lower (s : string) : string :=
  match s with
  | EmptyString => EmptyString
  | String c rest => String (lower_ascii c) (lower rest)
  end.

Fixpoint prefixb (p s : string) : bool :=
  match p, s with
  | EmptyString, _ => true
  | String a p', String b s' => if Ascii.eqb a b then prefixb p' s' else false
  | String _ _, EmptyString => false
  end.

(** [sub in s] for strings. *)
Fixpoint contains (sub s : string) : bool :=
  if prefixb sub s then true
  else match s with
       | EmptyString => false
       | String _ rest => contains sub rest
       end.

(** ["sep".join(parts)] *)
Fixpoint join (sep : string) (parts : list string) : string :=
  match parts with
  | [] => ""
  | [p] => p
  | p :: rest => p +:+ sep +:+ join sep rest
  end.

End Py.

(** ** The step engine: core/workflows/base.py and core/orchestrator.py *)

Module Engine.
Import Py.

Module StepStatus.
Inductive t : Type := PENDING | RUNNING | COMPLETED | FAILED | SKIPPED.

Definition eqb (a b : t) : bool :=
    match a, b with
    | PENDING, PENDING | RUNNING, RUNNING | COMPLETED, COMPLETED
    | FAILED, FAILED | SKIPPED, SKIPPED => true
    | _, _ => false
    end.

End StepStatus.

(** What one call of a step handler does: it returns a value, tested for
    truthiness by the engine, or raises an [Exception] whose [str] and
    formatted traceback are [msg] and [traceback]. *)
Inductive HandlerOutcome : Type :=
| Returned (v : pyval)
| Raised (msg traceback : string).

(** The observable events of an execution, oldest first. *)
Inductive Event : Type :=
| EvStepStatus (step : string) (s : StepStatus.t)
| EvHandlerCall (step : string) (attempt : nat)
| EvStepMetric (workflow_type step outcome : string)
| EvSleep
| EvBusinessResult (workflow_type outcome : string)
| EvPublish (exchange_id workflow_type : string) (success : bool)
| EvCleanup.

Section WithEnv.

(** Everything a handler can reach besides the shared resource bag:
    browser sessions, files, the portal. *)
Context {Env : Type}.

(** A step handler: a callable bound to its workflow. It acts on the world
    and on the shared resource bag, returns or raises, and leaves the step
    objects to the engine. *)
Definition Handler : Type :=
  Env -> dict pyval -> HandlerOutcome * Env * dict pyval.

(** base.py :: WorkflowStep (time stamps and the advisory timeout are
    not modelled). *)
Record WorkflowStep : Type := mkStep {
  step_name : string;
  step_handler : Handler;
  step_depends_on : list string;
  step_retry_count : Z;
  step_required : bool;
  step_status : StepStatus.t;
  step_result : pyval;
  step_error : option string;
  step_original_exception : option string
}.

(** base.py :: WorkflowResult *)
Record WorkflowResult : Type := mkResult {
  res_workflow_id : string;
  res_status : WorkflowStatus;
  res_steps_completed : Z;
  res_steps_failed : Z;
  res_total_steps : Z;
  res_results : dict pyval;
  res_errors : dict string
}.

(** base.py :: BaseWorkflow. [wf_steps] is the [steps] dictionary: it is
    keyed by [step_name] (see [add_step]). *)
Record Workflow : Type := mkWorkflow {
  wf_workflow_id : string;
  wf_steps : list WorkflowStep;
  wf_status : WorkflowStatus;
  wf_shared_resources : dict pyval
}.

Definition step_names (steps : list WorkflowStep) : list string :=
  map step_name steps.

(** [self.steps[name]] *)
Fixpoint find_step (nm : string) (steps : list WorkflowStep) : option WorkflowStep :=
  match steps with
  | [] => None
  | s :: rest => if String.eqb (step_name s) nm then Some s else find_step nm rest
  end.

(** In-place update of the step object stored under [nm]. *)
Fixpoint update_step (nm : string) (f : WorkflowStep -> WorkflowStep)
    (steps : list WorkflowStep) : list WorkflowStep :=
  match steps with
  | [] => []
  | s :: rest =>
      if String.eqb (step_name s) nm then f s :: rest
      else s :: update_step nm f rest
  end.

(** BaseWorkflow.add_step: [self.steps[step.name] = step] *)
Fixpoint add_step (step : WorkflowStep) (steps : list WorkflowStep) : list WorkflowStep :=
  match steps with
  | [] => [step]
  | s :: rest =>
      if String.eqb (step_name s) (step_name step) then step :: rest
      else s :: add_step step rest
  end.

(** *** BaseWorkflow.get_step_execution_order *)

Definition circular_dependency_msg : string :=
  "Circular dependency detected in workflow steps".

(** [all(dep in executed for dep in step.depends_on)] *)
Definition deps_satisfied (executed : gset string) (step : WorkflowStep) : bool :=
  forallb (fun dep => bool_decide (dep ∈ executed)) (step_depends_on step).

(** One pass of the inner [for] loop over [self.steps.items()]. *)
Fixpoint order_pass (steps : list WorkflowStep) (executed : gset string)
    (execution_order : list string) (progress_made : bool)
    : gset string * list string * bool :=
  match steps with
  | [] => (executed, execution_order, progress_made)
  | step :: rest =>
      if bool_decide (step_name step ∈ executed) then
        order_pass rest executed execution_order progress_made
      else if deps_satisfied executed step then
        order_pass rest ({[ step_name step ]} ∪ executed)
                   (execution_order ++ [step_name step]) true
      else
        order_pass rest executed execution_order progress_made
  end.

(** The result of the sort: the order, or the [ValueError] it raises. *)
Inductive OrderOutcome : Type :=
| Ordered (execution_order : list string)
| RaisedValueError (msg : string).

(** The [while len(executed) < len(self.steps)] loop; [None] is a loop
    that has not finished within [fuel] iterations. *)
Fixpoint order_loop (fuel : nat) (steps : list WorkflowStep) (executed : gset string)
    (execution_order : list string) : option OrderOutcome :=
  match fuel with
  | O => None
  | S fuel' =>
      if (size executed <? length steps)%nat then
        match order_pass steps executed execution_order false with
        | (executed', execution_order', true) =>
            order_loop fuel' steps executed' execution_order'
        | (_, _, false) => Some (RaisedValueError circular_dependency_msg)
        end
      else Some (Ordered execution_order)
  end.

Definition get_step_execution_order (steps : list WorkflowStep) : option OrderOutcome :=
  order_loop (S (length steps)) steps ∅ [].

(** BaseWorkflow.reset *)
Definition reset_step (s : WorkflowStep) : WorkflowStep :=
  mkStep (step_name s) (step_handler s) (step_depends_on s) (step_retry_count s)
         (step_required s) StepStatus.PENDING PNone None (step_original_exception s).

Definition reset (w : Workflow) : Workflow :=
  mkWorkflow (wf_workflow_id w) (map reset_step (wf_steps w)) PENDING [].

(** *** core/orchestrator.py *)

(** The state threaded through an execution: the workflow object, the result
    under construction, the handlers' world and the events so far. *)
Record RunState : Type := mkRun {
  run_wf : Workflow;
  run_result : WorkflowResult;
  run_env : Env;
  run_trace : list Event
}.

Definition nl : string := String (ascii_of_nat 10) EmptyString.

(** ["ccma" if "ccma" in workflow_id.lower() else "ddjj" if ... else "unknown"] *)
Definition workflow_type_of (workflow_id : string) : string :=
  if contains "ccma" (lower workflow_id) then "ccma"
  else if contains "ddjj" (lower workflow_id) then "ddjj"
  else "unknown".

Definition with_steps (w : Workflow) (steps : list WorkflowStep) : Workflow :=
  mkWorkflow (wf_workflow_id w) steps (wf_status w) (wf_shared_resources w).

Definition with_shared (w : Workflow) (shared : dict pyval) : Workflow :=
  mkWorkflow (wf_workflow_id w) (wf_steps w) (wf_status w) shared.

Definition with_wf_status (w : Workflow) (st : WorkflowStatus) : Workflow :=
  mkWorkflow (wf_workflow_id w) (wf_steps w) st (wf_shared_resources w).

Definition set_step_status (st : StepStatus.t) (s : WorkflowStep) : WorkflowStep :=
  mkStep (step_name s) (step_handler s) (step_depends_on s) (step_retry_count s)
         (step_required s) st (step_result s) (step_error s) (step_original_exception s).

Definition set_step_completed (v : pyval) (s : WorkflowStep) : WorkflowStep :=
  mkStep (step_name s) (step_handler s) (step_depends_on s) (step_retry_count s)
         (step_required s) StepStatus.COMPLETED v (step_error s) (step_original_exception s).

Definition set_step_failed (err : string) (exc : option string) (s : WorkflowStep)
    : WorkflowStep :=
  mkStep (step_name s) (step_handler s) (step_depends_on s) (step_retry_count s)
         (step_required s) StepStatus.FAILED (step_result s) (Some err)
         (match exc with Some e => Some e | None => step_original_exception s end).

Definition bump_completed (r : WorkflowResult) : WorkflowResult :=
  mkResult (res_workflow_id r) (res_status r) (res_steps_completed r + 1)
           (res_steps_failed r) (res_total_steps r) (res_results r) (res_errors r).

Definition bump_failed (r : WorkflowResult) : WorkflowResult :=
  mkResult (res_workflow_id r) (res_status r) (res_steps_completed r)
           (res_steps_failed r + 1) (res_total_steps r) (res_results r) (res_errors r).

Definition with_res_status (r : WorkflowResult) (st : WorkflowStatus) : WorkflowResult :=
  mkResult (res_workflow_id r) st (res_steps_completed r)
           (res_steps_failed r) (res_total_steps r) (res_results r) (res_errors r).

Definition with_res_errors (r : WorkflowResult) (e : dict string) : WorkflowResult :=
  mkResult (res_workflow_id r) (res_status r) (res_steps_completed r)
           (res_steps_failed r) (res_total_steps r) (res_results r) e.

Definition with_res_results (r : WorkflowResult) (d : dict pyval) : WorkflowResult :=
  mkResult (res_workflow_id r) (res_status r) (res_steps_completed r)
           (res_steps_failed r) (res_total_steps r) d (res_errors r).

(** WorkflowOrchestrator._should_skip_step *)
Definition _should_skip_step (w : Workflow) (nm : string) : bool :=
  match find_step nm (wf_steps w) with
  | None => false
  | Some step =>
      existsb (fun dep_name =>
                 match find_step dep_name (wf_steps w) with
                 | Some dep_step =>
                     StepStatus.eqb (step_status dep_step) StepStatus.FAILED
                     && step_required dep_step
                 | None => false
                 end) (step_depends_on step)
  end.

Definition handler_false_msg : string := "Step handler returned False".

Definition step_error_msg (msg traceback : string) : string :=
  "Step execution error: " +:+ msg +:+ nl +:+ traceback.

(** The [for attempt in range(step.retry_count)] loop of [_execute_step];
    [attempts] are the values of [attempt] still to come. *)
Fixpoint attempt_loop (attempts : list nat) (workflow_type nm : string)
    (handler : Handler) (retry_count : Z) (st : RunState) : RunState :=
  match attempts with
  | [] => st
  | attempt :: rest =>
      let w := run_wf st in
      let '(outcome, env', shared') := handler (run_env st) (wf_shared_resources w) in
      let w1 := with_shared w shared' in
      let tr1 := run_trace st ++ [EvHandlerCall nm attempt] in
      match outcome with
      | Returned v =>
          if truthy v then
            (* success: COMPLETED, metric, counter, break *)
            mkRun (with_steps w1 (update_step nm (set_step_completed v) (wf_steps w1)))
                  (bump_completed (run_result st)) env'
                  (tr1 ++ [EvStepStatus nm StepStatus.COMPLETED;
                           EvStepMetric workflow_type nm "success"])
          else if Z.of_nat attempt <? retry_count - 1 then
            attempt_loop rest workflow_type nm handler retry_count
              (mkRun w1 (run_result st) env'
                     (tr1 ++ [EvStepMetric workflow_type nm "retry"; EvSleep]))
          else
            attempt_loop rest workflow_type nm handler retry_count
              (mkRun (with_steps w1
                        (update_step nm (set_step_failed handler_false_msg None) (wf_steps w1)))
                     (bump_failed (run_result st)) env'
                     (tr1 ++ [EvStepStatus nm StepStatus.FAILED;
                              EvStepMetric workflow_type nm "failed"]))
      | Raised msg traceback =>
          if Z.of_nat attempt <? retry_count - 1 then
            attempt_loop rest workflow_type nm handler retry_count
              (mkRun w1 (run_result st) env'
                     (tr1 ++ [EvStepMetric workflow_type nm "retry"; EvSleep]))
          else
            attempt_loop rest workflow_type nm handler retry_count
              (mkRun (with_steps w1
                        (update_step nm
                           (set_step_failed (step_error_msg msg traceback) (Some msg))
                           (wf_steps w1)))
                     (bump_failed (run_result st)) env'
                     (tr1 ++ [EvStepStatus nm StepStatus.FAILED;
                              EvStepMetric workflow_type nm "failed"]))
      end
  end.

(** WorkflowOrchestrator._execute_step *)
Definition _execute_step (nm : string) (st : RunState) : RunState :=
  let w := run_wf st in
  match find_step nm (wf_steps w) with
  | None => st
  | Some step =>
      let st0 := mkRun (with_steps w (update_step nm (set_step_status StepStatus.RUNNING)
                                                  (wf_steps w)))
                       (run_result st) (run_env st)
                       (run_trace st ++ [EvStepStatus nm StepStatus.RUNNING]) in
      attempt_loop (seq 0 (Z.to_nat (step_retry_count step)))
                   (workflow_type_of (wf_workflow_id w)) nm
                   (step_handler step) (step_retry_count step) st0
  end.

(** The [for step_name in execution_order] loop of [execute_workflow], with
    its [continue]s and its [break]. *)
Fixpoint run_steps (execution_order : list string) (st : RunState) : RunState :=
  match execution_order with
  | [] => st
  | nm :: rest =>
      let w := run_wf st in
      match find_step nm (wf_steps w) with
      | None => run_steps rest st
      | Some _ =>
          if _should_skip_step w nm then
            run_steps rest
              (mkRun (with_steps w (update_step nm (set_step_status StepStatus.SKIPPED)
                                                (wf_steps w)))
                     (run_result st) (run_env st)
                     (run_trace st ++ [EvStepStatus nm StepStatus.SKIPPED]))
          else
            let st' := _execute_step nm st in
            match find_step nm (wf_steps (run_wf st')) with
            | Some step' =>
                if StepStatus.eqb (step_status step') StepStatus.FAILED
                   && step_required step'
                then st'
                else run_steps rest st'
            | None => run_steps rest st'
            end
      end
  end.

Definition failed_required (s : WorkflowStep) : bool :=
  StepStatus.eqb (step_status s) StepStatus.FAILED && step_required s.

(** [sum(1 for step in workflow.steps.values() if ...)] *)
Definition failed_required_steps (steps : list WorkflowStep) : nat :=
  length (filter (fun s => failed_required s = true) steps).

(** [for step_name, step in workflow.steps.items(): if step.error is not None: ...] *)
Definition collect_errors (steps : list WorkflowStep) (errors : dict string) : dict string :=
  fold_left (fun acc s =>
               match step_error s with
               | Some e => dict_set (step_name s) e acc
               | None => acc
               end) steps errors.

Definition allowed_shared_keys : list string :=
  ["vep_pdf_filename"; "vep_pdf_path"; "vep_qr_filename"; "vep_qr_path"; "payment_url"].

Definition collect_shared (shared results : dict pyval) : dict pyval :=
  fold_left (fun acc kv =>
               if existsb (String.eqb (fst kv)) allowed_shared_keys
               then dict_set (fst kv) (snd kv) acc else acc) shared results.

(** [record_ccma_result(outcome)] / [record_ddjj_result(outcome)] *)
Definition business_events (workflow_type outcome : string) : list Event :=
  if String.eqb workflow_type "ccma" then [EvBusinessResult "ccma" outcome]
  else if String.eqb workflow_type "ddjj" then [EvBusinessResult "ddjj" outcome]
  else [].

Record Orchestrator : Type := mkOrchestrator {
  workflows : dict Workflow;
  execution_history : list WorkflowResult
}.

Inductive ExecOutcome : Type :=
| WorkflowNotFound (msg : string)
| Finished (result : WorkflowResult) (o : Orchestrator) (env : Env) (trace : list Event).

(** WorkflowOrchestrator.execute_workflow *)
Definition execute_workflow (o : Orchestrator) (workflow_id : string)
    (exchange_id : option string) (env : Env) : option ExecOutcome :=
  match dict_get workflow_id (workflows o) with
  | None => Some (WorkflowNotFound ("Workflow not found: " +:+ workflow_id))
  | Some workflow0 =>
      let workflow_type := workflow_type_of workflow_id in
      let exchange_or_id :=
        match exchange_id with
        | Some e => if str_truthy e then e else workflow_id
        | None => workflow_id
        end in
      let exchange_id_str :=
        match exchange_id with
        | Some e => if str_truthy e then e else wf_workflow_id workflow0
        | None => wf_workflow_id workflow0
        end in
      let workflow :=
        with_shared (with_wf_status (reset workflow0) RUNNING)
                    [("exchange_id", PStr exchange_id_str)] in
      let result :=
        mkResult workflow_id RUNNING 0 0 (Z.of_nat (length (wf_steps workflow))) [] [] in
      let finish (w : Workflow) (r : WorkflowResult) (e : Env) (tr : list Event) :=
        Finished r
                 (mkOrchestrator (dict_set workflow_id w (workflows o))
                                 (execution_history o ++ [r]))
                 e (tr ++ [EvCleanup]) in
      match get_step_execution_order (wf_steps workflow) with
      | None => None
      | Some (RaisedValueError msg) =>
          let r := with_res_errors (with_res_status result FAILED)
                                   (dict_set "orchestrator" msg (res_errors result)) in
          Some (finish (with_wf_status workflow FAILED) r env
                       ([EvPublish exchange_or_id workflow_type false]
                        ++ business_events workflow_type "failed"))
      | Some (Ordered execution_order) =>
          let st := run_steps execution_order (mkRun workflow result env []) in
          let w := run_wf st in
          let failed := (0 <? failed_required_steps (wf_steps w))%nat in
          let final := if failed then FAILED else COMPLETED in
          let r1 := with_res_status (run_result st) final in
          let r2 := with_res_errors r1 (collect_errors (wf_steps w) (res_errors r1)) in
          let r3 := with_res_results r2
                      (collect_shared (wf_shared_resources w) (res_results r2)) in
          Some (finish (with_wf_status w final) r3 (run_env st)
                       (run_trace st
                        ++ business_events workflow_type (if failed then "failed" else "success")
                        ++ [EvPublish exchange_or_id workflow_type (negb failed)]))
      end
  end.

(** *** Notions used to state the properties of the engine *)

(** [depends steps a b]: the step stored under the name [a] lists [b] in its
    [depends_on]. *)
Definition depends (steps : list WorkflowStep) (a b : string) : Prop :=
  exists s, In s steps /\ step_name s = a /\ In b (step_depends_on s).

(** The [depends_on] relation of the workflow contains a cycle. *)
Definition has_cycle (steps : list WorkflowStep) : Prop :=
  exists a, tc (depends steps) a a.

(** The entry that the [except] block of [execute_workflow] writes into the
    errors map. The only exception that the modelled [try] block can raise
    is the [ValueError] of the sort. *)
Definition orchestrator_error_recorded (r : WorkflowResult) : Prop :=
  dict_get "orchestrator" (res_errors r) = Some circular_dependency_msg.

(** Events that show a step leaving PENDING for RUNNING or a handler being
    invoked. *)
Definition step_activity (e : Event) : bool :=
  match e with
  | EvStepStatus _ StepStatus.RUNNING => true
  | EvHandlerCall _ _ => true
  | _ => false
  end.

(** While the sort runs: no executed name lies on a cycle. *)
Definition cycle_free (steps : list WorkflowStep) (executed : gset string) : Prop :=
  forall a, a ∈ executed -> ~ tc (depends steps) a a.

(** No step error is the text of the sort's [ValueError]. *)
Definition error_ok (s : WorkflowStep) : Prop :=
  forall e, step_error s = Some e -> e <> circular_dependency_msg.

Definition run_ok (st : RunState) : Prop := Forall error_ok (wf_steps (run_wf st)).

(** What the engine does to a step object while the step runs: the fields
    that describe the step stay; the status and the error are left alone, or
    the status becomes RUNNING, COMPLETED, or FAILED with an error text. *)
Definition step_update (g : WorkflowStep -> WorkflowStep) : Prop :=
  forall s,
    step_name (g s) = step_name s /\
    step_depends_on (g s) = step_depends_on s /\
    step_required (g s) = step_required s /\
    step_retry_count (g s) = step_retry_count s /\
    (step_status (g s) = step_status s /\ step_error (g s) = step_error s \/
     step_status (g s) = StepStatus.RUNNING \/
     step_status (g s) = StepStatus.COMPLETED \/
     step_status (g s) = StepStatus.FAILED /\ step_error (g s) <> None).

(** [precedes l a b]: the name [a] stands in [l] before an occurrence of
    [b]. *)
Definition precedes (l : list string) (a b : string) : Prop :=
  exists l1 l2, l = l1 ++ b :: l2 /\ In a l1.

(** A path of the [depends_on] relation: every name lists the next one. *)
Fixpoint dep_path (steps : list WorkflowStep) (p : list string) : Prop :=
  match p with
  | a :: rest =>
      match rest with
      | b :: _ => depends steps a b /\ dep_path steps rest
      | [] => True
      end
  | [] => True
  end.

(** Every [depends_on] entry names a step of the workflow. *)
Definition deps_closed (steps : list WorkflowStep) : Prop :=
  forall s d, In s steps -> In d (step_depends_on s) -> In d (step_names steps).

(** The handler calls that a trace records for a step. *)
Definition handler_calls (nm : string) (tr : list Event) : nat :=
  length (filter (fun e => match e with
                           | EvHandlerCall step _ => String.eqb step nm
                           | _ => false
                           end = true) tr).

(** Events that show a step being skipped. *)
Definition is_skip (e : Event) : bool :=
  match e with
  | EvStepStatus _ StepStatus.SKIPPED => true
  | _ => false
  end.

(** The state of the sort between two steps of its loops: [executed] holds
    the names of [execution_order], no name twice, and each is the name of a
    step whose dependencies stand before it. *)
Definition order_inv (steps : list WorkflowStep) (executed : gset string)
    (execution_order : list string) : Prop :=
  executed = list_to_set execution_order /\
  NoDup execution_order /\
  (forall l1 b l2, execution_order = l1 ++ b :: l2 ->
     exists s, In s steps /\ step_name s = b /\
               forall d, In d (step_depends_on s) -> In d l1).

(** [range(step.retry_count)] has this many values for the step stored under
    [nm]. *)
Definition attempts_allowed (steps : list WorkflowStep) (nm : string) : nat :=
  match find_step nm steps with
  | Some step => Z.to_nat (step_retry_count step)
  | None => O
  end.

End WithEnv.

Arguments WorkflowStep : clear implicits.
Arguments Workflow : clear implicits.
Arguments Handler : clear implicits.

(** *** WorkflowOrchestrator._filter_workflow_params *)

(** The keys that the orchestrator copies for a CCMA workflow, as its list
    literal has them. *)
Definition ccma_param_keys : list string :=
  ["cuit"; "password"; "headless"; "form_payment"; "tipo_contribuyente"; "impuesto";
   "period_from"; "period_to"; "calculation_date"; "expiration_date";
   "include_interest"; "form_payment"].

Definition ddjj_param_keys : list string := ["cuit"; "password"; "headless"].

(** [for key in keys: if key in params: workflow_params[key] = params[key]] *)
Definition copy_keys (keys : list string) (params workflow_params : dict pyval)
    : dict pyval :=
  fold_left (fun acc key =>
               match dict_get key params with
               | Some v => dict_set key v acc
               | None => acc
               end) keys workflow_params.

Definition _filter_workflow_params (workflow_type : string) (params : dict pyval)
    : dict pyval :=
  if String.eqb workflow_type "ccma_workflow" then copy_keys ccma_param_keys params []
  else if String.eqb workflow_type "ddjj_workflow" then
    copy_keys ["vep_data"] params (copy_keys ddjj_param_keys params [])
  else params.

End Engine.

(** ** Fingerprints: api/models/business/transaction_hash.py *)

Module Hashing.
Import Py.

(** api/models/requests/ccma_entry.py :: CCMAEntry *)
Record CCMAEntry : Type := mkCCMAEntry {
  ccma_period_from : string;
  ccma_period_to : string;
  ccma_calculation_date : string;
  ccma_form_payment : string;
  ccma_expiration_date : string;
  ccma_taxpayer_type : option string;
  ccma_tax_type : option string;
  ccma_include_interests : bool
}.

(** api/models/requests/credentials.py :: ARCACredentials *)
Record ARCACredentials : Type := mkCredentials {
  cred_cuit : string;
  cred_password : option string
}.

(** api/models/requests/ccma_request.py :: CCMAWorkflowRequest *)
Record CCMAWorkflowRequest : Type := mkCCMARequest {
  ccma_credentials : ARCACredentials;
  ccma_entries : list CCMAEntry
}.

(** A Python [float] is an IEEE 754 binary64 number. *)
Definition pyfloat : Type := SpecFloat.spec_float.

(** api/models/requests/ddjj_entry.py :: DDJJEntry *)
Record DDJJEntry : Type := mkDDJJEntry {
  ddjj_form_payment : string;
  ddjj_expiration_date : string;
  ddjj_form_number : string;
  ddjj_payment_type_code : string;
  ddjj_cuit : string;
  ddjj_concept : string;
  ddjj_sub_concept : string;
  ddjj_fiscal_period : string;
  ddjj_amount : pyfloat;
  ddjj_tax_code : string
}.

Record DDJJWorkflowRequest : Type := mkDDJJRequest {
  ddjj_credentials : ARCACredentials;
  ddjj_entries : list DDJJEntry
}.

(** [f"{x}"] for an [Optional[str]] *)
Definition fmt_opt (o : option string) : string :=
  match o with Some s => s | None => "None" end.

(** [sorted(l)] for a list of strings: order of the code points. *)
Fixpoint insert_sorted (x : string) (l : list string) : list string :=
  match l with
  | [] => [x]
  | y :: rest => if String.leb x y then x :: l else y :: insert_sorted x rest
  end.

Definition sorted (l : list string) : list string :=
  fold_right insert_sorted [] l.

(** The whole number a float stands for, when it stands for one. *)
Definition float_integer_value (f : pyfloat) : option Z :=
  match f with
  | SpecFloat.S754_zero _ => Some 0
  | SpecFloat.S754_finite s m e =>
      let magnitude :=
        if 0 <=? e then Some (Z.pos m * 2 ^ e)
        else if Z.pos m mod 2 ^ (- e) =? 0 then Some (Z.pos m / 2 ^ (- e))
        else None in
      match magnitude with
      | Some z => Some (if s then - z else z)
      | None => None
      end
  | _ => None
  end.

Section WithRuntime.

(** [hashlib.sha256(s.encode("utf-8")).hexdigest()] *)
Variable sha256_hex : string -> string.

(** Python's shortest round-trip [repr] for the floats that are not whole
    numbers below 10^16. *)
Variable repr_fraction : pyfloat -> string.

(** [f"{x}"] for a float is [repr(x)]: "nan", "inf", and for a whole number
    below 10^16 its digits followed by ".0". *)
Definition float_str (f : pyfloat) : string :=
  match f with
  | SpecFloat.S754_nan => "nan"
  | SpecFloat.S754_infinity s => if s then "-inf" else "inf"
  | SpecFloat.S754_zero s => if s then "-0.0" else "0.0"
  | SpecFloat.S754_finite s _ _ =>
      match float_integer_value f with
      | Some z =>
          if Z.abs z <? 10 ^ 16
          then (if s then "-" else "") +:+ pretty (Z.abs z) +:+ ".0"
          else repr_fraction f
      | None => repr_fraction f
      end
  end.

(** The string that [generate_ddjj_entry_hash] hashes. *)
Definition ddjj_entry_hash_data (entry : DDJJEntry) : string :=
  let hash_data :=
    ddjj_cuit entry +:+ "|" +:+ ddjj_concept entry +:+ "|" +:+ ddjj_sub_concept entry
    +:+ "|" +:+ ddjj_fiscal_period entry +:+ "|" +:+ float_str (ddjj_amount entry)
    +:+ "|" +:+ ddjj_tax_code entry in
  hash_data +:+
    ("|" +:+ ddjj_expiration_date entry +:+ "|" +:+ ddjj_form_number entry
     +:+ "|" +:+ ddjj_payment_type_code entry).

Definition generate_ddjj_entry_hash (entry : DDJJEntry) : string :=
  sha256_hex (ddjj_entry_hash_data entry).

Definition generate_ddjj_workflow_hash (request : DDJJWorkflowRequest) : string :=
  let entries_data := map ddjj_entry_hash_data (ddjj_entries request) in
  sha256_hex (cred_cuit (ddjj_credentials request) +:+ "|"
              +:+ join "|" (sorted entries_data)).

(** The string that [generate_ccma_entry_hash] hashes. *)
Definition ccma_entry_hash_data (entry : CCMAEntry) : string :=
  let hash_data :=
    ccma_period_from entry +:+ "|" +:+ ccma_period_to entry
    +:+ "|" +:+ ccma_calculation_date entry in
  let hash_data :=
    if opt_truthy (ccma_taxpayer_type entry)
    then hash_data +:+ ("|" +:+ fmt_opt (ccma_taxpayer_type entry)) else hash_data in
  let hash_data :=
    if opt_truthy (ccma_tax_type entry)
    then hash_data +:+ ("|" +:+ fmt_opt (ccma_tax_type entry)) else hash_data in
  let hash_data :=
    if str_truthy (ccma_form_payment entry)
    then hash_data +:+ ("|" +:+ ccma_form_payment entry) else hash_data in
  let hash_data :=
    if str_truthy (ccma_expiration_date entry)
    then hash_data +:+ ("|" +:+ ccma_expiration_date entry) else hash_data in
  hash_data.

Definition generate_ccma_entry_hash (entry : CCMAEntry) : string :=
  sha256_hex (ccma_entry_hash_data entry).

(** The per-entry string [entry_data] built inside
    [generate_ccma_workflow_hash]. *)
Definition ccma_workflow_entry_data (entry : CCMAEntry) : string :=
  let entry_data :=
    ccma_period_from entry +:+ "|" +:+ ccma_period_to entry
    +:+ "|" +:+ ccma_calculation_date entry +:+ "|" +:+ ccma_form_payment entry
    +:+ "|" +:+ ccma_expiration_date entry in
  let entry_data :=
    if opt_truthy (ccma_taxpayer_type entry)
    then entry_data +:+ ("|" +:+ fmt_opt (ccma_taxpayer_type entry)) else entry_data in
  let entry_data :=
    if opt_truthy (ccma_tax_type entry)
    then entry_data +:+ ("|" +:+ fmt_opt (ccma_tax_type entry)) else entry_data in
  entry_data.

Definition generate_ccma_workflow_hash (request : CCMAWorkflowRequest) : string :=
  let entries_data := map ccma_workflow_entry_data (ccma_entries request) in
  sha256_hex (cred_cuit (ccma_credentials request) +:+ "|"
              +:+ join "|" (sorted entries_data)).

(** [generate_transaction_hash]: kept for backward compatibility. *)
Definition generate_transaction_hash (request : CCMAWorkflowRequest) : string :=
  generate_ccma_workflow_hash request.

End WithRuntime.

(** *** The canonical form as the specification words it *)

(** [present o] is the field when it has a value, in the list notation of
    the specification's optional segments. *)
Definition present (o : option string) : list string :=
  match o with
  | Some s => if str_truthy s then [s] else []
  | None => []
  end.




(** [s.split("|")] *)
Fixpoint split_pipe_go (s acc : string) : list string :=
  match s with
  | EmptyString => [acc]
  | String c rest =>
      if Ascii.eqb c "|"%char then acc :: split_pipe_go rest ""
      else split_pipe_go rest (acc +:+ String c EmptyString)
  end.

Definition split_pipe (s : string) : list string := split_pipe_go s "".

Definition is_digit (c : ascii) : bool :=
  let n := nat_of_ascii c in ((48 <=? n)%nat && (n <=? 57)%nat)%bool.

Fixpoint all_digits (s : string) : bool :=
  match s with
  | EmptyString => true
  | String c rest => is_digit c && all_digits rest
  end.

(** A fixed decimal form with exactly two fraction digits: digits, a point,
    two digits. *)
Fixpoint two_fraction_digits (s : string) : bool :=
  match s with
  | EmptyString => false
  | String c rest =>
      if Ascii.eqb c "."%char then
        match rest with
        | String a (String b EmptyString) => is_digit a && is_digit b
        | _ => false
        end
      else is_digit c && two_fraction_digits rest
  end.

End Hashing.

(** ** Entry TTL: api/utils/ttl_calculator.py *)

Module Ttl.
Import Py.

(** A [datetime] value, as microseconds of its wall-clock fields since the
    epoch; an aware one carries its UTC offset. *)
Inductive datetime : Type :=
| Naive (micros : Z)
| Aware (micros utcoffset : Z).

(** [s.replace("Z", "+00:00")] *)
Fixpoint replace_Z (s : string) : string :=
  match s with
  | EmptyString => EmptyString
  | String c rest =>
      if Ascii.eqb c "Z"%char then "+00:00" +:+ replace_Z rest
      else String c (replace_Z rest)
  end.

Section WithRuntime.

(** [datetime.strptime(s, fmt)] for the two date formats of the module,
    which have no zone directive: a naive datetime, or [None] for the
    [ValueError] of a string that does not match. *)
Variable strptime : string -> string -> option Z.

(** [datetime.fromisoformat(s)]: [None] is its [ValueError]. *)
Variable fromisoformat : string -> option datetime.

(** [datetime.now()]: the naive local time of the call. *)
Variable now : Z.

(** ttl_calculator.py :: _parse_date *)
Definition _parse_date (expiration_date : string) : option datetime :=
  if contains "T" expiration_date || contains "+" expiration_date
     || contains "Z" expiration_date
  then fromisoformat (replace_Z expiration_date)
  else if contains "/" expiration_date
  then option_map Naive (strptime expiration_date "%d/%m/%Y")
  else option_map Naive (strptime expiration_date "%Y-%m-%d").

(** [int((exp_dt - now).total_seconds())] for two naive datetimes:
    truncation towards zero of the difference in seconds. The rounding of
    [total_seconds()] to a double is not modelled. *)
Definition seconds_until (exp_dt : Z) : Z := Z.quot (exp_dt - now) 1000000.

(** ttl_calculator.py :: calculate_ttl_from_entry_expiration. Subtracting the
    naive [datetime.now()] from an aware datetime raises [TypeError], which
    the [except (ValueError, TypeError)] clause turns into the default. *)
Definition calculate_ttl_from_entry_expiration (expiration_date : string) : Z :=
  if str_truthy expiration_date then
    match _parse_date expiration_date with
    | Some (Naive exp_dt) => Z.max (seconds_until exp_dt) 300
    | Some (Aware _ _) => 3600
    | None => 3600
    end
  else 3600.

End WithRuntime.

End Ttl.

(** ** Browser-fleet autoscaler: core/services/selenium_scaler.py *)

Module Scaler.
Import Py.

Record SeleniumScaler : Type := mkScaler {
  min_nodes : Z;
  max_nodes : Z;
  sessions_per_node : Z;
  current_nodes : Z
}.

Definition with_current_nodes (sc : SeleniumScaler) (n : Z) : SeleniumScaler :=
  mkScaler (min_nodes sc) (max_nodes sc) (sessions_per_node sc) n.

(** What [subprocess.run(["docker-compose", ...])] does. *)
Inductive ComposeResult : Type :=
| Exited (returncode : Z)
| TimeoutExpired
| ComposeError.

(** What [requests.get(hub_url + "/status")] does: a response with its
    status code and the ["availability"] of each node listed in its body, or
    an exception. *)
Inductive HubProbe : Type :=
| HubResponse (status_code : Z) (availability : list (option string))
| HubException.

(** A call returns a value or raises. *)
Inductive Outcome (A : Type) : Type :=
| Returns (a : A)
| Raises (exc : string).
Arguments Returns {A} a.
Arguments Raises {A} exc.

(** [len([n for n in nodes if n.get("availability") != "DOWN"])] *)
Definition ready_nodes (availability : list (option string)) : Z :=
  Z.of_nat (length (filter (fun a => match a with
                                     | Some s => negb (String.eqb s "DOWN")
                                     | None => true
                                     end = true) availability)).

Section WithWorld.

(** The control plane: the result of the scale command for a target. *)
Variable compose : Z -> ComposeResult.

(** The hub: the answer to the k-th probe of a wait and the milliseconds the
    probe takes. *)
Variable hub : nat -> HubProbe * N.

(** The [while time.time() - start_time < timeout] loop; [elapsed] is in
    milliseconds and every round ends with [time.sleep(2)]. *)
Fixpoint wait_loop (fuel k : nat) (elapsed timeout_ms : N) (expected_nodes : Z)
    : option bool :=
  match fuel with
  | O => None
  | S fuel' =>
      if (elapsed <? timeout_ms)%N then
        let '(probe, latency) := hub k in
        let next := wait_loop fuel' (S k) (elapsed + latency + 2000)%N timeout_ms
                              expected_nodes in
        match probe with
        | HubResponse status_code availability =>
            if status_code =? 200 then
              if expected_nodes <=? ready_nodes availability then Some true else next
            else next
        | HubException => next
        end
      else Some false
  end.

(** SeleniumScaler._wait_for_nodes_ready *)
Definition _wait_for_nodes_ready (expected_nodes : Z) (timeout : N) : option bool :=
  wait_loop (S (S (N.to_nat (timeout * 1000 / 2000)))) O 0%N (timeout * 1000)%N
            expected_nodes.

(** SeleniumScaler.scale_up: the result of the readiness wait is dropped. *)
Definition scale_up (sc : SeleniumScaler) (count : Z) : option (bool * SeleniumScaler) :=
  let target := Z.min (current_nodes sc + count) (max_nodes sc) in
  if target <=? current_nodes sc then Some (true, sc)
  else
    match compose target with
    | Exited returncode =>
        if returncode =? 0 then
          let sc' := with_current_nodes sc target in
          match _wait_for_nodes_ready target 30 with
          | Some _ => Some (true, sc')
          | None => None
          end
        else Some (false, sc)
    | TimeoutExpired => Some (false, sc)
    | ComposeError => Some (false, sc)
    end.

(** SeleniumScaler.ensure_capacity; [//] is the floor division of [Z]. *)
Definition ensure_capacity (sc : SeleniumScaler) (sessions_needed : Z)
    : option (Outcome bool * SeleniumScaler) :=
  if sessions_per_node sc =? 0 then Some (Raises "ZeroDivisionError", sc)
  else
    let nodes_needed :=
      (sessions_needed + sessions_per_node sc - 1) / sessions_per_node sc in
    let nodes_needed := Z.min nodes_needed (max_nodes sc) in
    if current_nodes sc <? nodes_needed then
      match scale_up sc (nodes_needed - current_nodes sc) with
      | Some (b, sc') => Some (Returns b, sc')
      | None => None
      end
    else Some (Returns true, sc).

(** SeleniumScaler.scale_down *)
Definition scale_down (sc : SeleniumScaler) (count : Z) : bool * SeleniumScaler :=
  let target := Z.max (current_nodes sc - count) (min_nodes sc) in
  if current_nodes sc <=? target then (true, sc)
  else
    match compose target with
    | Exited returncode =>
        if returncode =? 0 then (true, with_current_nodes sc target) else (false, sc)
    | TimeoutExpired => (false, sc)
    | ComposeError => (false, sc)
    end.

End WithWorld.

(** *** The session count read from the hub *)

(** What [requests.get(hub_url + "/status")] gives to [get_hub_status]: a
    response with its status code and its decoded JSON body, or an exception
    of the request or of the decoding. A body is a [pyval]; numbers with a
    fraction, which the readers below never look at, are not among them. *)
Inductive StatusProbe : Type :=
| StatusResponse (status_code : Z) (body : pyval)
| StatusException.

(** SeleniumScaler.get_hub_status *)
Definition get_hub_status (probe : StatusProbe) : option pyval :=
  match probe with
  | StatusResponse status_code body => if status_code =? 200 then Some body else None
  | StatusException => None
  end.

(** [v.get(key, default)] on a decoded value: only a dictionary has the
    method. *)
Definition json_get (key : string) (default v : pyval) : Outcome pyval :=
  match v with
  | PDict d => Returns (dict_get_default key default d)
  | _ => Raises "AttributeError"
  end.

(** [len(v)] *)
Definition py_len (v : pyval) : Outcome Z :=
  match v with
  | PStr s => Returns (Z.of_nat (String.length s))
  | PList l => Returns (Z.of_nat (length l))
  | PDict d => Returns (Z.of_nat (length d))
  | _ => Raises "TypeError"
  end.

(** [for x in v]: the items of a list, the keys of a dictionary, the
    characters of a string. *)
Definition py_iter (v : pyval) : Outcome (list pyval) :=
  match v with
  | PList l => Returns l
  | PDict d => Returns (map (fun kv => PStr (fst kv)) d)
  | PStr s => Returns (map (fun c => PStr (String c EmptyString)) (list_ascii_of_string s))
  | _ => Raises "TypeError"
  end.

(** [sum(len(node.get("slots", [])) for node in nodes
         if node.get("availability") != "DOWN")] *)
Fixpoint sum_slots (nodes : list pyval) : Outcome Z :=
  match nodes with
  | [] => Returns 0
  | node :: rest =>
      match json_get "availability" PNone node with
      | Raises exc => Raises exc
      | Returns availability =>
          if match availability with PStr s => String.eqb s "DOWN" | _ => false end
          then sum_slots rest
          else
            match json_get "slots" (PList []) node with
            | Raises exc => Raises exc
            | Returns slots =>
                match py_len slots with
                | Raises exc => Raises exc
                | Returns n =>
                    match sum_slots rest with
                    | Raises exc => Raises exc
                    | Returns total => Returns (n + total)
                    end
                end
            end
      end
  end.

(** SeleniumScaler.get_active_sessions_count *)
Definition get_active_sessions_count (probe : StatusProbe) : Outcome Z :=
  match get_hub_status probe with
  | Some status =>
      if truthy status then
        match json_get "value" (PDict []) status with
        | Raises exc => Raises exc
        | Returns value =>
            match json_get "ready" (PBool true) value with
            | Raises exc => Raises exc
            | Returns ready =>
                if truthy ready then Returns 0
                else
                  match json_get "nodes" (PList []) value with
                  | Raises exc => Raises exc
                  | Returns nodes =>
                      match py_iter nodes with
                      | Raises exc => Raises exc
                      | Returns l => sum_slots l
                      end
                  end
            end
        end
      else Returns 0
  | None => Returns 0
  end.

End Scaler.

(** ** Idle monitor of the browser fleet: core/services/selenium_monitor.py *)

Module Idle.
Import Py Scaler.

(** SeleniumMonitor; [last_activity_time] in microseconds. *)
Record SeleniumMonitor : Type := mkMonitor {
  scaler : SeleniumScaler;
  idle_timeout : Z;
  check_interval : Z;
  last_activity_time : Z
}.

Definition with_last_activity (m : SeleniumMonitor) (t : Z) : SeleniumMonitor :=
  mkMonitor (scaler m) (idle_timeout m) (check_interval m) t.

Definition with_scaler (m : SeleniumMonitor) (sc : SeleniumScaler) : SeleniumMonitor :=
  mkMonitor sc (idle_timeout m) (check_interval m) (last_activity_time m).

Section WithWorld.

Variable compose : Z -> ComposeResult.

(** [datetime.now()]: the k-th reading of the clock during one check, in
    microseconds. *)
Variable now : nat -> Z.

(** SeleniumMonitor._check_and_scale_down for the answer [probe] of the hub.
    [idle_time >= self.idle_timeout] compares seconds; the rounding of
    [total_seconds()] to a double is not modelled. An exception of the
    session count is caught and logged. *)
Definition _check_and_scale_down (probe : StatusProbe) (m : SeleniumMonitor)
    : SeleniumMonitor :=
  match get_active_sessions_count probe with
  | Raises _ => m
  | Returns active_sessions =>
      if 0 <? active_sessions then with_last_activity m (now 0%nat)
      else
        let idle_micros := now 0%nat - last_activity_time m in
        if (idle_timeout m * 1000000 <=? idle_micros) && (0 <? current_nodes (scaler m))
        then
          let '(success, sc) := scale_down compose (scaler m) 1 in
          if (success : bool) then with_last_activity (with_scaler m sc) (now 1%nat)
          else with_scaler m sc
        else m
  end.

(** SeleniumMonitor.mark_activity *)
Definition mark_activity (m : SeleniumMonitor) : SeleniumMonitor :=
  with_last_activity m (now 0%nat).

End WithWorld.

End Idle.

(** ** Transaction store: core/services/transaction_service.py

    The in-memory backend ([self._redis_client] is [None]): the dictionary
    [self._transactions] from storage key to record. The Redis client is a
    collaborator outside this model. A call of a service is modelled without
    interleaving of other tasks between its statements. *)

Module Store.
Import Py.

(** The exceptions that the services raise or let through. *)
Inductive Exc : Type :=
| DuplicateTransactionError (existing_exchange_id : string)
| PasswordServiceNotAvailableError
| PasswordNotFoundError (cuit : string)
| APITransactionCreationError (entry_hash : string)
| APIWorkflowStartupError
| TypeError
| AttributeError
| ValueError.

Inductive Result (A : Type) : Type :=
| Ok (a : A)
| Err (e : Exc).
Arguments Ok {A} a.
Arguments Err {A} e.

(** The calls that a property speaks about, oldest first. *)
Inductive Event : Type :=
| EvCheckDuplicate (transaction_hash : string)
| EvCreateTransaction (exchange_id transaction_hash : string)
                      (request_data : dict pyval) (ttl_seconds : Z)
| EvUpdateStatus (exchange_id status : string) (results : option (dict pyval))
| EvTransactionMetric (operation outcome : string)
| EvBusinessResult (workflow_type outcome : string)
| EvExecuteWorkflowAsync (workflow_type : string) (params : dict pyval)
                         (exchange_id : string)
| EvSpawnMonitor (exchange_id transaction_hash : string)
| EvSleep.

(** The state that the services share. *)
Record World : Type := mkWorld {
  w_transactions : dict (dict pyval);
  w_tick : nat;
  w_uuids : nat;
  w_trace : list Event
}.

Definition with_transactions (w : World) (t : dict (dict pyval)) : World :=
  mkWorld t (w_tick w) (w_uuids w) (w_trace w).

Definition emit (w : World) (evs : list Event) : World :=
  mkWorld (w_transactions w) (w_tick w) (w_uuids w) (w_trace w ++ evs).

Definition advance (w : World) : World :=
  mkWorld (w_transactions w) (S (w_tick w)) (w_uuids w) (w_trace w).

(** Computations on the world that may raise; what was done before a raise
    stays done. *)
Definition M (A : Type) : Type := World -> Result A * World.

Definition ret {A : Type} (a : A) : M A := fun w => (Ok a, w).
Definition raise {A : Type} (e : Exc) : M A := fun w => (Err e, w).
Definition bind {A B : Type} (m : M A) (k : A -> M B) : M B :=
  fun w => match m w with
           | (Ok a, w') => k a w'
           | (Err e, w') => (Err e, w')
           end.
Definition lift {A : Type} (r : Result A) : M A := fun w => (r, w).
Definition log (evs : list Event) : M unit := fun w => (Ok tt, emit w evs).

Notation "'call' x <- m ; k" := (bind m (fun x => k))
  (at level 10, x name, m at level 100, k at level 200).
Notation "'run' m ; k" := (bind m (fun _ => k))
  (at level 10, m at level 100, k at level 200).

(** [try: m except Exception: handler] *)
Definition try_except {A : Type} (m : M A) (handler : Exc -> M A) : M A :=
  fun w => match m w with
           | (Ok a, w') => (Ok a, w')
           | (Err e, w') => handler e w'
           end.

(** *** Operations on values whose type the code does not check *)

(** [key in v] *)
Definition py_in (key : string) (v : pyval) : Result bool :=
  match v with
  | PDict d => Ok (dict_mem key d)
  | PStr s => Ok (contains key s)
  | PList l => Ok (existsb (fun x => match x with
                                     | PStr s => String.eqb s key
                                     | _ => false
                                     end) l)
  | _ => Err TypeError
  end.

(** [v.get(key)]: the method exists on dictionaries only. *)
Definition py_get (key : string) (v : pyval) : Result pyval :=
  match v with
  | PDict d => Ok (dict_get_default key PNone d)
  | _ => Err AttributeError
  end.

(** [v.get(key, default)] *)
Definition py_get_default (key : string) (default v : pyval) : Result pyval :=
  match v with
  | PDict d => Ok (dict_get_default key default d)
  | _ => Err AttributeError
  end.

(** [v[key]] for a key that [key in v] has found; subscripting a string or
    a list with a string raises. *)
Definition py_getitem (key : string) (v : pyval) : Result pyval :=
  match v with
  | PDict d => match dict_get key d with Some x => Ok x | None => Err TypeError end
  | _ => Err TypeError
  end.

Section WithRuntime.

(** [datetime.now()] at a tick of the world and [isoformat()]. *)
Variable clock : nat -> Z.
Variable isoformat : Z -> string.

Definition now_iso : M string :=
  fun w => (Ok (isoformat (clock (w_tick w))), advance w).

(** *** TransactionService *)

(** The scan of [check_duplicate]: the key of the first record whose
    ["transaction_hash"] equals the hash. *)
Fixpoint find_by_hash (transaction_hash : string) (t : dict (dict pyval)) : option string :=
  match t with
  | [] => None
  | (exchange_id, data) :: rest =>
      match dict_get "transaction_hash" data with
      | Some (PStr h) =>
          if String.eqb h transaction_hash then Some exchange_id
          else find_by_hash transaction_hash rest
      | _ => find_by_hash transaction_hash rest
      end
  end.

(** TransactionService.check_duplicate *)
Definition check_duplicate (transaction_hash : string) : M (option string) :=
  fun w =>
    match find_by_hash transaction_hash (w_transactions w) with
    | Some exchange_id =>
        (Ok (Some exchange_id),
         emit w [EvCheckDuplicate transaction_hash;
                 EvTransactionMetric "duplicate_check" "duplicate"])
    | None =>
        (Ok None,
         emit w [EvCheckDuplicate transaction_hash;
                 EvTransactionMetric "duplicate_check" "success"])
    end.

(** TransactionService.create_transaction *)
Definition create_transaction (exchange_id transaction_hash : string)
    (request_data : dict pyval) (ttl_seconds : Z) : M bool :=
  call created_at <- now_iso;
  let transaction_data :=
    [("status", PStr (value CREATED));
     ("transaction_hash", PStr transaction_hash);
     ("exchange_id", PStr exchange_id);
     ("created_at", PStr created_at);
     ("request_data", PDict request_data);
     ("ttl_seconds", PInt ttl_seconds)] in
  fun w =>
    (Ok true,
     emit (with_transactions w (dict_set exchange_id transaction_data (w_transactions w)))
          [EvCreateTransaction exchange_id transaction_hash request_data ttl_seconds;
           EvTransactionMetric "creation" "success"]).

(** [if results:] for an [Optional[Dict]] *)
Definition results_truthy (results : option (dict pyval)) : bool :=
  match results with
  | Some (_ :: _) => true
  | _ => false
  end.

(** TransactionService.update_status *)
Definition update_status (exchange_id status : string)
    (results : option (dict pyval)) : M bool :=
  run log [EvUpdateStatus exchange_id status results];
  fun w =>
    let store d := with_transactions w (dict_set exchange_id d (w_transactions w)) in
    match dict_get exchange_id (w_transactions w) with
    | None => (Ok false, w)
    | Some data =>
        let data1 := dict_set "status" (PStr status) data in
        let merged :=
          if results_truthy results then
            match dict_get_default "results" (PDict []) data1 with
            | PDict existing_results =>
                let merged_results :=
                  dict_merge existing_results
                             (match results with Some r => r | None => [] end) in
                Ok (dict_set "results" (PDict merged_results) data1)
            | _ => Err TypeError
            end
          else Ok data1 in
        match merged with
        | Err e => (Err e, store data1)
        | Ok data2 =>
            let updated_at := isoformat (clock (w_tick w)) in
            (Ok true, advance (store (dict_set "updated_at" (PStr updated_at) data2)))
        end
    end.

(** TransactionService.get_transaction *)
Definition get_transaction (exchange_id : string) : M (option (dict pyval)) :=
  fun w => (Ok (dict_get exchange_id (w_transactions w)), w).

(** TransactionService.set_workflow_status *)
Definition set_workflow_status (exchange_id : string) (status : WorkflowStatus) : M unit :=
  run update_status exchange_id (value status) None; ret tt.

(** TransactionService.is_workflow_running *)
Definition is_workflow_running (exchange_id : string) : M bool :=
  call transaction_data <- get_transaction exchange_id;
  match transaction_data with
  | Some ((_ :: _) as transaction_data) =>
      ret (match dict_get_default "status" (PStr "") transaction_data with
           | PStr current_status => String.eqb current_status (value RUNNING)
           | _ => false
           end)
  | _ => ret false
  end.

(** [transaction_data.get("status") == status] *)
Definition has_status (status : string) (transaction_data : dict pyval) : bool :=
  match dict_get "status" transaction_data with
  | Some (PStr s) => String.eqb s status
  | _ => false
  end.

(** TransactionService.get_transactions_by_status *)
Definition get_transactions_by_status (status : string) : M (dict (dict pyval)) :=
  fun w =>
    (Ok (filter (fun kv => has_status status (snd kv) = true) (w_transactions w)), w).

End WithRuntime.

End Store.

(** ** Application service: api/application/workflow_application_service.py *)

Module App.
Import Py Hashing Ttl Store.

(** api/models/responses/ccma_entry_status.py :: CCMAEntryStatus *)
Record CCMAEntryStatus : Type := mkEntryStatus {
  es_period_from : string;
  es_period_to : string;
  es_calculation_date : string;
  es_taxpayer_type : option string;
  es_tax_type : option string;
  es_transaction_hash : string;
  es_status : string;
  es_existing_exchange_id : option string
}.

(** api/models/responses/ccma_workflow_response.py :: CCMAWorkflowExecutionResponse *)
Record CCMAWorkflowExecutionResponse : Type := mkResponse {
  resp_exchange_id : option string;
  resp_processed_entries : list CCMAEntryStatus;
  resp_duplicate_entries : list CCMAEntryStatus;
  resp_vep_file_path : option string;
  resp_total_entries : nat;
  resp_processed_count : nat;
  resp_duplicate_count : nat
}.

(** [str.strip()] on the ASCII white space. *)
Definition is_space (c : ascii) : bool :=
  let n := nat_of_ascii c in
  (((9 <=? n)%nat && (n <=? 13)%nat) || ((28 <=? n)%nat && (n <=? 32)%nat))%bool.

Fixpoint lstrip (s : string) : string :=
  match s with
  | EmptyString => EmptyString
  | String c rest => if is_space c then lstrip rest else s
  end.

Fixpoint rstrip (s : string) : string :=
  match s with
  | EmptyString => EmptyString
  | String c rest =>
      match rstrip rest with
      | EmptyString => if is_space c then EmptyString else String c EmptyString
      | r => String c r
      end
  end.

Definition strip (s : string) : string := rstrip (lstrip s).

Definition opt_pyval (o : option string) : pyval :=
  match o with Some s => PStr s | None => PNone end.

(** [entry.dict()] *)
Definition entry_dict (entry : CCMAEntry) : dict pyval :=
  [("period_from", PStr (ccma_period_from entry));
   ("period_to", PStr (ccma_period_to entry));
   ("calculation_date", PStr (ccma_calculation_date entry));
   ("form_payment", PStr (ccma_form_payment entry));
   ("expiration_date", PStr (ccma_expiration_date entry));
   ("taxpayer_type", opt_pyval (ccma_taxpayer_type entry));
   ("tax_type", opt_pyval (ccma_tax_type entry));
   ("include_interests", PBool (ccma_include_interests entry))].

Section WithRuntime.

Variable clock : nat -> Z.
Variable isoformat : Z -> string.
Variable sha256_hex : string -> string.
Variable strptime : string -> string -> option Z.
Variable fromisoformat : string -> option datetime.

(** [str(uuid.uuid4())]: the n-th identifier drawn. *)
Variable uuid4 : nat -> string.

(** The password service, when FERNET_KEY is configured: the password stored
    for a CUIT, if any. *)
Variable password_service : option (string -> option string).

(** Whether [asyncio.create_task] accepts the background task. *)
Variable task_created : string -> dict pyval -> string -> bool.

Definition fresh_uuid : M string :=
  fun w => (Ok (uuid4 (w_uuids w)),
            mkWorld (w_transactions w) (w_tick w) (S (w_uuids w)) (w_trace w)).

(** WorkflowOrchestrator.execute_workflow_async: the task itself runs after
    the call has returned. *)
Definition execute_workflow_async (workflow_type : string) (workflow_params : dict pyval)
    (exchange_id : string) : M bool :=
  run log [EvExecuteWorkflowAsync workflow_type workflow_params exchange_id];
  ret (task_created workflow_type workflow_params exchange_id).

(** WorkflowApplicationService._resolve_password *)
Definition _resolve_password (cuit : string) (provided_password : option string) : M string :=
  let from_service :=
    match password_service with
    | None => raise PasswordServiceNotAvailableError
    | Some get_password =>
        match get_password cuit with
        | Some password => ret password
        | None => raise (PasswordNotFoundError cuit)
        end
    end in
  match provided_password with
  | Some p => if str_truthy p && str_truthy (strip p) then ret (strip p) else from_service
  | None => from_service
  end.

(** WorkflowApplicationService._get_existing_workflow_uuid; [uuid.UUID] of a
    well-formed string is that string. *)
Definition _get_existing_workflow_uuid (entry_hash : option string)
    (current_exchange_id : string) : M (option string) :=
  match entry_hash with
  | Some h =>
      if str_truthy h then
        call transaction_data <- get_transaction h;
        match transaction_data with
        | Some ((_ :: _) as data) =>
            match dict_get "request_data" data with
            | Some request_data =>
                call stored_workflow_id <- lift (py_get "workflow_exchange_id" request_data);
                if truthy stored_workflow_id then
                  match stored_workflow_id with
                  | PStr s => ret (Some s)
                  | _ => raise AttributeError
                  end
                else ret (Some current_exchange_id)
            | None => ret (Some current_exchange_id)
            end
        | _ => ret (Some current_exchange_id)
        end
      else ret None
  | None => ret None
  end.

(** The loop "Process each entry for duplicates" of [execute_ccma_workflow]. *)
Fixpoint classify_entries (entries : list CCMAEntry) (exchange_id : string)
    (processed_entries duplicate_entries : list CCMAEntryStatus)
    : M (list CCMAEntryStatus * list CCMAEntryStatus) :=
  match entries with
  | [] => ret (processed_entries, duplicate_entries)
  | entry :: rest =>
      let transaction_hash := generate_ccma_entry_hash sha256_hex entry in
      call existing_exchange_id <- check_duplicate transaction_hash;
      call existing_workflow_id <-
        _get_existing_workflow_uuid existing_exchange_id exchange_id;
      let entry_status :=
        mkEntryStatus (ccma_period_from entry) (ccma_period_to entry)
                      (ccma_calculation_date entry) (ccma_taxpayer_type entry)
                      (ccma_tax_type entry) transaction_hash
                      (if opt_truthy existing_exchange_id then "duplicate" else "new")
                      existing_workflow_id in
      if opt_truthy existing_exchange_id then
        classify_entries rest exchange_id processed_entries
                         (duplicate_entries ++ [entry_status])
      else
        classify_entries rest exchange_id (processed_entries ++ [entry_status])
                         duplicate_entries
  end.

(** [[entry for entry, status in zip(ccma_entries, processed_entries)
      if status.status == "new"]] *)
Definition select_new_entries (ccma_entries : list CCMAEntry)
    (processed_entries : list CCMAEntryStatus) : list CCMAEntry :=
  map fst (filter (fun p => String.eqb (es_status (snd p)) "new" = true)
                  (combine ccma_entries processed_entries)).

(** The loop that creates one transaction per new entry. *)
Fixpoint create_entry_transactions (new_entries : list CCMAEntry) (exchange_id : string)
    : M unit :=
  match new_entries with
  | [] => ret tt
  | entry :: rest =>
      call entry_ttl <-
        (fun w => (Ok (calculate_ttl_from_entry_expiration strptime fromisoformat
                         (clock (w_tick w)) (ccma_expiration_date entry)), w));
      let entry_hash := generate_ccma_entry_hash sha256_hex entry in
      call success <-
        create_transaction clock isoformat entry_hash entry_hash
          [("entry", PDict (entry_dict entry));
           ("workflow_exchange_id", PStr exchange_id)]
          entry_ttl;
      if (success : bool) then create_entry_transactions rest exchange_id
      else raise (APITransactionCreationError entry_hash)
  end.

Definition workflow_params_of (cuit password : string) (headless : bool)
    (entry : CCMAEntry) : dict pyval :=
  [("cuit", PStr cuit);
   ("password", PStr password);
   ("headless", PBool headless);
   ("tipo_contribuyente", opt_pyval (ccma_taxpayer_type entry));
   ("impuesto", opt_pyval (ccma_tax_type entry));
   ("period_from", PStr (ccma_period_from entry));
   ("period_to", PStr (ccma_period_to entry));
   ("calculation_date", PStr (ccma_calculation_date entry));
   ("form_payment", PStr (ccma_form_payment entry));
   ("include_interests", PBool (ccma_include_interests entry));
   ("expiration_date", PStr (ccma_expiration_date entry))].

(** The loop that starts one workflow per new entry and counts the starts. *)
Fixpoint start_entry_workflows (new_entries : list CCMAEntry)
    (cuit password : string) (headless : bool) (exchange_id : string)
    (workflow_started_count : nat) : M nat :=
  match new_entries with
  | [] => ret workflow_started_count
  | entry :: rest =>
      call workflow_started <-
        execute_workflow_async "ccma_workflow"
          (workflow_params_of cuit password headless entry) exchange_id;
      start_entry_workflows rest cuit password headless exchange_id
        (if (workflow_started : bool) then S workflow_started_count
         else workflow_started_count)
  end.

(** WorkflowApplicationService.execute_ccma_workflow *)
Definition execute_ccma_workflow (request : CCMAWorkflowRequest) (headless : bool)
    : M CCMAWorkflowExecutionResponse :=
  let workflow_transaction_hash := generate_ccma_workflow_hash sha256_hex request in
  call existing_workflow_id <- check_duplicate workflow_transaction_hash;
  run (match existing_workflow_id with
       | Some existing =>
           if str_truthy existing then raise (DuplicateTransactionError existing)
           else ret tt
       | None => ret tt
       end);
  let ccma_entries := ccma_entries request in
  let cuit := cred_cuit (ccma_credentials request) in
  call password <- _resolve_password cuit (cred_password (ccma_credentials request));
  call exchange_id <- fresh_uuid;
  call classified <- classify_entries ccma_entries exchange_id [] [];
  let processed_entries := fst classified in
  let duplicate_entries := snd classified in
  match processed_entries with
  | [] =>
      ret (mkResponse None processed_entries duplicate_entries None
                      (length ccma_entries) 0 (length duplicate_entries))
  | _ :: _ =>
      let new_entries := select_new_entries ccma_entries processed_entries in
      run create_entry_transactions new_entries exchange_id;
      call workflow_started_count <-
        start_entry_workflows new_entries cuit password headless exchange_id 0;
      if (workflow_started_count =? 0)%nat then
        run set_workflow_status clock isoformat exchange_id FAILED;
        raise APIWorkflowStartupError
      else
        run set_workflow_status clock isoformat exchange_id RUNNING;
        run log [EvSpawnMonitor exchange_id workflow_transaction_hash];
        ret (mkResponse (Some exchange_id) processed_entries duplicate_entries None
                        (length ccma_entries) (length processed_entries)
                        (length duplicate_entries))
  end.

End WithRuntime.

(** *** core/utils/vep_results.py and the monitor task *)

(** [s.endswith(suffix)] *)
Fixpoint endswith (suffix s : string) : bool :=
  if String.eqb s suffix then true
  else match s with
       | EmptyString => false
       | String _ rest => endswith suffix rest
       end.

(** vep_results.py :: _is_serializable *)
Fixpoint _is_serializable (v : pyval) : bool :=
  match v with
  | PNone => true
  | PBool _ => true
  | PInt _ => true
  | PStr _ => true
  | PList l => forallb _is_serializable l
  | PDict d => forallb (fun kv => _is_serializable (snd kv)) d
  | PExc _ _ => false
  | PResult _ _ _ => false
  end.

Section WithFiles.

Variable clock : nat -> Z.
Variable isoformat : Z -> string.

(** The file system as [_create_file_data_dict] sees it: whether the path
    exists, the base64 text of its bytes ([None] when reading fails), the
    MIME type guessed from its name and its last component. *)
Variable path_exists : string -> bool.
Variable read_base64 : string -> option string.
Variable guess_type : string -> option string.
Variable path_name : string -> string.

(** The text of the exception raised on a path that is not a string. *)
Variable path_error_text : string.

(** What the other tasks do to the store while the monitor sleeps for the
    k-th time. *)
Variable others : nat -> dict (dict pyval) -> dict (dict pyval).

(** vep_results.py :: _create_file_data_dict *)
Definition _create_file_data_dict (file_path : string) : option (dict pyval) :=
  if path_exists file_path then
    match read_base64 file_path with
    | Some base64_content =>
        Some [("filename", PStr (path_name file_path));
              ("content_type",
               PStr (match guess_type file_path with
                     | Some t => if str_truthy t then t else "application/octet-stream"
                     | None => "application/octet-stream"
                     end));
              ("data", PStr base64_content)]
    | None => None
    end
  else None.

(** The loop over [qr_files]: the first path that exists and can be read. *)
Fixpoint first_qr (qr_paths : list pyval) : Result (option (dict pyval)) :=
  match qr_paths with
  | [] => Ok None
  | qr_path :: rest =>
      if truthy qr_path then
        match qr_path with
        | PStr p =>
            if path_exists p then
              match _create_file_data_dict p with
              | Some png_data => Ok (Some png_data)
              | None => first_qr rest
              end
            else first_qr rest
        | _ => Err TypeError
        end
      else first_qr rest
  end.

(** vep_results.py :: process_vep_results *)
Definition process_vep_results (workflow_results : dict pyval)
    (exchange_id transaction_hash : option string) : dict pyval :=
  let with_id :=
    match exchange_id with
    | Some e => if str_truthy e then [("exchange_id", PStr e)] else []
    | None => []
    end in
  let with_hash :=
    match transaction_hash with
    | Some h => if str_truthy h then dict_set "transaction_hash" (PStr h) with_id
                else with_id
    | None => with_id
    end in
  let with_pdf : Result (dict pyval) :=
    match dict_get "vep_pdf_path" workflow_results with
    | Some pdf_path =>
        if truthy pdf_path then
          match pdf_path with
          | PStr p =>
              match _create_file_data_dict p with
              | Some pdf_data => Ok (dict_set "pdf" (PDict pdf_data) with_hash)
              | None => Ok with_hash
              end
          | _ => Err TypeError
          end
        else Ok with_hash
    | None => Ok with_hash
    end in
  let qr_paths :=
    map snd (filter (fun kv => (contains "qr" (lower (fst kv))
                                && contains "path" (fst kv))%bool = true)
                    workflow_results) in
  let with_png : Result (dict pyval) :=
    match with_pdf with
    | Ok d =>
        match first_qr qr_paths with
        | Ok (Some png_data) => Ok (dict_set "png" (PDict png_data) d)
        | Ok None => Ok d
        | Err e => Err e
        end
    | Err e => Err e
    end in
  match with_png with
  | Ok d =>
      let with_url :=
        match dict_get "payment_url" workflow_results with
        | Some url => dict_set "payment_url" url d
        | None => d
        end in
      fold_left
        (fun acc kv =>
           let k := fst kv in
           if (negb (endswith "_path" k)
               && negb (existsb (String.eqb k)
                          ["payment_url"; "vep_pdf_filename"; "vep_qr_filename"])
               && negb (endswith "_service" k)
               && _is_serializable (snd kv))%bool
           then dict_set k (snd kv) acc else acc)
        workflow_results with_url
  | Err _ =>
      [("error", PStr path_error_text);
       ("exchange_id", match exchange_id with
                       | Some e => if str_truthy e then PStr e else PNone
                       | None => PNone
                       end);
       ("transaction_hash", opt_pyval transaction_hash)]
  end.


(** [record_ccma_result(outcome) if workflow_type == "ccma" else
    record_ddjj_result(outcome)] *)
Definition record_business (workflow_type outcome : string) : M unit :=
  log [EvBusinessResult (if String.eqb workflow_type "ccma" then "ccma" else "ddjj")
                        outcome].

(** The part of [_monitor_workflow_completion] after the polling loop,
    inside the [try]. *)
Definition monitor_completion (exchange_id transaction_hash : string) : M unit :=
  call transaction_data <- get_transaction exchange_id;
  match transaction_data with
  | Some ((_ :: _) as transaction_data) =>
      let request_data := dict_get_default "request_data" (PDict []) transaction_data in
      call has_cuit <- lift (py_in "cuit" request_data);
      call has_period <-
        (if (has_cuit : bool) then lift (py_in "period_from" request_data) else ret false);
      let workflow_type := if (has_period : bool) then "ccma" else "ddjj" in
      call has_result <- lift (py_in "_workflow_result" request_data);
      if (has_result : bool) then
        call workflow_result <- lift (py_getitem "_workflow_result" request_data);
        match workflow_result with
        | PResult status results errors =>
            if String.eqb (value status) "COMPLETED" then
              run record_business workflow_type "success";
              let processed_results :=
                process_vep_results results (Some exchange_id) (Some transaction_hash) in
              run update_status clock isoformat exchange_id (value COMPLETED)
                                (Some processed_results);
              ret tt
            else
              run record_business workflow_type "failed";
              run update_status clock isoformat exchange_id (value FAILED)
                                (Some [("errors", PDict errors)]);
              ret tt
        | _ => raise AttributeError
        end
      else
        call has_error <- lift (py_in "_workflow_error" request_data);
        if (has_error : bool) then
          call workflow_error <- lift (py_getitem "_workflow_error" request_data);
          run update_status clock isoformat exchange_id (value FAILED)
                (Some [("errors", PDict [("workflow_error", workflow_error)])]);
          ret tt
        else ret tt
  | _ => ret tt
  end.

(** The text of [str(e)] in the [except] clause of the monitor. *)
Variable exception_text : Exc -> string.


End WithFiles.

(** *** Notions used to state the properties of the service *)


(** The calls of a trace that write to the store or start work. *)
Definition is_write (e : Event) : bool :=
  match e with
  | EvCreateTransaction _ _ _ _ => true
  | EvUpdateStatus _ _ _ => true
  | EvExecuteWorkflowAsync _ _ _ => true
  | EvSpawnMonitor _ _ => true
  | _ => false
  end.

(** [reads_only w w']: between the two worlds no record was written, no
    identifier was drawn and no call that writes or starts work was made. *)
Definition reads_only (w w' : World) : Prop :=
  w_transactions w' = w_transactions w /\
  w_uuids w' = w_uuids w /\
  filter (fun e => is_write e = true) (w_trace w')
    = filter (fun e => is_write e = true) (w_trace w).


End App.

(** ** Retry sweeper: core/services/retry_service.py and
    core/utils/error_classifier.py *)

Module Retry.
Import Py Store.

(** error_classifier.py :: is_retryable_error on an exception object: the
    classes of the retryable taxonomy. *)
Definition is_retryable_error (k : ExcKind) : bool :=
  match k with
  | OtherException _ => false
  | _ => true
  end.

(** error_classifier.py :: has_retryable_error on the values of a
    dictionary: an exception object, a nested dictionary, or a list of
    exception objects and dictionaries. *)
Fixpoint retryable_detail (error_detail : pyval) : bool :=
  match error_detail with
  | PExc k _ => is_retryable_error k
  | PDict d => existsb (fun kv => retryable_detail (snd kv)) d
  | PList l =>
      existsb (fun item =>
                 match item with
                 | PExc k _ => is_retryable_error k
                 | PDict d => existsb (fun kv => retryable_detail (snd kv)) d
                 | _ => false
                 end) l
  | _ => false
  end.

(** error_classifier.py :: has_retryable_error *)
Definition has_retryable_error (errors : pyval) : Result bool :=
  if truthy errors then
    match errors with
    | PDict d => Ok (existsb (fun kv => retryable_detail (snd kv)) d)
    | _ => Err AttributeError
    end
  else Ok false.

(** [retry_count >= max_retries] and [retry_count + 1] need a number. *)
Definition as_int (v : pyval) : Result Z :=
  match v with
  | PInt n => Ok n
  | PBool b => Ok (if b then 1 else 0)
  | _ => Err TypeError
  end.

(** RetryService._is_transaction_retryable *)
Definition _is_transaction_retryable (transaction_data : dict pyval) (max_retries : Z)
    : Result bool :=
  match dict_get_default "status" PNone transaction_data with
  | PStr status =>
      if String.eqb status (value FAILED) then
        match as_int (dict_get_default "retry_count" (PInt 0) transaction_data) with
        | Ok retry_count =>
            if max_retries <=? retry_count then Ok false
            else
              let results := dict_get_default "results" (PDict []) transaction_data in
              match py_get_default "errors" (PDict []) results with
              | Ok errors => has_retryable_error errors
              | Err e => Err e
              end
        | Err e => Err e
        end
      else Ok false
  | _ => Ok false
  end.

(** RetryService._get_retryable_transactions_memory: the storage keys of the
    retryable records, in the order of the store. *)
Fixpoint _get_retryable_transactions_memory (t : dict (dict pyval)) (max_retries : Z)
    : Result (list string) :=
  match t with
  | [] => Ok []
  | (exchange_id, transaction_data) :: rest =>
      match _is_transaction_retryable transaction_data max_retries with
      | Ok b =>
          match _get_retryable_transactions_memory rest max_retries with
          | Ok l => Ok (if b then exchange_id :: l else l)
          | Err e => Err e
          end
      | Err e => Err e
      end
  end.

(** RetryService.get_retryable_transactions: an exception leaves the list
    empty. *)
Definition get_retryable_transactions (max_retries : Z) : M (list string) :=
  fun w =>
    match _get_retryable_transactions_memory (w_transactions w) max_retries with
    | Ok l => (Ok l, w)
    | Err _ => (Ok [], w)
    end.

(** RetryService._infer_workflow_type *)
Definition _infer_workflow_type (transaction_data : dict pyval) : Result (option string) :=
  let request_data := dict_get_default "request_data" (PDict []) transaction_data in
  let has key : Result bool :=
    match py_in "data" request_data with
    | Ok true =>
        match py_getitem "data" request_data with
        | Ok data => py_in key data
        | Err e => Err e
        end
    | Ok false => Ok false
    | Err e => Err e
    end in
  match has "period_from" with
  | Ok true => Ok (Some "ccma_workflow")
  | Ok false =>
      match has "entries" with
      | Ok true => Ok (Some "ddjj_workflow")
      | Ok false => Ok None
      | Err e => Err e
      end
  | Err e => Err e
  end.

(** [{k: v for k, v in params.items() if v is not None}] *)
Definition drop_none (params : dict pyval) : dict pyval :=
  filter (fun kv => match snd kv with PNone => false | _ => true end = true) params.

(** RetryService._extract_workflow_params *)
Definition _extract_workflow_params (request_data : pyval) (workflow_type : string)
    : Result (dict pyval) :=
  let get2 (src : pyval) (key : string) (k : pyval -> Result (dict pyval)) :=
    match py_get key src with Ok v => k v | Err e => Err e end in
  let get2d (src : pyval) (key : string) (default : pyval)
            (k : pyval -> Result (dict pyval)) :=
    match py_get_default key default src with Ok v => k v | Err e => Err e end in
  if String.eqb workflow_type "ccma_workflow" then
    get2d request_data "credentials" (PDict []) (fun credentials =>
    get2d request_data "data" (PDict []) (fun data =>
    get2 credentials "cuit" (fun cuit =>
    get2 credentials "password" (fun password =>
    get2 data "period_from" (fun period_from =>
    get2 data "period_to" (fun period_to =>
    get2 data "calculation_date" (fun calculation_date =>
    get2 data "tipo_contribuyente" (fun tipo_contribuyente =>
    get2 data "impuesto" (fun impuesto =>
    get2 data "form_payment" (fun form_payment =>
    get2d data "headless" (PBool false) (fun headless =>
    Ok (drop_none
          [("cuit", cuit); ("password", password); ("period_from", period_from);
           ("period_to", period_to); ("calculation_date", calculation_date);
           ("tipo_contribuyente", tipo_contribuyente); ("impuesto", impuesto);
           ("form_payment", form_payment); ("headless", headless)]))))))))))))
  else if String.eqb workflow_type "ddjj_workflow" then
    get2d request_data "credentials" (PDict []) (fun credentials =>
    get2d request_data "data" (PDict []) (fun data =>
    get2 credentials "cuit" (fun cuit =>
    get2 credentials "password" (fun password =>
    get2d data "entries" (PList []) (fun vep_data =>
    get2 data "form_payment" (fun form_payment =>
    get2d data "headless" (PBool false) (fun headless =>
    Ok (drop_none
          [("cuit", cuit); ("password", password); ("vep_data", vep_data);
           ("form_payment", form_payment); ("headless", headless)]))))))))
  else Ok [].

Section WithRuntime.

Variable clock : nat -> Z.
Variable isoformat : Z -> string.

(** Whether [asyncio.create_task] accepts the background task. *)
Variable task_created : string -> dict pyval -> string -> bool.

(** Whether [uuid.UUID(s)] accepts the string. *)
Variable is_uuid : string -> bool.

(** RetryService.retry_transaction *)
Definition retry_transaction (exchange_id : string) : M bool :=
  try_except
    (call transaction_data <- get_transaction exchange_id;
     match transaction_data with
     | Some ((_ :: _) as transaction_data) =>
         call stored <- lift (as_int (dict_get_default "retry_count" (PInt 0)
                                                       transaction_data));
         let retry_count := stored + 1 in
         run update_status clock isoformat exchange_id (value PENDING)
                           (Some [("retry_count", PInt retry_count)]);
         let request_data := dict_get_default "request_data" (PDict []) transaction_data in
         call workflow_type <- lift (_infer_workflow_type transaction_data);
         match workflow_type with
         | Some workflow_type =>
             call workflow_params <-
               lift (_extract_workflow_params request_data workflow_type);
             if is_uuid exchange_id then
               App.execute_workflow_async task_created workflow_type workflow_params
                                          exchange_id
             else raise ValueError
         | None => ret false
         end
     | _ => ret false
     end)
    (fun _ => ret false).




End WithRuntime.

End Retry.

(** ** Concrete inputs *)

Module Samples.
Import Py Engine.

Definition handler_ok : Handler unit :=
  fun env shared => (Returned (PBool true), env, shared).

Definition handler_raise : Handler unit :=
  fun env shared => (Raised "portal unreachable" "Traceback", env, shared).

Definition sample_step (nm : string) (h : Handler unit) (deps : list string)
    (required : bool) : WorkflowStep unit :=
  mkStep nm h deps 3 required StepStatus.PENDING PNone None None.

(** Steps A and B that depend on each other. *)
Definition cyclic_workflow : Workflow unit :=
  mkWorkflow "cyclic" [sample_step "A" handler_ok ["B"] true;
                       sample_step "B" handler_ok ["A"] true] PENDING [].

Definition cyclic_orchestrator : Orchestrator :=
  mkOrchestrator [("cyclic", cyclic_workflow)] [].

(** A step that is not required and raises, followed by a required step
    that succeeds. *)
Definition mixed_workflow : Workflow unit :=
  mkWorkflow "ccma_mixed" [sample_step "optional" handler_raise [] false;
                           sample_step "main" handler_ok ["optional"] true] PENDING [].

Definition mixed_orchestrator : Orchestrator :=
  mkOrchestrator [("ccma_mixed", mixed_workflow)] [].

Import Hashing.

(** The example entry of the CCMA schema, with both optional fields. *)
Definition ccma_entry_full : CCMAEntry :=
  mkCCMAEntry "01/2023" "12/2025" "15/09/2025" "qr" "31/12/2025"
              (Some "Monotributo") (Some "IVA") true.

(** The same entry without the optional fields. *)
Definition ccma_entry_plain : CCMAEntry :=
  mkCCMAEntry "01/2023" "12/2025" "15/09/2025" "qr" "31/12/2025" None None false.

(** The float 105.0 *)
Definition amount_105 : pyfloat := SpecFloat.S754_finite false 7388718138654720 (-46).

(** The example entry of the DDJJ schema. *)
Definition ddjj_entry_105 : DDJJEntry :=
  mkDDJJEntry "qr" "2025-12-31" "1571" "33" "27120017808" "19" "19" "202412"
              amount_105 "24".

(** A stand-in for the part of [repr] that whole amounts never reach. *)
Definition no_repr_fraction : pyfloat -> string := fun _ => "".

Import Ttl.

(** Microseconds from the epoch to 2026-01-01, 2025-12-31, 2020-01-01 and
    2099-12-31, each at 00:00:00. *)
Definition micros_2026_01_01 : Z := 1767225600000000.
Definition micros_2025_12_31 : Z := 1767139200000000.
Definition micros_2020_01_01 : Z := 1577836800000000.
Definition micros_2099_12_31 : Z := 4102358400000000.

(** What the two parsers of the Python runtime return on the strings of the
    examples; on every other string they stand for a [ValueError]. *)
Definition strptime_examples (s fmt : string) : option Z :=
  if (String.eqb s "31/12/2099" && String.eqb fmt "%d/%m/%Y")%bool
  then Some micros_2099_12_31
  else if (String.eqb s "31/12/2025" && String.eqb fmt "%d/%m/%Y")%bool
  then Some micros_2025_12_31
  else if (String.eqb s "2020-01-01" && String.eqb fmt "%Y-%m-%d")%bool
  then Some micros_2020_01_01
  else None.

Definition fromisoformat_examples (s : string) : option datetime :=
  if String.eqb s "2099-12-31T00:00:00+00:00" then Some (Aware micros_2099_12_31 0)
  else if String.eqb s "2099-12-31T00:00:00" then Some (Naive micros_2099_12_31)
  else None.

Import Scaler.

(** The scaler of the constructor defaults, with no node running. *)
Definition idle_scaler : SeleniumScaler := mkScaler 0 3 2 0.

(** A control plane whose scale command succeeds. *)
Definition compose_ok : Z -> ComposeResult := fun _ => Exited 0.

(** A hub that answers every probe at once and never lists a node. *)
Definition hub_without_nodes : nat -> HubProbe * N :=
  fun _ => (HubResponse 200 [], 0%N).

Import Store App Retry.

(** Stand-ins for the runtime: a clock that advances by one second per tick,
    a printer of the clock value, a tagging function in place of SHA-256 and
    a counter in place of random identifiers. *)
Definition clock_2026 : nat -> Z := fun n => micros_2026_01_01 + Z.of_nat n * 1000000.
Definition isoformat_plain : Z -> string := fun z => pretty z.
Definition sha256_tag : string -> string := fun s => "sha256:" +:+ s.
Definition uuid4_counter : nat -> string :=
  fun n => "00000000-0000-4000-8000-" +:+ pretty (100000000000 + Z.of_nat n).
Definition every_task_created : string -> dict pyval -> string -> bool :=
  fun _ _ _ => true.

Definition empty_world : World := mkWorld [] 0 0 [].

Definition credentials_with_password : ARCACredentials :=
  mkCredentials "20429994323" (Some "p").

(** One request that carries the same entry twice. *)
Definition request_twice : CCMAWorkflowRequest :=
  mkCCMARequest credentials_with_password [ccma_entry_plain; ccma_entry_plain].

(** A request seen before: the store maps its workflow fingerprint. *)
Definition request_once : CCMAWorkflowRequest :=
  mkCCMARequest credentials_with_password [ccma_entry_plain].

Definition known_run_id : string := "7d9f2c1a-5b3e-4f60-9a8b-1c2d3e4f5a6b".

Definition world_with_known_request : World :=
  mkWorld
    [(known_run_id,
      [("status", PStr "running");
       ("transaction_hash", PStr (generate_ccma_workflow_hash sha256_tag request_once));
       ("exchange_id", PStr known_run_id);
       ("created_at", PStr "2026-01-01T00:00:00");
       ("request_data", PDict []);
       ("ttl_seconds", PInt 3600)])]
    0 0 [].




(** A FAILED record with a retryable error and no retry so far. *)
Definition failed_record : dict pyval :=
  [("status", PStr "failed");
   ("transaction_hash", PStr "f00d");
   ("exchange_id", PStr known_run_id);
   ("created_at", PStr "2026-01-01T00:00:00");
   ("request_data",
    PDict [("credentials", PDict [("cuit", PStr "20429994323");
                                  ("password", PStr "p")]);
           ("data", PDict [("period_from", PStr "01/2023");
                           ("period_to", PStr "12/2025");
                           ("calculation_date", PStr "15/09/2025");
                           ("form_payment", PStr "qr")])]);
   ("ttl_seconds", PInt 3600);
   ("retry_count", PInt 0);
   ("results",
    PDict [("errors",
            PDict [("arca_login", PExc ConnectionRefusedError "connection refused")])])].

Definition world_with_failed_run : World :=
  mkWorld [(known_run_id, failed_record)] 0 0 [].

(** A step that waits for a step that the workflow does not have. *)
Definition dangling_workflow : Workflow unit :=
  mkWorkflow "dangling" [sample_step "A" handler_ok ["ghost"] true] PENDING [].




(** The record that the intake stores for [ccma_entry_plain], under the
    fingerprint of the entry, after its run has failed. *)
Definition intake_record : dict pyval :=
  [("status", PStr "failed");
   ("transaction_hash", PStr (generate_ccma_entry_hash sha256_tag ccma_entry_plain));
   ("exchange_id", PStr (generate_ccma_entry_hash sha256_tag ccma_entry_plain));
   ("created_at", PStr "2026-01-01T00:00:00");
   ("request_data",
    PDict [("entry", PDict (entry_dict ccma_entry_plain));
           ("workflow_exchange_id", PStr known_run_id)]);
   ("ttl_seconds", PInt 3600)].

Definition world_with_known_entry : World :=
  mkWorld [(generate_ccma_entry_hash sha256_tag ccma_entry_plain, intake_record)] 0 0 [].

(** Two requests with the same two entries in opposite orders. *)
Definition request_two : CCMAWorkflowRequest :=
  mkCCMARequest credentials_with_password [ccma_entry_plain; ccma_entry_full].

Definition request_two_swapped : CCMAWorkflowRequest :=
  mkCCMARequest credentials_with_password [ccma_entry_full; ccma_entry_plain].

Import Idle.

(** A monitor with the defaults of its constructor over a fleet of one
    node, last active at time 0, and a clock that reads 700 seconds. *)
Definition idle_monitor : SeleniumMonitor := mkMonitor (mkScaler 0 3 2 1) 600 60 0.

Definition clock_700s : nat -> Z := fun k => 700000000 + Z.of_nat k.

End Samples.

(** * Properties *)

(** ** Dictionaries *)

Module PyFacts.
Import Py.

Lemma dict_get_set_same {V : Type} (k : string) (v : V) (d : dict V) :
  dict_get k (dict_set k v d) = Some v.
Proof.
  induction d as [|[k' v'] d IH]; simpl.
  - now rewrite String.eqb_refl.
  - destruct (String.eqb k' k) eqn:E; simpl.
    + now rewrite String.eqb_refl.
    + now rewrite E.
Qed.

Lemma dict_get_set_other {V : Type} (k k0 : string) (v : V) (d : dict V) :
  k <> k0 -> dict_get k0 (dict_set k v d) = dict_get k0 d.
Proof.
  intros Hne. induction d as [|[k' v'] d IH]; simpl.
  - destruct (String.eqb_spec k k0); [contradiction|reflexivity].
  - destruct (String.eqb_spec k' k) as [->|Hk]; simpl.
    + destruct (String.eqb_spec k k0); [contradiction|reflexivity].
    + destruct (String.eqb_spec k' k0); [reflexivity|exact IH].
Qed.

Lemma dict_get_set {V : Type} (k k0 : string) (v : V) (d : dict V) :
  dict_get k0 (dict_set k v d) = if String.eqb k k0 then Some v else dict_get k0 d.
Proof.
  destruct (String.eqb_spec k k0) as [->|Hne].
  - apply dict_get_set_same.
  - now apply dict_get_set_other.
Qed.

End PyFacts.

(** ** The step engine *)

Module EngineFacts.
Import Py PyFacts Engine.

Lemma StepStatus_eqb_eq (a b : StepStatus.t) : StepStatus.eqb a b = true <-> a = b.
Proof. destruct a, b; simpl; split; intros H; try reflexivity; discriminate H. Qed.

Section WithEnv.
Context {Env : Type}.
Implicit Types (steps : list (WorkflowStep Env)) (executed : gset string).

(** *** The topological sort *)

(** A pass only adds names, and it reports progress only when it added one. *)
Lemma order_pass_grows steps : forall executed ord pm executed' ord' pm',
  order_pass steps executed ord pm = (executed', ord', pm') ->
  executed ⊆ executed' /\
  (pm' = true -> pm = true \/ (size executed < size executed')%nat).
Proof.
  induction steps as [|s rest IH]; simpl; intros ex ord pm ex' ord' pm' H.
  - inversion H; subst. split; [set_solver|tauto].
  - case_bool_decide as Hin.
    + eauto.
    + destruct (deps_satisfied ex s).
      * destruct (IH _ _ _ _ _ _ H) as [Hsub Hpm].
        split; [etrans; [apply union_subseteq_r|exact Hsub]|].
        intros _. right.
        assert (size ({[step_name s]} ∪ ex) = S (size ex)) as Hsz.
        { rewrite size_union by (apply disjoint_singleton_l; exact Hin).
          now rewrite size_singleton. }
        apply subseteq_size in Hsub. lia.
      * eauto.
Qed.

(** The [while] loop finishes: every iteration that does not raise adds a
    name to [executed], and the loop stops once [executed] has as many
    names as there are steps. *)
Lemma order_loop_total (fuel : nat) : forall steps executed ord,
  (length steps - size executed < fuel)%nat ->
  is_Some (order_loop fuel steps executed ord).
Proof.
  induction fuel as [|fuel IH]; intros steps ex ord Hf; [lia|].
  simpl. destruct (Nat.ltb_spec (size ex) (length steps)) as [Hlt|Hge].
  - destruct (order_pass steps ex ord false) as [[ex' ord'] pm'] eqn:Hp.
    destruct pm'; [|eauto].
    apply order_pass_grows in Hp as [_ Hpm].
    destruct (Hpm eq_refl) as [Habs|Hsz]; [discriminate|].
    apply IH. lia.
  - eauto.
Qed.

Lemma get_step_execution_order_total steps :
  is_Some (get_step_execution_order steps).
Proof. apply order_loop_total. lia. Qed.

Lemma order_loop_msg (fuel : nat) : forall steps executed ord msg,
  order_loop fuel steps executed ord = Some (RaisedValueError msg) ->
  msg = circular_dependency_msg.
Proof.
  induction fuel as [|fuel IH]; intros steps ex ord msg H; [discriminate|].
  simpl in H. destruct (size ex <? length steps)%nat; [|discriminate].
  destruct (order_pass steps ex ord false) as [[ex' ord'] [|]].
  - eauto.
  - now inversion H.
Qed.

(** *** The dictionary of steps *)

Lemma step_names_add_step (step : WorkflowStep Env) steps :
  step_names (add_step step steps) =
    if bool_decide (step_name step ∈ step_names steps) then step_names steps
    else step_names steps ++ [step_name step].
Proof.
  induction steps as [|s rest IH]; simpl; [reflexivity|].
  destruct (String.eqb_spec (step_name s) (step_name step)) as [E|E].
  - rewrite bool_decide_eq_true_2 by (rewrite E; left). simpl. now rewrite E.
  - simpl. rewrite IH.
    case_bool_decide as H1; case_bool_decide as H2; try reflexivity.
    + exfalso. apply H2. now right.
    + exfalso. apply elem_of_cons in H2 as [H2|H2]; [congruence|contradiction].
Qed.

(** [add_step] keeps the names of the steps distinct: a name that is there
    already is overwritten. *)
Lemma add_step_NoDup (step : WorkflowStep Env) steps :
  NoDup (step_names steps) -> NoDup (step_names (add_step step steps)).
Proof.
  intros Hnd. rewrite step_names_add_step. case_bool_decide as H; [exact Hnd|].
  apply NoDup_app. split; [exact Hnd|]. split.
  - intros x Hx Hx'. apply list_elem_of_singleton in Hx'. subst. contradiction.
  - apply NoDup_singleton.
Qed.

(** *** Cycles *)

Lemma unique_name steps (a b : WorkflowStep Env) :
  NoDup (step_names steps) -> In a steps -> In b steps ->
  step_name a = step_name b -> a = b.
Proof.
  unfold step_names. induction steps as [|s rest IH]; simpl; intros Hnd Ha Hb Hn; [tauto|].
  apply NoDup_cons in Hnd as [Hnotin Hnd].
  destruct Ha as [->|Ha], Hb as [->|Hb]; auto.
  - exfalso. apply Hnotin. rewrite Hn. apply list_elem_of_In, in_map, Hb.
  - exfalso. apply Hnotin. rewrite <- Hn. apply list_elem_of_In, in_map, Ha.
Qed.

Lemma depends_name steps a b : depends steps a b -> In a (step_names steps).
Proof. intros (s & Hs & <- & _). now apply in_map. Qed.

Lemma cycle_name steps a : tc (depends steps) a a -> In a (step_names steps).
Proof. intros H. inversion H; subst; eauto using depends_name. Qed.

(** The first edge of a cycle through [a] leads to a name that is on a cycle
    too. *)
Lemma cycle_successor steps a :
  tc (depends steps) a a -> exists d, depends steps a d /\ tc (depends steps) d d.
Proof.
  intros H. inversion H as [? ? Hd|? d ? Hd Htc]; subst.
  - eauto.
  - exists d. split; [exact Hd|]. eapply tc_r; eauto.
Qed.

Lemma deps_satisfied_In executed (s : WorkflowStep Env) d :
  deps_satisfied executed s = true -> In d (step_depends_on s) -> d ∈ executed.
Proof.
  unfold deps_satisfied. rewrite forallb_forall. intros H Hd.
  specialize (H d Hd). now apply bool_decide_eq_true in H.
Qed.

(** A pass never puts a name that lies on a cycle into [executed]. *)
Lemma order_pass_cycle_free steps (l : list (WorkflowStep Env)) :
  NoDup (step_names steps) -> (forall s, In s l -> In s steps) ->
  forall executed ord pm executed' ord' pm',
  cycle_free steps executed ->
  (forall a, a ∈ executed -> In a (step_names steps)) ->
  order_pass l executed ord pm = (executed', ord', pm') ->
  cycle_free steps executed' /\ (forall a, a ∈ executed' -> In a (step_names steps)).
Proof.
  intros Hnd. induction l as [|s rest IH]; simpl; intros Hl ex ord pm ex' ord' pm' Hcf Hsub H.
  - inversion H; subst. auto.
  - assert (Hrest : forall s0, In s0 rest -> In s0 steps) by auto.
    case_bool_decide as Hin; [eauto|].
    destruct (deps_satisfied ex s) eqn:Hdeps; [|eauto].
    eapply (IH Hrest) in H; [exact H| |].
    + intros a Ha Hcyc. apply elem_of_union in Ha as [Ha|Ha]; [|now apply (Hcf a)].
      apply elem_of_singleton in Ha. subst a.
      apply cycle_successor in Hcyc as (d & (s' & Hs' & Hname & Hd) & Hdcyc).
      assert (s' = s) as -> by (eapply unique_name; eauto).
      apply (Hcf d); [|exact Hdcyc].
      eapply deps_satisfied_In; eauto.
    + intros a Ha. apply elem_of_union in Ha as [Ha|Ha]; [|auto].
      apply elem_of_singleton in Ha. subst a. apply in_map. auto.
Qed.

(** While a cycle exists, [executed] stays strictly smaller than the
    dictionary of steps. *)
Lemma cycle_free_size steps executed :
  NoDup (step_names steps) -> has_cycle steps ->
  cycle_free steps executed ->
  (forall a, a ∈ executed -> In a (step_names steps)) ->
  (size executed < length steps)%nat.
Proof.
  intros Hnd [a Ha] Hcf Hsub.
  assert (a ∉ executed) as Hnot by (intros Hin; now apply (Hcf a)).
  assert ({[a]} ∪ executed ⊆ list_to_set (C := gset string) (step_names steps)) as Hincl.
  { intros x Hx. apply elem_of_list_to_set, list_elem_of_In.
    apply elem_of_union in Hx as [Hx|Hx]; [|auto].
    apply elem_of_singleton in Hx. subst x. eapply cycle_name; eauto. }
  apply subseteq_size in Hincl.
  rewrite size_union in Hincl by set_solver.
  rewrite size_singleton, size_list_to_set in Hincl by exact Hnd.
  unfold step_names in Hincl. rewrite length_map in Hincl. lia.
Qed.

Lemma order_loop_cycle steps (fuel : nat) :
  NoDup (step_names steps) -> has_cycle steps ->
  forall executed ord out,
  cycle_free steps executed ->
  (forall a, a ∈ executed -> In a (step_names steps)) ->
  order_loop fuel steps executed ord = Some out ->
  out = RaisedValueError circular_dependency_msg.
Proof.
  intros Hnd Hcyc. induction fuel as [|fuel IH]; intros ex ord out Hcf Hsub H; [discriminate|].
  simpl in H.
  pose proof (cycle_free_size steps ex Hnd Hcyc Hcf Hsub) as Hlt.
  apply Nat.ltb_lt in Hlt. rewrite Hlt in H.
  destruct (order_pass steps ex ord false) as [[ex' ord'] pm'] eqn:Hp.
  destruct pm'; [|now inversion H].
  eapply order_pass_cycle_free in Hp as [Hcf' Hsub']; eauto.
Qed.

(** With a cycle among its steps the sort raises. *)
Lemma get_step_execution_order_cycle steps :
  NoDup (step_names steps) -> has_cycle steps ->
  get_step_execution_order steps = Some (RaisedValueError circular_dependency_msg).
Proof.
  intros Hnd Hcyc.
  destruct (get_step_execution_order_total steps) as [out Hout].
  rewrite Hout. f_equal.
  eapply order_loop_cycle; eauto.
  - intros a Ha. set_solver.
  - intros a Ha. set_solver.
Qed.

(** *** Execution *)

Lemma update_step_Forall (P : WorkflowStep Env -> Prop) f nm steps :
  (forall s, P s -> P (f s)) -> Forall P steps -> Forall P (update_step nm f steps).
Proof.
  intros Hf. induction 1 as [|s rest Hs Hrest IH]; simpl; [constructor|].
  destruct (String.eqb (step_name s) nm); constructor; auto.
Qed.

Lemma error_ok_status st (s : WorkflowStep Env) :
  error_ok s -> error_ok (set_step_status st s).
Proof. intros H e He. apply (H e He). Qed.

Lemma error_ok_completed v (s : WorkflowStep Env) :
  error_ok s -> error_ok (set_step_completed v s).
Proof. intros H e He. apply (H e He). Qed.

Lemma error_ok_failed_false exc (s : WorkflowStep Env) :
  error_ok (set_step_failed handler_false_msg exc s).
Proof. intros e He. simpl in He. inversion He; subst. discriminate. Qed.

Lemma error_ok_failed_raise msg tb exc (s : WorkflowStep Env) :
  error_ok (set_step_failed (step_error_msg msg tb) exc s).
Proof. intros e He. simpl in He. inversion He; subst. discriminate. Qed.

Lemma error_ok_reset (s : WorkflowStep Env) : error_ok (reset_step s).
Proof. intros e He. discriminate He. Qed.

Create HintDb engine.
#[local] Hint Resolve error_ok_status error_ok_completed error_ok_failed_false
  error_ok_failed_raise update_step_Forall : engine.

Lemma attempt_loop_ok attempts wt nm (h : Handler Env) rc : forall st,
  run_ok st -> run_ok (attempt_loop attempts wt nm h rc st).
Proof.
  induction attempts as [|a rest IH]; simpl; intros st Hst; [exact Hst|].
  destruct (h (run_env st) (wf_shared_resources (run_wf st))) as [[out env'] shared'].
  destruct out as [v|msg tb].
  - destruct (truthy v).
    + unfold run_ok; simpl. auto with engine.
    + destruct (Z.of_nat a <? rc - 1); apply IH; unfold run_ok; simpl; auto with engine.
  - destruct (Z.of_nat a <? rc - 1); apply IH; unfold run_ok; simpl; auto with engine.
Qed.

Lemma _execute_step_ok nm (st : @RunState Env) :
  run_ok st -> run_ok (_execute_step nm st).
Proof.
  intros Hst. unfold _execute_step.
  destruct (find_step nm (wf_steps (run_wf st))); [|exact Hst].
  apply attempt_loop_ok. unfold run_ok; simpl. auto with engine.
Qed.

Lemma run_steps_ok order : forall st : @RunState Env,
  run_ok st -> run_ok (run_steps order st).
Proof.
  induction order as [|nm rest IH]; simpl; intros st Hst; [exact Hst|].
  destruct (find_step nm (wf_steps (run_wf st))); [|auto].
  destruct (_should_skip_step (run_wf st) nm).
  - apply IH. unfold run_ok; simpl. auto with engine.
  - pose proof (_execute_step_ok nm st Hst) as Hst'.
    destruct (find_step nm (wf_steps (run_wf (_execute_step nm st)))) as [s'|]; [|auto].
    destruct (StepStatus.eqb (step_status s') StepStatus.FAILED && step_required s'); auto.
Qed.

Lemma collect_errors_get steps : forall acc k e,
  dict_get k (collect_errors steps acc) = Some e ->
  dict_get k acc = Some e \/ exists s, In s steps /\ step_error s = Some e.
Proof.
  unfold collect_errors.
  induction steps as [|s rest IH]; simpl; intros acc k e H; [auto|].
  apply IH in H as [H|(s' & Hs' & He)]; [|eauto].
  destruct (step_error s) as [e0|] eqn:E; [|auto].
  rewrite dict_get_set in H. destruct (String.eqb (step_name s) k); [|auto].
  inversion H; subst. eauto.
Qed.

Lemma failed_required_steps_pos steps :
  (0 <? failed_required_steps steps)%nat = true <->
  exists s, In s steps /\ step_required s = true /\ step_status s = StepStatus.FAILED.
Proof.
  unfold failed_required_steps. rewrite Nat.ltb_lt. split.
  - intros H. destruct (filter _ steps) as [|s l] eqn:E; [simpl in H; lia|].
    assert (s ∈ filter (fun s => failed_required s = true) steps) as Hin
      by (rewrite E; left).
    apply list_elem_of_filter in Hin as [Hf Hin].
    unfold failed_required in Hf. apply andb_true_iff in Hf as [Hs Hr].
    apply StepStatus_eqb_eq in Hs. exists s. split; [now apply list_elem_of_In|auto].
  - intros (s & Hin & Hr & Hs).
    assert (s ∈ filter (fun s => failed_required s = true) steps) as Hf.
    { apply list_elem_of_filter. split; [|now apply list_elem_of_In].
      unfold failed_required. rewrite Hs, Hr. reflexivity. }
    destruct (filter _ steps); [inversion Hf|simpl; lia].
Qed.

Lemma step_names_reset steps : step_names (map reset_step steps) = step_names steps.
Proof. unfold step_names. rewrite map_map. reflexivity. Qed.

Lemma depends_reset steps a b :
  depends steps a b -> depends (map reset_step steps) a b.
Proof.
  intros (s & Hs & Hn & Hd). exists (reset_step s). split; [now apply in_map|auto].
Qed.

Lemma has_cycle_reset steps : has_cycle steps -> has_cycle (map reset_step steps).
Proof.
  intros [a Ha]. exists a. eapply tc_congruence with (f := fun x => x); [|exact Ha].
  intros x y. apply depends_reset.
Qed.

Lemma business_events_quiet wt outcome :
  forallb (fun e => negb (step_activity e)) (business_events wt outcome) = true.
Proof.
  unfold business_events.
  destruct (String.eqb wt "ccma"); [reflexivity|].
  destruct (String.eqb wt "ddjj"); reflexivity.
Qed.

(** The loop over the steps only touches the counters of the result. *)
Lemma attempt_loop_errors attempts wt nm (h : Handler Env) rc : forall st,
  res_errors (run_result (attempt_loop attempts wt nm h rc st)) = res_errors (run_result st).
Proof.
  induction attempts as [|a rest IH]; simpl; intros st; [reflexivity|].
  destruct (h (run_env st) (wf_shared_resources (run_wf st))) as [[out env'] shared'].
  destruct out as [v|msg tb].
  - destruct (truthy v); [reflexivity|].
    destruct (Z.of_nat a <? rc - 1); rewrite IH; reflexivity.
  - destruct (Z.of_nat a <? rc - 1); rewrite IH; reflexivity.
Qed.

Lemma run_steps_errors order : forall st : @RunState Env,
  res_errors (run_result (run_steps order st)) = res_errors (run_result st).
Proof.
  induction order as [|nm rest IH]; simpl; intros st; [reflexivity|].
  destruct (find_step nm (wf_steps (run_wf st))) as [s|] eqn:Hf; [|apply IH].
  destruct (_should_skip_step (run_wf st) nm); [now rewrite IH|].
  assert (res_errors (run_result (_execute_step nm st)) = res_errors (run_result st)) as He.
  { unfold _execute_step. rewrite Hf. now rewrite attempt_loop_errors. }
  destruct (find_step nm (wf_steps (run_wf (_execute_step nm st)))) as [s'|];
    [|now rewrite IH].
  destruct (StepStatus.eqb (step_status s') StepStatus.FAILED && step_required s');
    [exact He|now rewrite IH].
Qed.

(** C1. Every execution of a registered workflow returns a result, and its
    status is FAILED exactly when a required step ended in FAILED or the
    orchestrator recorded its own error in the errors map; in every other
    case the status is COMPLETED. *)
Theorem final_status_failed_iff (o : Orchestrator) (workflow_id : string)
    (w0 : Workflow Env) (exchange_id : option string) (env : Env) :
  dict_get workflow_id (workflows o) = Some w0 ->
  exists r o' env' tr w',
    execute_workflow o workflow_id exchange_id env = Some (Finished r o' env' tr) /\
    dict_get workflow_id (workflows o') = Some w' /\
    (res_status r = FAILED <->
       (exists s, In s (wf_steps w') /\ step_required s = true /\
                  step_status s = StepStatus.FAILED)
       \/ orchestrator_error_recorded r) /\
    (res_status r <> FAILED -> res_status r = COMPLETED).
Proof.
  intros Hw. unfold execute_workflow. rewrite Hw.
  destruct (get_step_execution_order_total
              (wf_steps (with_shared (with_wf_status (reset w0) RUNNING)
                                     [("exchange_id", PStr
                                        match exchange_id with
                                        | Some e => if str_truthy e then e else wf_workflow_id w0
                                        | None => wf_workflow_id w0
                                        end)]))) as [out Hout].
  rewrite Hout. destruct out as [order|msg].
  - set (st := run_steps order _).
    do 5 eexists. split; [reflexivity|]. simpl.
    split; [apply dict_get_set_same|]. simpl.
    assert (run_ok st) as Hok.
    { apply run_steps_ok. unfold run_ok; simpl.
      apply List.Forall_forall. intros s Hs. apply in_map_iff in Hs as (s0 & <- & _).
      apply error_ok_reset. }
    assert (~ dict_get "orchestrator"
                (collect_errors (wf_steps (run_wf st)) (res_errors (run_result st)))
              = Some circular_dependency_msg) as Hno.
    { intros Hget. apply collect_errors_get in Hget as [Hget|(s & Hs & He)].
      - unfold st in Hget. rewrite run_steps_errors in Hget. discriminate Hget.
      - unfold run_ok in Hok. rewrite List.Forall_forall in Hok.
        exact (Hok s Hs _ He eq_refl). }
    pose proof (failed_required_steps_pos (wf_steps (run_wf st))) as Hpos.
    destruct (0 <? failed_required_steps (wf_steps (run_wf st)))%nat.
    + split; [|intros Hx; now contradiction Hx].
      split; [intros _; left; now apply Hpos|reflexivity].
    + split; [|reflexivity].
      split; [discriminate|].
      intros [Hex|Horch]; [apply Hpos in Hex; discriminate Hex|].
      contradiction (Hno Horch).
  - apply order_loop_msg in Hout. subst msg.
    do 5 eexists. split; [reflexivity|]. simpl.
    split; [apply dict_get_set_same|].
    split; [|intros Hx; now contradiction Hx].
    split; [intros _; right; reflexivity|reflexivity].
Qed.

(** C6. A workflow whose [depends_on] relation has a cycle fails fast: the
    execution returns a result with status FAILED whose errors map has the
    entry "orchestrator" holding the circular-dependency message; no step is
    set to RUNNING, no handler is called, and every step is left PENDING. *)
Theorem cyclic_dependency_fails_fast (o : Orchestrator) (workflow_id : string)
    (w0 : Workflow Env) (exchange_id : option string) (env : Env) :
  dict_get workflow_id (workflows o) = Some w0 ->
  NoDup (step_names (wf_steps w0)) ->
  has_cycle (wf_steps w0) ->
  exists r o' tr w' msg,
    execute_workflow o workflow_id exchange_id env = Some (Finished r o' env tr) /\
    res_status r = FAILED /\
    res_errors r = [("orchestrator", msg)] /\
    contains "Circular dependency" msg = true /\
    forallb (fun e => negb (step_activity e)) tr = true /\
    dict_get workflow_id (workflows o') = Some w' /\
    Forall (fun s => step_status s = StepStatus.PENDING) (wf_steps w') /\
    res_steps_completed r = 0 /\ res_steps_failed r = 0.
Proof.
  intros Hw Hnd Hcyc. unfold execute_workflow. rewrite Hw. simpl.
  rewrite get_step_execution_order_cycle;
    [|now rewrite step_names_reset|now apply has_cycle_reset].
  do 5 eexists. split; [reflexivity|]. simpl.
  repeat split.
  - rewrite forallb_app, business_events_quiet. reflexivity.
  - apply dict_get_set_same.
  - simpl. apply List.Forall_forall. intros s Hs.
    apply in_map_iff in Hs as (s0 & <- & _). reflexivity.
Qed.

End WithEnv.

(** The non-required step of [mixed_workflow] fails and the run completes. *)
Lemma final_status_failed_iff_witness :
  exists r o' env' tr w',
    execute_workflow Samples.mixed_orchestrator "ccma_mixed" (Some "x1") tt
      = Some (Finished r o' env' tr) /\
    dict_get "ccma_mixed" (workflows o') = Some w' /\
    (res_status r = FAILED <->
       (exists s, In s (wf_steps w') /\ step_required s = true /\
                  step_status s = StepStatus.FAILED)
       \/ orchestrator_error_recorded r) /\
    (res_status r <> FAILED -> res_status r = COMPLETED).
Proof.
  apply (final_status_failed_iff Samples.mixed_orchestrator "ccma_mixed"
           Samples.mixed_workflow (Some "x1") tt).
  reflexivity.
Defined.

Lemma cyclic_workflow_has_cycle : has_cycle (wf_steps Samples.cyclic_workflow).
Proof.
  exists "A". eapply tc_l; [|apply tc_once].
  - exists (Samples.sample_step "A" Samples.handler_ok ["B"] true).
    simpl. auto.
  - exists (Samples.sample_step "B" Samples.handler_ok ["A"] true).
    simpl. auto.
Defined.

(** Steps A -> B and B -> A. *)
Lemma cyclic_dependency_fails_fast_witness :
  exists r o' tr w' msg,
    execute_workflow Samples.cyclic_orchestrator "cyclic" None tt
      = Some (Finished r o' tt tr) /\
    res_status r = FAILED /\
    res_errors r = [("orchestrator", msg)] /\
    contains "Circular dependency" msg = true /\
    forallb (fun e => negb (step_activity e)) tr = true /\
    dict_get "cyclic" (workflows o') = Some w' /\
    Forall (fun s => step_status s = StepStatus.PENDING) (wf_steps w') /\
    res_steps_completed r = 0 /\ res_steps_failed r = 0.
Proof.
  apply (cyclic_dependency_fails_fast Samples.cyclic_orchestrator "cyclic"
           Samples.cyclic_workflow None tt).
  - reflexivity.
  - apply (bool_decide_unpack (NoDup ["A"; "B"])). vm_compute. exact I.
  - exact cyclic_workflow_has_cycle.
Defined.

End EngineFacts.

(** ** Fingerprints *)

Module HashingFacts.
Import Py Hashing.

Lemma append_cons (x : ascii) (a b : string) : String x a +:+ b = String x (a +:+ b).
Proof. reflexivity. Qed.

Lemma append_nil (b : string) : "" +:+ b = b.
Proof. reflexivity. Qed.

Lemma append_assoc (a b c : string) : (a +:+ b) +:+ c = a +:+ (b +:+ c).
Proof.
  induction a as [|x a IH]; [reflexivity|].
  now rewrite !append_cons, IH.
Qed.

Ltac string_normalize :=
  cbn [join present app fmt_opt];
  repeat (rewrite append_assoc || rewrite append_cons || rewrite append_nil).






(** *** The amount of a DDJJ entry *)

Lemma float_integer_value_positive (f : pyfloat) (n : Z) :
  float_integer_value f = Some n -> 0 < n ->
  exists m e, f = SpecFloat.S754_finite false m e.
Proof.
  destruct f as [s|s| |s m e]; simpl; try discriminate.
  - intros H; inversion H; lia.
  - intros H Hn. destruct s; [|eauto]. exfalso.
    destruct (0 <=? e).
    + inversion H. subst n. pose proof (Z.pow_nonneg 2 e). nia.
    + destruct (Z.pos m mod 2 ^ (- e) =? 0); [|discriminate].
      inversion H. subst n.
      destruct (Z.eq_dec (2 ^ (- e)) 0) as [E|E].
      * rewrite E, Z.div_0_r in Hn. lia.
      * pose proof (Z.pow_nonneg 2 (- e)).
        assert (0 <= Z.pos m / 2 ^ (- e)) by (apply Z.div_pos; lia). lia.
Qed.

(** C8, as the code has it. The amount enters the hashed string through the
    default conversion of a float to a string: a whole amount below 10^16
    appears as its digits followed by ".0", with one fraction digit. *)
Theorem ddjj_amount_default_float_str (repr_fraction : pyfloat -> string)
    (entry : DDJJEntry) (n : Z) :
  float_integer_value (ddjj_amount entry) = Some n ->
  0 < n < 10 ^ 16 ->
  ddjj_entry_hash_data repr_fraction entry =
    join "|" [ddjj_cuit entry; ddjj_concept entry; ddjj_sub_concept entry;
              ddjj_fiscal_period entry; pretty n +:+ ".0"; ddjj_tax_code entry;
              ddjj_expiration_date entry; ddjj_form_number entry;
              ddjj_payment_type_code entry].
Proof.
  intros Hv [Hpos Hlt].
  destruct (float_integer_value_positive _ _ Hv Hpos) as (m & e & Hf).
  unfold ddjj_entry_hash_data, float_str. rewrite Hf in *. rewrite Hv.
  rewrite Z.abs_eq by lia.
  apply Z.ltb_lt in Hlt. rewrite Hlt.
  string_normalize. reflexivity.
Qed.

Lemma ddjj_amount_default_float_str_witness :
  ddjj_entry_hash_data Samples.no_repr_fraction Samples.ddjj_entry_105 =
    join "|" ["27120017808"; "19"; "19"; "202412"; pretty 105 +:+ ".0"; "24";
              "2025-12-31"; "1571"; "33"].
Proof.
  apply (ddjj_amount_default_float_str Samples.no_repr_fraction
           Samples.ddjj_entry_105 105).
  - reflexivity.
  - lia.
Defined.

(** The amount 105 appears as "105.0", which is not a two-digit form. *)
Lemma ddjj_amount_not_two_digits :
  ddjj_entry_hash_data Samples.no_repr_fraction Samples.ddjj_entry_105
    = "27120017808|19|19|202412|105.0|24|2025-12-31|1571|33" /\
  nth 4 (split_pipe (ddjj_entry_hash_data Samples.no_repr_fraction
                                          Samples.ddjj_entry_105)) ""
    = "105.0" /\
  two_fraction_digits "105.0" = false /\
  two_fraction_digits "105.00" = true.
Proof. repeat split. Qed.

End HashingFacts.

(** ** Entry TTL *)

Module TtlFacts.
Import Py Ttl.

Section WithRuntime.
Variable strptime : string -> string -> option Z.
Variable fromisoformat : string -> option datetime.
Variable now : Z.

Abbreviation ttl := (calculate_ttl_from_entry_expiration strptime fromisoformat now).
Abbreviation parse := (_parse_date strptime fromisoformat).

(** A string that parses as a naive datetime gets the larger of the seconds
    that remain and 300. *)
Lemma ttl_naive (s : string) (exp_dt : Z) :
  str_truthy s = true -> parse s = Some (Naive exp_dt) ->
  ttl s = Z.max (seconds_until now exp_dt) 300.
Proof.
  intros Hs Hp. unfold calculate_ttl_from_entry_expiration. now rewrite Hs, Hp.
Qed.

(** A date that is not in the future gets exactly 300. *)
Lemma ttl_past (s : string) (exp_dt : Z) :
  str_truthy s = true -> parse s = Some (Naive exp_dt) -> exp_dt <= now ->
  ttl s = 300.
Proof.
  intros Hs Hp Hle. rewrite (ttl_naive s exp_dt Hs Hp). unfold seconds_until.
  assert (Z.quot (exp_dt - now) 1000000 <= 0) by (apply Z.quot_le_upper_bound; lia).
  lia.
Qed.

(** The TTL is never below 300 seconds. *)
Lemma ttl_minimum (s : string) : 300 <= ttl s.
Proof.
  unfold calculate_ttl_from_entry_expiration.
  destruct (str_truthy s); [|lia].
  destruct (parse s) as [[m|m off]|]; lia.
Qed.

(** An empty string and a string that does not parse get the default. *)
Lemma ttl_default (s : string) :
  str_truthy s = false \/ parse s = None -> ttl s = 3600.
Proof.
  unfold calculate_ttl_from_entry_expiration.
  intros [Hs|Hp]; [now rewrite Hs|rewrite Hp]. now destruct (str_truthy s).
Qed.

(** A string that parses as a datetime with a UTC offset gets the default
    too, however far in the future it lies. *)
Lemma ttl_aware (s : string) (m off : Z) :
  parse s = Some (Aware m off) -> ttl s = 3600.
Proof.
  unfold calculate_ttl_from_entry_expiration. intros ->. now destruct (str_truthy s).
Qed.

(** The strings that go through [strptime] never give an aware datetime. *)
Lemma parse_date_only_naive (s : string) (dt : datetime) :
  contains "T" s = false -> contains "+" s = false -> contains "Z" s = false ->
  parse s = Some dt -> exists m, dt = Naive m.
Proof.
  unfold _parse_date. intros -> -> ->. simpl.
  destruct (contains "/" s).
  - destruct (strptime s "%d/%m/%Y"); simpl; intros H; inversion H; eauto.
  - destruct (strptime s "%Y-%m-%d"); simpl; intros H; inversion H; eauto.
Qed.

End WithRuntime.


End TtlFacts.

(** ** Browser-fleet autoscaler *)

Module ScalerFacts.
Import Py Scaler.

Section WithWorld.
Variable compose : Z -> ComposeResult.
Variable hub : nat -> HubProbe * N.

(** Every round of the wait costs two seconds at least, so the wait ends. *)
Lemma wait_loop_total (fuel : nat) : forall k elapsed timeout_ms expected,
  (timeout_ms < elapsed + 2000 * N.of_nat fuel)%N ->
  is_Some (wait_loop hub (S fuel) k elapsed timeout_ms expected).
Proof.
  induction fuel as [|fuel IH]; intros k elapsed timeout_ms expected Hf;
    cbn [wait_loop].
  - destruct (N.ltb_spec elapsed timeout_ms); [lia|eauto].
  - destruct (N.ltb_spec elapsed timeout_ms) as [Hlt|Hge]; [|eauto].
    destruct (hub k) as [probe latency].
    assert (is_Some (wait_loop hub (S fuel) (S k) (elapsed + latency + 2000)
                               timeout_ms expected)) as Hnext by (apply IH; lia).
    destruct probe as [code avail|]; [|exact Hnext].
    destruct (code =? 200); [|exact Hnext].
    destruct (expected <=? ready_nodes avail); [eauto|exact Hnext].
Qed.

Lemma _wait_for_nodes_ready_total (expected : Z) (timeout : N) :
  is_Some (_wait_for_nodes_ready hub expected timeout).
Proof.
  apply wait_loop_total.
  rewrite Nat2N.inj_succ, N2Nat.id.
  pose proof (N.mod_upper_bound (timeout * 1000) 2000 ltac:(lia)).
  pose proof (N.div_mod' (timeout * 1000) 2000). lia.
Qed.

(** When more nodes are needed and the scale command exits with 0,
    [ensure_capacity] returns [True] and records the new node count,
    whatever the hub answers during the readiness wait. *)
Lemma ensure_capacity_ignores_readiness (sc : SeleniumScaler) (sessions_needed : Z) :
  sessions_per_node sc <> 0 ->
  let nodes_needed :=
    Z.min ((sessions_needed + sessions_per_node sc - 1) / sessions_per_node sc)
          (max_nodes sc) in
  current_nodes sc < nodes_needed ->
  compose nodes_needed = Exited 0 ->
  ensure_capacity compose hub sc sessions_needed
    = Some (Returns true, with_current_nodes sc nodes_needed).
Proof.
  intros Hspn nodes_needed Hlt Hc. unfold ensure_capacity.
  apply Z.eqb_neq in Hspn. rewrite Hspn. fold nodes_needed.
  pose proof Hlt as Hlt'. apply Z.ltb_lt in Hlt'. rewrite Hlt'.
  unfold scale_up.
  assert (max_nodes sc >= nodes_needed) by (unfold nodes_needed; lia).
  replace (Z.min (current_nodes sc + (nodes_needed - current_nodes sc)) (max_nodes sc))
    with nodes_needed by lia.
  assert ((nodes_needed <=? current_nodes sc) = false) as -> by (apply Z.leb_gt; lia).
  rewrite Hc. simpl.
  destruct (_wait_for_nodes_ready_total nodes_needed 30) as [b ->]. reflexivity.
Qed.

End WithWorld.

(** C9 at a scaler without nodes that is asked for one session while the
    hub never reports a node: the readiness wait runs into its timeout and
    returns [False], and [ensure_capacity] returns [True]. *)
Theorem ensure_capacity_true_after_timeout :
  _wait_for_nodes_ready Samples.hub_without_nodes 1 30 = Some false /\
  ensure_capacity Samples.compose_ok Samples.hub_without_nodes Samples.idle_scaler 1
    = Some (Returns true, mkScaler 0 3 2 1).
Proof. split; vm_compute; reflexivity. Qed.

End ScalerFacts.

(** ** Application service *)

Module AppFacts.
Import Py PyFacts Hashing Ttl Store App.



Section WithRuntime.
Variable clock : nat -> Z.
Variable isoformat : Z -> string.
Variable sha256_hex : string -> string.
Variable strptime : string -> string -> option Z.
Variable fromisoformat : string -> option datetime.
Variable uuid4 : nat -> string.
Variable password_service : option (string -> option string).
Variable task_created : string -> dict pyval -> string -> bool.

Abbreviation execute :=
  (execute_ccma_workflow clock isoformat sha256_hex strptime fromisoformat uuid4
                         password_service task_created).

(** C4. When the scan of the store finds a run id for the workflow
    fingerprint of the request, the service raises
    [DuplicateTransactionError] with that id; the records, the clock and the
    identifier supply are as before, and the only calls made are the lookup
    and its metric. *)
Theorem duplicate_workflow_is_rejected (request : CCMAWorkflowRequest) (headless : bool)
    (w : World) (existing : string) :
  find_by_hash (generate_ccma_workflow_hash sha256_hex request) (w_transactions w)
    = Some existing ->
  str_truthy existing = true ->
  exists w',
    execute request headless w = (Err (DuplicateTransactionError existing), w') /\
    w_transactions w' = w_transactions w /\
    w_tick w' = w_tick w /\ w_uuids w' = w_uuids w /\
    w_trace w' =
      w_trace w ++ [EvCheckDuplicate (generate_ccma_workflow_hash sha256_hex request);
                    EvTransactionMetric "duplicate_check" "duplicate"] /\
    filter (fun e => is_write e = true) (w_trace w')
      = filter (fun e => is_write e = true) (w_trace w).
Proof.
  intros Hfind Htruthy.
  unfold execute_ccma_workflow, bind at 1, check_duplicate.
  rewrite Hfind. unfold bind at 1. rewrite Htruthy. unfold raise.
  eexists. split; [reflexivity|]. simpl.
  repeat split. rewrite filter_app. simpl. now rewrite app_nil_r.
Qed.

(** *** Two identical entries in one request *)






End WithRuntime.

Lemma duplicate_workflow_is_rejected_witness :
  exists w',
    execute_ccma_workflow Samples.clock_2026 Samples.isoformat_plain Samples.sha256_tag
      Samples.strptime_examples Samples.fromisoformat_examples Samples.uuid4_counter
      None Samples.every_task_created Samples.request_once false
      Samples.world_with_known_request
      = (Err (DuplicateTransactionError Samples.known_run_id), w') /\
    w_transactions w' = w_transactions Samples.world_with_known_request /\
    w_tick w' = w_tick Samples.world_with_known_request /\
    w_uuids w' = w_uuids Samples.world_with_known_request /\
    w_trace w' =
      w_trace Samples.world_with_known_request
      ++ [EvCheckDuplicate (generate_ccma_workflow_hash Samples.sha256_tag
                                                        Samples.request_once);
          EvTransactionMetric "duplicate_check" "duplicate"] /\
    filter (fun e => is_write e = true) (w_trace w')
      = filter (fun e => is_write e = true) (w_trace Samples.world_with_known_request).
Proof.
  apply (duplicate_workflow_is_rejected Samples.clock_2026 Samples.isoformat_plain
           Samples.sha256_tag Samples.strptime_examples Samples.fromisoformat_examples
           Samples.uuid4_counter None Samples.every_task_created Samples.request_once
           false Samples.world_with_known_request Samples.known_run_id).
  - reflexivity.
  - reflexivity.
Defined.


(** The new entries are taken from the front of the request, as many as
    there are new statuses: after an entry that the store already knows,
    that entry is created again and the last new entry is not. *)
Example new_entries_follow_positions :
  let known := Samples.ccma_entry_full in
  let fresh := Samples.ccma_entry_plain in
  let status e s := mkEntryStatus (ccma_period_from e) (ccma_period_to e)
                      (ccma_calculation_date e) (ccma_taxpayer_type e)
                      (ccma_tax_type e) (generate_ccma_entry_hash Samples.sha256_tag e)
                      s None in
  select_new_entries [known; fresh; fresh] [status fresh "new"; status fresh "new"]
    = [known; fresh].
Proof. reflexivity. Qed.

End AppFacts.

(** ** Monitor task *)

Module MonitorFacts.
Import Py PyFacts Store App.

(** No status value is the upper-case text that the monitor compares with. *)
Lemma value_is_lower_case (status : WorkflowStatus) :
  String.eqb (value status) "COMPLETED" = false.
Proof. destruct status; reflexivity. Qed.

Section WithFiles.
Variable clock : nat -> Z.
Variable isoformat : Z -> string.
Variable path_exists : string -> bool.
Variable read_base64 : string -> option string.
Variable guess_type : string -> option string.
Variable path_name : string -> string.
Variable path_error_text : string.

(** Whatever status the embedded result has, the completion step records a
    failed outcome and asks the store for FAILED with the errors of the
    result. *)
Lemma monitor_completion_writes_failed (exchange_id transaction_hash : string)
    (w : World) (kv : string * pyval) (data : dict pyval) (request_data : dict pyval)
    (status : WorkflowStatus) (results errors : dict pyval) :
  dict_get exchange_id (w_transactions w) = Some (kv :: data) ->
  dict_get "request_data" (kv :: data) = Some (PDict request_data) ->
  dict_get "_workflow_result" request_data = Some (PResult status results errors) ->
  exists out w' workflow_type,
    monitor_completion clock isoformat path_exists read_base64 guess_type path_name
                       path_error_text exchange_id transaction_hash w = (out, w') /\
    w_trace w' =
      w_trace w ++ [EvBusinessResult workflow_type "failed";
                    EvUpdateStatus exchange_id (value FAILED)
                                   (Some [("errors", PDict errors)])].
Proof.
  intros Hrec Hrd Hres.
  unfold monitor_completion, bind at 1, get_transaction. rewrite Hrec.
  unfold dict_get_default. rewrite Hrd.
  unfold bind at 1, lift. cbn [py_in].
  unfold bind at 1.
  destruct (dict_mem "cuit" request_data); [|unfold ret at 1]; cbv beta iota;
    unfold bind at 1; unfold dict_mem at 1; rewrite Hres;
    unfold bind at 1; cbn [py_getitem]; rewrite Hres;
    rewrite value_is_lower_case;
    unfold bind at 1, record_business, log;
    unfold bind at 1, update_status, bind at 1, log;
    cbn [w_transactions emit]; rewrite Hrec; cbn [results_truthy];
    match goal with |- context [dict_get_default "results" ?d ?x] =>
      destruct (dict_get_default "results" d x) end;
    do 3 eexists; (split; [reflexivity|]);
    cbn [w_trace emit with_transactions advance]; rewrite <- app_assoc; reflexivity.
Qed.

End WithFiles.


End MonitorFacts.

(** ** Retry sweeper *)

Module RetryFacts.
Import Py PyFacts Store Retry.

Section WithRuntime.
Variable clock : nat -> Z.
Variable isoformat : Z -> string.

(** [update_status] writes the keys "status", "results" and "updated_at" of
    a record and no other: the key "retry_count" that the eligibility check
    reads keeps its value, whatever [results] carries. *)
Lemma update_status_keeps_retry_count (exchange_id status : string)
    (results : option (dict pyval)) (w : World) (data : dict pyval) :
  dict_get exchange_id (w_transactions w) = Some data ->
  exists data',
    dict_get exchange_id
      (w_transactions (snd (update_status clock isoformat exchange_id status results w)))
      = Some data' /\
    dict_get "retry_count" data' = dict_get "retry_count" data.
Proof.
  intros Hrec. unfold update_status, bind, log. cbn [w_transactions emit].
  rewrite Hrec.
  destruct (results_truthy results).
  - destruct (dict_get_default "results" (PDict []) (dict_set "status" (PStr status) data));
      cbn [snd w_transactions with_transactions advance emit];
      rewrite dict_get_set_same; eexists; (split; [reflexivity|]);
      rewrite ?dict_get_set_other by discriminate; reflexivity.
  - cbn [snd w_transactions with_transactions advance emit].
    rewrite dict_get_set_same. eexists. split; [reflexivity|].
    rewrite ?dict_get_set_other by discriminate. reflexivity.
Qed.

Variable task_created : string -> dict pyval -> string -> bool.
Variable is_uuid : string -> bool.

(** A pass of [retry_transaction] over a record, successful or not, leaves
    the record in the store with the top-level "retry_count" it had. *)
Lemma retry_transaction_keeps_retry_count (exchange_id : string) (w : World)
    (data : dict pyval) :
  dict_get exchange_id (w_transactions w) = Some data ->
  exists data',
    dict_get exchange_id
      (w_transactions (snd (retry_transaction clock isoformat task_created is_uuid
                                              exchange_id w)))
      = Some data' /\
    dict_get "retry_count" data' = dict_get "retry_count" data.
Proof.
  intros Hrec.
  unfold retry_transaction, try_except, bind at 1, get_transaction. rewrite Hrec.
  destruct data as [|kv data0]; [exists []; split; [exact Hrec|reflexivity]|].
  unfold bind at 1, lift.
  destruct (as_int _) as [n|e]; [|unfold ret; eexists; split; [exact Hrec|reflexivity]].
  unfold bind at 1.
  destruct (update_status_keeps_retry_count exchange_id (value PENDING)
              (Some [("retry_count", PInt (n + 1))]) w _ Hrec) as (data' & Hrec' & Hkeep).
  destruct (update_status clock isoformat exchange_id (value PENDING)
              (Some [("retry_count", PInt (n + 1))]) w) as [[b|e] w1];
    cbn [snd] in Hrec'; exists data'; (split; [|exact Hkeep]);
    [|exact Hrec'].
  unfold bind at 1.
  destruct (_infer_workflow_type (kv :: data0)) as [[wt|]|e]; try exact Hrec'.
  unfold bind at 1.
  destruct (_extract_workflow_params _ wt) as [params|e]; try exact Hrec'.
  destruct (is_uuid exchange_id); exact Hrec'.
Qed.

End WithRuntime.


End RetryFacts.

(** ** Dictionaries: keys, merging and filtering *)

Module DictFacts.
Import Py PyFacts.

Lemma dict_get_not_in {V : Type} (k : string) (d : dict V) :
  ~ In k (keys d) -> dict_get k d = None.
Proof.
  induction d as [|[k' v'] d IH]; simpl; intros Hnot; [reflexivity|].
  destruct (String.eqb_spec k' k) as [->|Hne]; [tauto|]. apply IH. tauto.
Qed.

Lemma dict_get_in {V : Type} (k : string) (v : V) (d : dict V) :
  dict_get k d = Some v -> In (k, v) d.
Proof.
  induction d as [|[k' v'] d IH]; simpl; [discriminate|].
  destruct (String.eqb_spec k' k) as [->|Hne].
  - intros H. inversion H. now left.
  - intros H. right. now apply IH.
Qed.

Lemma keys_dict_set_present {V : Type} (k : string) (v v0 : V) (d : dict V) :
  dict_get k d = Some v0 -> keys (dict_set k v d) = keys d.
Proof.
  induction d as [|[k' v'] d IH]; simpl; [discriminate|].
  destruct (String.eqb_spec k' k) as [->|Hne]; simpl; [reflexivity|].
  intros H. now rewrite IH.
Qed.

Lemma keys_dict_set {V : Type} (k : string) (v : V) (d : dict V) (x : string) :
  In x (keys (dict_set k v d)) -> x = k \/ In x (keys d).
Proof.
  induction d as [|[k' v'] d IH]; simpl.
  - intros [H|[]]. now left.
  - destruct (String.eqb_spec k' k) as [->|Hne]; simpl.
    + intros [H|H]; auto.
    + intros [H|H]; auto. destruct (IH H); auto.
Qed.

(** [{**a, **b}] looks a key up in [b] first. *)
Lemma dict_get_merge {V : Type} (k : string) (b : dict V) : forall a : dict V,
  NoDup (keys b) ->
  dict_get k (dict_merge a b) =
    match dict_get k b with Some v => Some v | None => dict_get k a end.
Proof.
  unfold dict_merge.
  induction b as [|[k1 v1] b IH]; simpl; intros a Hnd; [reflexivity|].
  apply NoDup_cons in Hnd as [Hnot Hnd].
  rewrite (IH _ Hnd).
  destruct (String.eqb_spec k1 k) as [->|Hne].
  - rewrite dict_get_not_in by (intros Hin; apply Hnot, list_elem_of_In, Hin).
    apply dict_get_set_same.
  - destruct (dict_get k b); [reflexivity|]. now apply dict_get_set_other.
Qed.

Lemma dict_get_filter {V : Type} (P : string * V -> bool) (k : string) (v : V) :
  forall d : dict V,
  dict_get k d = Some v -> P (k, v) = true ->
  dict_get k (filter (fun kv => P kv = true) d) = Some v.
Proof.
  unfold dict. induction d as [|[k' v'] d IH]; [discriminate|].
  cbn [dict_get]. rewrite filter_cons.
  destruct (String.eqb_spec k' k) as [->|Hne]; intros Hget HP.
  - inversion Hget; subst. rewrite decide_True by exact HP.
    cbn [dict_get]. now rewrite String.eqb_refl.
  - destruct (decide (P (k', v') = true)); [|auto].
    cbn [dict_get]. destruct (String.eqb_spec k' k); [contradiction|auto].
Qed.

Lemma dict_get_filter_inv {V : Type} (P : string * V -> bool) (k : string) (v : V) :
  forall d : dict V,
  NoDup (keys d) ->
  dict_get k (filter (fun kv => P kv = true) d) = Some v ->
  dict_get k d = Some v /\ P (k, v) = true.
Proof.
  unfold dict. induction d as [|[k' v'] d IH]; [discriminate|].
  cbn [keys map fst dict_get]. intros Hnd. apply NoDup_cons in Hnd as [Hnot Hnd].
  rewrite filter_cons.
  destruct (decide (P (k', v') = true)) as [E|E].
  - cbn [dict_get].
    destruct (String.eqb_spec k' k) as [->|Hne].
    + intros H. inversion H; subst. auto.
    + auto.
  - intros H. destruct (String.eqb_spec k' k) as [->|Hne]; [|auto].
    exfalso. apply Hnot. apply (IH Hnd) in H as [H _].
    apply dict_get_in in H. apply list_elem_of_In.
    change k with (fst (k, v)). now apply in_map.
Qed.


End DictFacts.

(** ** Transaction store *)

Module StoreFacts.
Import Py PyFacts DictFacts Store.

(** Replacing a record by one with the same fingerprint changes no answer of
    the duplicate scan. *)
Lemma find_by_hash_set_same (h id : string) (data data' : dict pyval) :
  forall t : dict (dict pyval),
  dict_get id t = Some data ->
  dict_get "transaction_hash" data' = dict_get "transaction_hash" data ->
  find_by_hash h (dict_set id data' t) = find_by_hash h t.
Proof.
  induction t as [|[k d] t IH]; simpl; [discriminate|].
  destruct (String.eqb_spec k id) as [->|Hne]; intros Hget Hh.
  - inversion Hget; subst. simpl. now rewrite Hh.
  - simpl. now rewrite (IH Hget Hh).
Qed.


Section WithRuntime.
Variable clock : nat -> Z.
Variable isoformat : Z -> string.


(** X2. [update_status] never adds or removes a record: the storage keys are as
    before, whatever the call returns. It returns [False] exactly when the
    key has no record, and then every record is as it was. *)
Theorem update_status_never_creates (exchange_id status : string)
    (results : option (dict pyval)) (w : World) :
  keys (w_transactions (snd (update_status clock isoformat exchange_id status results w)))
    = keys (w_transactions w) /\
  (fst (update_status clock isoformat exchange_id status results w) = Ok false <->
   dict_get exchange_id (w_transactions w) = None) /\
  (dict_get exchange_id (w_transactions w) = None ->
   w_transactions (snd (update_status clock isoformat exchange_id status results w))
     = w_transactions w).
Proof.
  unfold update_status, bind, log. cbn [w_transactions emit].
  destruct (dict_get exchange_id (w_transactions w)) as [data|] eqn:Hrec.
  - destruct (results_truthy results);
      [destruct (dict_get_default "results" (PDict []) _)|];
      cbn [fst snd w_transactions with_transactions advance emit];
      (split; [eapply keys_dict_set_present; exact Hrec|]);
      (split; [split; discriminate|discriminate]).
  - split; [reflexivity|]. split; [split; reflexivity|reflexivity].
Qed.

(** X3. [update_status] leaves the fingerprint index alone: for every hash the
    duplicate scan finds the same key after the call as before it. *)
Theorem update_status_keeps_fingerprints (exchange_id status : string)
    (results : option (dict pyval)) (w : World) (h : string) :
  find_by_hash h
    (w_transactions (snd (update_status clock isoformat exchange_id status results w)))
    = find_by_hash h (w_transactions w).
Proof.
  unfold update_status, bind, log. cbn [w_transactions emit].
  destruct (dict_get exchange_id (w_transactions w)) as [data|] eqn:Hrec; [|reflexivity].
  destruct (results_truthy results);
    [destruct (dict_get_default "results" (PDict []) _)|];
    cbn [snd w_transactions with_transactions advance emit];
    (eapply find_by_hash_set_same; [exact Hrec|]);
    rewrite ?dict_get_set_other by discriminate; reflexivity.
Qed.

(** X4. A call with results on a record whose stored results are a dictionary
    (or absent) returns [True]; the record then has the new status, and its
    results hold every new key with the new value and every other old key
    with the old value. *)
Theorem update_status_merges_results (exchange_id status : string)
    (results old : dict pyval) (w : World) (data : dict pyval) :
  dict_get exchange_id (w_transactions w) = Some data ->
  dict_get_default "results" (PDict []) data = PDict old ->
  results <> [] ->
  NoDup (keys results) ->
  exists w' data' merged,
    update_status clock isoformat exchange_id status (Some results) w = (Ok true, w') /\
    dict_get exchange_id (w_transactions w') = Some data' /\
    dict_get "status" data' = Some (PStr status) /\
    dict_get "results" data' = Some (PDict merged) /\
    forall k, dict_get k merged =
                match dict_get k results with
                | Some v => Some v
                | None => dict_get k old
                end.
Proof.
  intros Hrec Hold Hne Hnd.
  unfold update_status, bind, log. cbn [w_transactions emit]. rewrite Hrec.
  destruct results as [|kv results]; [contradiction|]. cbn [results_truthy].
  assert (dict_get_default "results" (PDict []) (dict_set "status" (PStr status) data)
          = PDict old) as ->.
  { unfold dict_get_default in *. now rewrite dict_get_set_other by discriminate. }
  do 3 eexists. split; [reflexivity|].
  cbn [w_transactions with_transactions advance emit].
  rewrite dict_get_set_same. split; [reflexivity|].
  split; [|split].
  - rewrite !dict_get_set_other by discriminate. apply dict_get_set_same.
  - rewrite dict_get_set_other by discriminate. apply dict_get_set_same.
  - intros k. now apply dict_get_merge.
Qed.

(** On a store whose keys are distinct, [get_transactions_by_status] returns
    exactly the records whose "status" is the string asked for. *)
Lemma transactions_by_status_exact (status : string) (w : World)
    (exchange_id : string) (data : dict pyval) :
  NoDup (keys (w_transactions w)) ->
  exists found,
    get_transactions_by_status status w = (Ok found, w) /\
    (dict_get exchange_id found = Some data <->
     dict_get exchange_id (w_transactions w) = Some data /\
     dict_get "status" data = Some (PStr status)).
Proof.
  intros Hnd. unfold get_transactions_by_status. eexists. split; [reflexivity|].
  assert (forall d : dict pyval,
            has_status status d = true <-> dict_get "status" d = Some (PStr status)) as Hs.
  { intros d. unfold has_status.
    destruct (dict_get "status" d) as [[| | |s| | | |]|]; split; try discriminate.
    - intros H. apply String.eqb_eq in H. now subst.
    - intros H. inversion H. apply String.eqb_refl. }
  split.
  - intros H.
    apply (dict_get_filter_inv (fun kv => has_status status (snd kv))) in H as [H1 H2];
      [|exact Hnd].
    split; [exact H1|]. now apply Hs.
  - intros [H1 H2].
    apply (dict_get_filter (fun kv => has_status status (snd kv))); [exact H1|].
    now apply Hs.
Qed.

(** X5. After [set_workflow_status] on a stored record, [is_workflow_running]
    answers whether the status written was RUNNING, and the record is among
    those that [get_transactions_by_status] returns for that status. *)
Theorem status_written_is_status_read (exchange_id : string) (st : WorkflowStatus)
    (w : World) (data : dict pyval) :
  dict_get exchange_id (w_transactions w) = Some data ->
  exists w1 found data',
    set_workflow_status clock isoformat exchange_id st w = (Ok tt, w1) /\
    is_workflow_running exchange_id w1
      = (Ok (match st with RUNNING => true | _ => false end), w1) /\
    get_transactions_by_status (value st) w1 = (Ok found, w1) /\
    dict_get exchange_id found = Some data' /\
    dict_get "status" data' = Some (PStr (value st)).
Proof.
  intros Hrec.
  unfold set_workflow_status, bind at 1, update_status, bind at 1, log.
  cbn [w_transactions emit results_truthy]. rewrite Hrec. unfold ret at 1.
  do 3 eexists. split; [reflexivity|].
  assert (forall (t : pyval) (d : dict pyval),
            dict_get "status" (dict_set "updated_at" t
                                 (dict_set "status" (PStr (value st)) d))
            = Some (PStr (value st))) as Hst.
  { intros t d. rewrite dict_get_set_other by discriminate. apply dict_get_set_same. }
  split; [|split; [reflexivity|split]].
  - unfold is_workflow_running, bind, get_transaction.
    cbn [w_transactions with_transactions advance emit].
    rewrite dict_get_set_same.
    match goal with |- context [dict_set "updated_at" ?t ?d] =>
      pose proof (Hst t data) as H; destruct (dict_set "updated_at" t d) as [|kv d'] eqn:E
    end; [discriminate H|].
    unfold dict_get_default. rewrite H. unfold ret.
    destruct st; reflexivity.
  - cbn [w_transactions with_transactions advance emit].
    apply (dict_get_filter (fun kv => has_status (value st) (snd kv))).
    + apply dict_get_set_same.
    + cbn [snd]. unfold has_status. rewrite Hst. apply String.eqb_refl.
  - apply Hst.
Qed.

End WithRuntime.


(** A status update for a key that the store of [world_with_failed_run] does
    not have. *)
Lemma update_status_never_creates_witness :
  fst (update_status Samples.clock_2026 Samples.isoformat_plain "missing" "running" None
                     Samples.world_with_failed_run) = Ok false /\
  w_transactions (snd (update_status Samples.clock_2026 Samples.isoformat_plain "missing"
                                     "running" None Samples.world_with_failed_run))
    = w_transactions Samples.world_with_failed_run.
Proof.
  destruct (update_status_never_creates Samples.clock_2026 Samples.isoformat_plain
              "missing" "running" None Samples.world_with_failed_run) as (_ & Hiff & Hsame).
  split; [apply Hiff; reflexivity|apply Hsame; reflexivity].
Defined.

(** The retry count 1 merged into the results of [failed_record]. *)
Lemma update_status_merges_results_witness :
  exists w' data' merged,
    update_status Samples.clock_2026 Samples.isoformat_plain Samples.known_run_id
                  "pending" (Some [("retry_count", PInt 1)]) Samples.world_with_failed_run
      = (Ok true, w') /\
    dict_get Samples.known_run_id (w_transactions w') = Some data' /\
    dict_get "status" data' = Some (PStr "pending") /\
    dict_get "results" data' = Some (PDict merged) /\
    forall k, dict_get k merged =
                match dict_get k [("retry_count", PInt 1)] with
                | Some v => Some v
                | None =>
                    dict_get k [("errors",
                                 PDict [("arca_login",
                                         PExc ConnectionRefusedError "connection refused")])]
                end.
Proof.
  apply (update_status_merges_results Samples.clock_2026 Samples.isoformat_plain
           Samples.known_run_id "pending" [("retry_count", PInt 1)]
           [("errors", PDict [("arca_login",
                               PExc ConnectionRefusedError "connection refused")])]
           Samples.world_with_failed_run Samples.failed_record).
  - reflexivity.
  - reflexivity.
  - discriminate.
  - apply (bool_decide_unpack (NoDup ["retry_count"])). vm_compute. exact I.
Defined.

Lemma status_written_is_status_read_witness :
  exists w1 found data',
    set_workflow_status Samples.clock_2026 Samples.isoformat_plain Samples.known_run_id
                        RUNNING Samples.world_with_failed_run = (Ok tt, w1) /\
    is_workflow_running Samples.known_run_id w1 = (Ok true, w1) /\
    get_transactions_by_status "running" w1 = (Ok found, w1) /\
    dict_get Samples.known_run_id found = Some data' /\
    dict_get "status" data' = Some (PStr "running").
Proof.
  apply (status_written_is_status_read Samples.clock_2026 Samples.isoformat_plain
           Samples.known_run_id RUNNING Samples.world_with_failed_run
           Samples.failed_record).
  reflexivity.
Defined.

End StoreFacts.

(** ** Retry sweeper: what it finds and what it leaves *)

Module SweepFacts.
Import Py PyFacts Store App Retry.




(** The ids that the scan returns are storage keys of records in status
    "failed" that the eligibility check accepts. *)
Lemma retryable_memory_sound (max_retries : Z) : forall (t : dict (dict pyval)) l,
  _get_retryable_transactions_memory t max_retries = Ok l ->
  forall exchange_id, In exchange_id l ->
  exists data, In (exchange_id, data) t /\
               _is_transaction_retryable data max_retries = Ok true.
Proof.
  induction t as [|[k d] t IH]; simpl; intros l H id Hin.
  - inversion H; subst. contradiction.
  - destruct (_is_transaction_retryable d max_retries) as [b|e] eqn:Hb; [|discriminate].
    destruct (_get_retryable_transactions_memory t max_retries) as [l0|e]; [|discriminate].
    inversion H; subst. destruct b.
    + destruct Hin as [<-|Hin]; [eauto|].
      destruct (IH l0 eq_refl id Hin) as (data & Hd & Hr). eauto.
    + destruct (IH l0 eq_refl id Hin) as (data & Hd & Hr). eauto.
Qed.


Lemma retryable_status_failed (data : dict pyval) (max_retries : Z) :
  _is_transaction_retryable data max_retries = Ok true ->
  dict_get "status" data = Some (PStr "failed").
Proof.
  unfold _is_transaction_retryable, dict_get_default.
  destruct (dict_get "status" data) as [[| | |s| | | |]|]; try discriminate.
  destruct (String.eqb_spec s (value FAILED)) as [->|]; [reflexivity|discriminate].
Qed.

(** Every id that [get_retryable_transactions] returns is the key of a
    stored record in status "failed". *)
Lemma retryable_ids_are_failed_records (max_retries : Z) (w : World) (l : list string)
    (w' : World) (exchange_id : string) :
  get_retryable_transactions max_retries w = (Ok l, w') ->
  In exchange_id l ->
  w' = w /\
  exists data, In (exchange_id, data) (w_transactions w) /\
               dict_get "status" data = Some (PStr "failed").
Proof.
  unfold get_retryable_transactions. intros H Hin.
  destruct (_get_retryable_transactions_memory (w_transactions w) max_retries) as [l0|e]
    eqn:Hm; inversion H; subst; [|contradiction].
  split; [reflexivity|].
  destruct (retryable_memory_sound _ _ _ Hm _ Hin) as (data & Hd & Hr).
  exists data. split; [exact Hd|]. eapply retryable_status_failed; eauto.
Qed.


Section WithRuntime.
Variable clock : nat -> Z.
Variable isoformat : Z -> string.
Variable task_created : string -> dict pyval -> string -> bool.
Variable is_uuid : string -> bool.





End WithRuntime.




End SweepFacts.

(** ** The step engine: the order of execution *)

Module OrderFacts.
Import Py PyFacts Engine EngineFacts.

Section WithEnv.
Context {Env : Type}.
Implicit Types (steps : list (WorkflowStep Env)) (executed : gset string).

Lemma order_inv_names steps executed ord a :
  order_inv steps executed ord -> In a ord -> In a (step_names steps).
Proof.
  intros (_ & _ & Hdeps) Ha. apply in_split in Ha as (l1 & l2 & ->).
  destruct (Hdeps l1 a l2 eq_refl) as (s & Hs & <- & _). now apply in_map.
Qed.

Lemma order_inv_add steps executed ord (s : WorkflowStep Env) :
  order_inv steps executed ord -> In s steps ->
  step_name s ∉ executed -> deps_satisfied executed s = true ->
  order_inv steps ({[step_name s]} ∪ executed) (ord ++ [step_name s]).
Proof.
  intros (Hex & Hnd & Hdeps) Hs Hnot Hsat. subst executed. repeat split.
  - rewrite list_to_set_app_L. simpl. rewrite (right_id_L ∅ (∪)). apply union_comm_L.
  - apply NoDup_app. split; [exact Hnd|]. split; [|apply NoDup_singleton].
    intros x Hx Hx'. apply list_elem_of_singleton in Hx'. subst x.
    apply Hnot. now apply elem_of_list_to_set.
  - intros l1 b l2 Heq.
    destruct l2 as [|z l2 _] using rev_ind.
    + apply app_inj_tail in Heq as [-> <-].
      exists s. split; [exact Hs|]. split; [reflexivity|].
      intros d Hd. apply list_elem_of_In.
      apply (elem_of_list_to_set (C := gset string)).
      eapply deps_satisfied_In; eauto.
    + rewrite app_comm_cons, app_assoc in Heq.
      apply app_inj_tail in Heq as [-> _]. eauto.
Qed.

Lemma order_pass_inv steps (l : list (WorkflowStep Env)) :
  (forall s, In s l -> In s steps) ->
  forall executed ord pm executed' ord' pm',
  order_inv steps executed ord ->
  order_pass l executed ord pm = (executed', ord', pm') ->
  order_inv steps executed' ord'.
Proof.
  induction l as [|s rest IH]; simpl; intros Hl ex ord pm ex' ord' pm' Hinv H.
  - now inversion H; subst.
  - assert (Hrest : forall s0, In s0 rest -> In s0 steps) by auto.
    case_bool_decide as Hin; [eauto|].
    destruct (deps_satisfied ex s) eqn:Hsat; [|eauto].
    eapply (IH Hrest); [|exact H]. apply order_inv_add; auto.
Qed.

Lemma order_loop_inv steps (fuel : nat) : forall executed ord l,
  order_inv steps executed ord ->
  order_loop fuel steps executed ord = Some (Ordered l) ->
  order_inv steps (list_to_set l) l /\ (length steps <= length l)%nat.
Proof.
  induction fuel as [|fuel IH]; intros ex ord l Hinv H; [discriminate|].
  simpl in H. destruct (Nat.ltb_spec (size ex) (length steps)) as [Hlt|Hge].
  - destruct (order_pass steps ex ord false) as [[ex' ord'] pm'] eqn:Hp.
    destruct pm'; [|discriminate].
    eapply IH; [|exact H]. eapply order_pass_inv; eauto.
  - inversion H; subst. destruct Hinv as (Hex & Hnd & Hdeps).
    subst ex. rewrite size_list_to_set in Hge by exact Hnd.
    split; [|exact Hge]. repeat split; assumption.
Qed.

Lemma order_inv_empty steps : order_inv steps ∅ [].
Proof.
  repeat split; [constructor|]. intros l1 b l2 H. destruct l1; discriminate H.
Qed.

(** What every order that the sort returns has, whatever the steps are. *)
Lemma get_step_execution_order_inv steps l :
  get_step_execution_order steps = Some (Ordered l) ->
  order_inv steps (list_to_set l) l /\ length l = length steps.
Proof.
  intros H. apply order_loop_inv in H as [Hinv Hlen]; [|apply order_inv_empty].
  split; [exact Hinv|]. apply Nat.le_antisymm; [|exact Hlen].
  rewrite <- (length_map step_name steps).
  apply NoDup_incl_length; [apply NoDup_ListNoDup, (proj1 (proj2 Hinv))|].
  intros a Ha. eapply order_inv_names; eauto.
Qed.

(** X10. The order that the sort returns lists every step once, and every
    dependency of a step stands before the step. *)
Theorem execution_order_is_topological steps (l : list string) :
  NoDup (step_names steps) ->
  get_step_execution_order steps = Some (Ordered l) ->
  Permutation l (step_names steps) /\
  forall s d, In s steps -> In d (step_depends_on s) -> precedes l d (step_name s).
Proof.
  intros Hnd H. apply get_step_execution_order_inv in H as [Hinv Hlen].
  assert (Permutation l (step_names steps)) as Hperm.
  { apply NoDup_Permutation_bis; [apply NoDup_ListNoDup, (proj1 (proj2 Hinv))| |].
    - unfold step_names. rewrite length_map. lia.
    - intros a Ha. eapply order_inv_names; eauto. }
  split; [exact Hperm|].
  intros s d Hs Hd.
  assert (In (step_name s) l) as Hin.
  { eapply Permutation_in; [symmetry; exact Hperm|]. now apply in_map. }
  apply in_split in Hin as (l1 & l2 & ->).
  destruct Hinv as (_ & _ & Hdeps).
  destruct (Hdeps l1 _ l2 eq_refl) as (s' & Hs' & Hname & Hbefore).
  assert (s' = s) as -> by (eapply unique_name; eauto).
  exists l1, l2. auto.
Qed.

(** *** A dependency that names no step *)

Lemma order_pass_dangling steps (l : list (WorkflowStep Env)) (s0 : WorkflowStep Env)
    (d0 : string) :
  NoDup (step_names steps) -> In s0 steps -> In d0 (step_depends_on s0) ->
  (~ In d0 (step_names steps)) ->
  (forall s, In s l -> In s steps) ->
  forall executed ord pm executed' ord' pm',
  step_name s0 ∉ executed ->
  (forall a, a ∈ executed -> In a (step_names steps)) ->
  order_pass l executed ord pm = (executed', ord', pm') ->
  (step_name s0 ∉ executed') /\ (forall a, a ∈ executed' -> In a (step_names steps)).
Proof.
  intros Hnd Hs0 Hd0 Hghost.
  induction l as [|s rest IH]; simpl; intros Hl ex ord pm ex' ord' pm' Hnot Hsub H.
  - inversion H; subst. auto.
  - assert (Hrest : forall s1, In s1 rest -> In s1 steps) by auto.
    case_bool_decide as Hin; [eauto|].
    destruct (deps_satisfied ex s) eqn:Hsat; [|eauto].
    eapply (IH Hrest) in H; [exact H| |].
    + intros Ha. apply elem_of_union in Ha as [Ha|Ha]; [|contradiction].
      apply elem_of_singleton in Ha.
      assert (s0 = s) as -> by (eapply unique_name; eauto).
      apply Hghost, Hsub. eapply deps_satisfied_In; eauto.
    + intros a Ha. apply elem_of_union in Ha as [Ha|Ha]; [|auto].
      apply elem_of_singleton in Ha. subst a. apply in_map. auto.
Qed.

Lemma missing_name_size steps executed (a : string) :
  NoDup (step_names steps) -> In a (step_names steps) -> a ∉ executed ->
  (forall x, x ∈ executed -> In x (step_names steps)) ->
  (size executed < length steps)%nat.
Proof.
  intros Hnd Ha Hnot Hsub.
  assert ({[a]} ∪ executed ⊆ list_to_set (C := gset string) (step_names steps)) as Hincl.
  { intros x Hx. apply elem_of_list_to_set, list_elem_of_In.
    apply elem_of_union in Hx as [Hx|Hx]; [|auto].
    apply elem_of_singleton in Hx. now subst x. }
  apply subseteq_size in Hincl.
  rewrite size_union in Hincl by (apply disjoint_singleton_l; exact Hnot).
  rewrite size_singleton, size_list_to_set in Hincl by exact Hnd.
  unfold step_names in Hincl. rewrite length_map in Hincl. lia.
Qed.

Lemma order_loop_dangling steps (fuel : nat) (s0 : WorkflowStep Env) (d0 : string) :
  NoDup (step_names steps) -> In s0 steps -> In d0 (step_depends_on s0) ->
  (~ In d0 (step_names steps)) ->
  forall executed ord out,
  step_name s0 ∉ executed ->
  (forall a, a ∈ executed -> In a (step_names steps)) ->
  order_loop fuel steps executed ord = Some out ->
  out = RaisedValueError circular_dependency_msg.
Proof.
  intros Hnd Hs0 Hd0 Hghost.
  induction fuel as [|fuel IH]; intros ex ord out Hnot Hsub H; [discriminate|].
  simpl in H.
  assert (size ex < length steps)%nat as Hlt.
  { eapply missing_name_size; eauto. now apply in_map. }
  apply Nat.ltb_lt in Hlt. rewrite Hlt in H.
  destruct (order_pass steps ex ord false) as [[ex' ord'] pm'] eqn:Hp.
  destruct pm'; [|now inversion H].
  eapply order_pass_dangling in Hp as [Hnot' Hsub']; eauto.
Qed.

(** X12. When a step lists a dependency that is the name of no step, the sort
    raises the error of a circular dependency, cycle or not. *)
Theorem dangling_dependency_raises steps (s : WorkflowStep Env) (d : string) :
  NoDup (step_names steps) -> In s steps -> In d (step_depends_on s) ->
  (~ In d (step_names steps)) ->
  get_step_execution_order steps = Some (RaisedValueError circular_dependency_msg).
Proof.
  intros Hnd Hs Hd Hghost.
  destruct (get_step_execution_order_total steps) as [out Hout].
  rewrite Hout. f_equal.
  eapply order_loop_dangling; eauto.
  - set_solver.
  - intros a Ha. set_solver.
Qed.

(** *** Without a cycle the sort succeeds *)

Lemma order_pass_progress (l : list (WorkflowStep Env)) :
  forall executed ord executed' ord' pm',
  order_pass l executed ord true = (executed', ord', pm') -> pm' = true.
Proof.
  induction l as [|s rest IH]; simpl; intros ex ord ex' ord' pm' H.
  - now inversion H.
  - case_bool_decide; [eauto|]. destruct (deps_satisfied ex s); eauto.
Qed.

(** A pass without progress has met no step that it could add. *)
Lemma order_pass_stuck (l : list (WorkflowStep Env)) :
  forall executed ord pm executed' ord',
  order_pass l executed ord pm = (executed', ord', false) ->
  forall s, In s l -> step_name s ∈ executed \/ deps_satisfied executed s = false.
Proof.
  induction l as [|s rest IH]; simpl; intros ex ord pm ex' ord' H s0 Hs0; [contradiction|].
  case_bool_decide as Hin.
  - destruct Hs0 as [<-|Hs0]; eauto.
  - destruct (deps_satisfied ex s) eqn:Hsat.
    + apply order_pass_progress in H. discriminate H.
    + destruct Hs0 as [<-|Hs0]; eauto.
Qed.

Lemma deps_unsatisfied executed (s : WorkflowStep Env) :
  deps_satisfied executed s = false ->
  exists d, In d (step_depends_on s) /\ d ∉ executed.
Proof.
  unfold deps_satisfied. induction (step_depends_on s) as [|d l IH]; simpl; [discriminate|].
  case_bool_decide as Hd; simpl.
  - intros H. destruct (IH H) as (d' & Hin & Hnot). eauto.
  - intros _. eauto.
Qed.

Lemma dep_path_app_l steps (p q : list string) :
  dep_path steps (p ++ q) -> dep_path steps p.
Proof.
  induction p as [|a p IH]; simpl; [trivial|].
  destruct p as [|b p]; simpl in *; [trivial|].
  intros [Hd Hp]. split; [exact Hd|]. apply IH, Hp.
Qed.

Lemma dep_path_app_r steps (p q : list string) :
  dep_path steps (p ++ q) -> dep_path steps q.
Proof.
  induction p as [|a p IH]; simpl; [trivial|].
  destruct p as [|b p]; simpl in *.
  - destruct q; [trivial|]. now intros [_ Hq].
  - intros [_ Hp]. apply IH, Hp.
Qed.

Lemma dep_path_tc steps (l : list string) : forall x y,
  dep_path steps (x :: l ++ [y]) -> tc (depends steps) x y.
Proof.
  induction l as [|z l IH]; intros x y H.
  - destruct H as [Hd _]. now apply tc_once.
  - destruct H as [Hd Hp]. eapply tc_l; [exact Hd|]. now apply IH.
Qed.

(** In a set of names where every name lists another name of the set there
    are paths of every length. *)
Lemma dep_path_long steps (U : string -> Prop) :
  (forall a, U a -> exists b, depends steps a b /\ U b) ->
  forall (n : nat) a, U a ->
  exists p, length p = n /\ dep_path steps (a :: p) /\ Forall U (a :: p).
Proof.
  intros Hsucc. induction n as [|n IH]; intros a Ha.
  - exists []. repeat split. constructor; [exact Ha|constructor].
  - destruct (Hsucc a Ha) as (b & Hd & Hb).
    destruct (IH b Hb) as (p & Hlen & Hp & Hall).
    exists (b :: p). split; [simpl; now rewrite Hlen|].
    split; [split; assumption|]. constructor; assumption.
Qed.

(** A path that is longer than the list of names passes some name twice. *)
Lemma dep_path_cycle steps (q : list string) :
  dep_path steps q -> Forall (fun a => In a (step_names steps)) q ->
  (length (step_names steps) < length q)%nat ->
  has_cycle steps.
Proof.
  intros Hp Hall Hlen.
  assert (~ List.NoDup q) as Hdup.
  { intros Hnd. apply (NoDup_incl_length (l' := step_names steps)) in Hnd; [lia|].
    intros a Ha. rewrite List.Forall_forall in Hall. auto. }
  apply ListDec.not_NoDup in Hdup as (x & l1 & l2 & l3 & ->).
  - exists x. apply (dep_path_tc steps l2).
    apply dep_path_app_r in Hp.
    change (x :: l2 ++ x :: l3) with ((x :: l2) ++ [x] ++ l3) in Hp.
    rewrite app_assoc in Hp. now apply dep_path_app_l in Hp.
  - intros a b. destruct (string_dec a b); [now left|now right].
Qed.

Lemma missing_name steps executed :
  NoDup (step_names steps) -> (size executed < length steps)%nat ->
  exists a, In a (step_names steps) /\ a ∉ executed.
Proof.
  intros Hnd Hlt.
  destruct (decide (Forall (fun a => a ∈ executed) (step_names steps))) as [Hall|Hnot].
  - exfalso.
    assert (list_to_set (C := gset string) (step_names steps) ⊆ executed) as Hincl.
    { intros x Hx. apply elem_of_list_to_set in Hx.
      rewrite Forall_forall in Hall. auto. }
    apply subseteq_size in Hincl. rewrite size_list_to_set in Hincl by exact Hnd.
    unfold step_names in Hincl. rewrite length_map in Hincl. lia.
  - apply not_Forall_Exists in Hnot; [|apply _].
    apply Exists_exists in Hnot as (a & Ha & Hna).
    exists a. split; [now apply list_elem_of_In|exact Hna].
Qed.

(** When the loop raises, a cycle is there. *)
Lemma order_loop_raises_cycle steps (fuel : nat) :
  NoDup (step_names steps) -> deps_closed steps ->
  forall executed ord msg,
  order_inv steps executed ord ->
  order_loop fuel steps executed ord = Some (RaisedValueError msg) ->
  has_cycle steps.
Proof.
  intros Hnd Hclosed.
  induction fuel as [|fuel IH]; intros ex ord msg Hinv H; [discriminate|].
  simpl in H. destruct (Nat.ltb_spec (size ex) (length steps)) as [Hlt|Hge]; [|discriminate].
  destruct (order_pass steps ex ord false) as [[ex' ord'] pm'] eqn:Hp.
  destruct pm'.
  - eapply IH; [|exact H]. eapply order_pass_inv; eauto.
  - clear H IH.
    pose proof (order_pass_stuck steps _ _ _ _ _ Hp) as Hstuck.
    set (U := fun a => In a (step_names steps) /\ a ∉ ex).
    assert (forall a, U a -> exists b, depends steps a b /\ U b) as Hsucc.
    { intros a [Ha Hna]. apply in_map_iff in Ha as (s & <- & Hs).
      destruct (Hstuck s Hs) as [Hin|Hsat]; [contradiction|].
      apply deps_unsatisfied in Hsat as (d & Hd & Hnd').
      exists d. split; [exists s; auto|]. split; [eapply Hclosed; eauto|exact Hnd']. }
    destruct (missing_name steps ex Hnd Hlt) as (a & Ha & Hna).
    destruct (dep_path_long steps U Hsucc (length (step_names steps)) a (conj Ha Hna))
      as (p & Hlen & Hpath & Hall).
    apply (dep_path_cycle steps (a :: p)); [exact Hpath| |simpl; lia].
    eapply List.Forall_impl; [|exact Hall]. now intros x [Hx _].
Qed.

(** X11. When the names of the steps are distinct, every dependency names a
    step and the [depends_on] relation has no cycle, the sort returns an
    order. *)
Theorem acyclic_workflow_is_ordered steps :
  NoDup (step_names steps) -> deps_closed steps -> (~ has_cycle steps) ->
  exists l, get_step_execution_order steps = Some (Ordered l).
Proof.
  intros Hnd Hclosed Hacyclic.
  destruct (get_step_execution_order_total steps) as [[l|msg] Hout]; [eauto|].
  exfalso. apply Hacyclic.
  eapply order_loop_raises_cycle; eauto. apply order_inv_empty.
Qed.

End WithEnv.

Lemma mixed_workflow_names : NoDup (step_names (wf_steps Samples.mixed_workflow)).
Proof. apply (bool_decide_unpack (NoDup ["optional"; "main"])). vm_compute. exact I. Defined.

(** The step "main" waits for "optional", which waits for nothing. *)
Lemma mixed_workflow_acyclic : ~ has_cycle (wf_steps Samples.mixed_workflow).
Proof.
  intros [a Ha].
  apply cycle_successor in Ha as (d & (s & Hs & Hn & Hd) & Hcyc).
  simpl in Hs. destruct Hs as [<-|[<-|[]]]; simpl in Hd; [contradiction|].
  destruct Hd as [<-|[]].
  apply cycle_successor in Hcyc as (d2 & (s2 & Hs2 & Hn2 & Hd2) & _).
  simpl in Hs2. destruct Hs2 as [<-|[<-|[]]]; simpl in *; [contradiction|discriminate Hn2].
Defined.

Lemma mixed_workflow_closed : deps_closed (wf_steps Samples.mixed_workflow).
Proof.
  intros s d Hs Hd. simpl in Hs. destruct Hs as [<-|[<-|[]]]; simpl in Hd; [contradiction|].
  destruct Hd as [<-|[]]. simpl. auto.
Defined.

Lemma execution_order_is_topological_witness :
  Permutation ["optional"; "main"] (step_names (wf_steps Samples.mixed_workflow)) /\
  forall s d, In s (wf_steps Samples.mixed_workflow) -> In d (step_depends_on s) ->
              precedes ["optional"; "main"] d (step_name s).
Proof.
  apply (execution_order_is_topological (wf_steps Samples.mixed_workflow)
           ["optional"; "main"]).
  - exact mixed_workflow_names.
  - vm_compute. reflexivity.
Defined.

Lemma acyclic_workflow_is_ordered_witness :
  exists l, get_step_execution_order (wf_steps Samples.mixed_workflow) = Some (Ordered l).
Proof.
  apply (acyclic_workflow_is_ordered (wf_steps Samples.mixed_workflow)).
  - exact mixed_workflow_names.
  - exact mixed_workflow_closed.
  - exact mixed_workflow_acyclic.
Defined.

(** Step A waits for "ghost", and no step has that name. *)
Lemma dangling_dependency_raises_witness :
  get_step_execution_order (wf_steps Samples.dangling_workflow)
    = Some (RaisedValueError circular_dependency_msg).
Proof.
  apply (dangling_dependency_raises (wf_steps Samples.dangling_workflow)
           (Samples.sample_step "A" Samples.handler_ok ["ghost"] true) "ghost").
  - apply (bool_decide_unpack (NoDup ["A"])). vm_compute. exact I.
  - left. reflexivity.
  - left. reflexivity.
  - intros [H|[]]. discriminate H.
Defined.

End OrderFacts.

(** ** The step engine: what a run does to the steps *)

Module RunFacts.
Import Py PyFacts Engine EngineFacts OrderFacts.

Section WithEnv.
Context {Env : Type}.
Implicit Types (steps : list (WorkflowStep Env)) (st : @RunState Env).

(** *** One step at a time *)

Lemma update_step_id nm steps : update_step nm (fun s => s) steps = steps.
Proof.
  induction steps as [|s rest IH]; simpl; [reflexivity|].
  destruct (String.eqb (step_name s) nm); [reflexivity|now rewrite IH].
Qed.

Lemma update_step_compose nm (f g : WorkflowStep Env -> WorkflowStep Env) steps :
  (forall s, step_name (g s) = step_name s) ->
  update_step nm f (update_step nm g steps) = update_step nm (fun s => f (g s)) steps.
Proof.
  intros Hg. induction steps as [|s rest IH]; simpl; [reflexivity|].
  destruct (String.eqb (step_name s) nm) eqn:E; simpl.
  - now rewrite Hg, E.
  - now rewrite E, IH.
Qed.

Lemma find_step_update nm other (g : WorkflowStep Env -> WorkflowStep Env) steps :
  (forall s, step_name (g s) = step_name s) ->
  find_step other (update_step nm g steps) =
    if String.eqb nm other then option_map g (find_step other steps)
    else find_step other steps.
Proof.
  intros Hg. induction steps as [|s rest IH]; simpl.
  - now destruct (String.eqb nm other).
  - destruct (String.eqb_spec (step_name s) nm) as [E|E]; simpl.
    + rewrite Hg, E. destruct (String.eqb_spec nm other); reflexivity.
    + rewrite IH. destruct (String.eqb_spec nm other) as [<-|E'].
      * destruct (String.eqb_spec (step_name s) nm); [contradiction|reflexivity].
      * reflexivity.
Qed.

Lemma step_names_update nm (g : WorkflowStep Env -> WorkflowStep Env) steps :
  (forall s, step_name (g s) = step_name s) ->
  step_names (update_step nm g steps) = step_names steps.
Proof.
  intros Hg. induction steps as [|s rest IH]; simpl; [reflexivity|].
  destruct (String.eqb (step_name s) nm); simpl; [now rewrite Hg|now rewrite IH].
Qed.

Lemma step_update_id : @step_update Env (fun s => s).
Proof. intros s. repeat split. now left. Qed.

Lemma step_update_compose (f g : WorkflowStep Env -> WorkflowStep Env) :
  step_update f -> step_update g -> step_update (fun s => f (g s)).
Proof.
  intros Hf Hg s.
  destruct (Hf (g s)) as (F1 & F2 & F3 & F4 & F5).
  destruct (Hg s) as (G1 & G2 & G3 & G4 & G5).
  repeat split; try congruence.
  destruct F5 as [[Fs Fe]|[F5|[F5|F5]]]; auto.
  rewrite Fs, Fe. exact G5.
Qed.

Lemma step_update_running : @step_update Env (set_step_status StepStatus.RUNNING).
Proof. intros s. repeat split. right. now left. Qed.

Lemma step_update_completed v : @step_update Env (set_step_completed v).
Proof. intros s. repeat split. right. right. now left. Qed.

Lemma step_update_failed err exc : @step_update Env (set_step_failed err exc).
Proof. intros s. repeat split. right. right. right. split; [reflexivity|discriminate]. Qed.

Lemma step_update_name (g : WorkflowStep Env -> WorkflowStep Env) :
  step_update g -> forall s, step_name (g s) = step_name s.
Proof. intros Hg s. apply Hg. Qed.

(** The attempts of a step touch the step object stored under its name and
    nothing else of the workflow's steps. *)
Lemma attempt_loop_frame attempts wt nm (h : Handler Env) rc : forall st,
  exists g, step_update g /\
    wf_steps (run_wf (attempt_loop attempts wt nm h rc st))
      = update_step nm g (wf_steps (run_wf st)) /\
    wf_workflow_id (run_wf (attempt_loop attempts wt nm h rc st))
      = wf_workflow_id (run_wf st).
Proof.
  induction attempts as [|a rest IH]; simpl; intros st.
  - exists (fun s => s). split; [apply step_update_id|].
    split; [now rewrite update_step_id|reflexivity].
  - destruct (h (run_env st) (wf_shared_resources (run_wf st))) as [[out env'] shared'].
    assert (forall f st1,
              step_update f ->
              wf_steps (run_wf st1) = update_step nm f (wf_steps (run_wf st)) ->
              wf_workflow_id (run_wf st1) = wf_workflow_id (run_wf st) ->
              exists g, step_update g /\
                wf_steps (run_wf (attempt_loop rest wt nm h rc st1))
                  = update_step nm g (wf_steps (run_wf st)) /\
                wf_workflow_id (run_wf (attempt_loop rest wt nm h rc st1))
                  = wf_workflow_id (run_wf st)) as Hnext.
    { intros f st1 Hf Hsteps Hid. destruct (IH st1) as (g & Hg & Hs & Hi).
      exists (fun s => g (f s)). split; [now apply step_update_compose|].
      rewrite Hs, Hsteps, Hi, Hid.
      split; [apply update_step_compose, step_update_name, Hf|reflexivity]. }
    destruct out as [v|msg tb].
    + destruct (truthy v).
      * exists (set_step_completed v). split; [apply step_update_completed|].
        split; reflexivity.
      * destruct (Z.of_nat a <? rc - 1).
        -- apply (Hnext (fun s => s)); [apply step_update_id| |reflexivity].
           simpl. now rewrite update_step_id.
        -- apply (Hnext (set_step_failed handler_false_msg None));
             [apply step_update_failed|reflexivity|reflexivity].
    + destruct (Z.of_nat a <? rc - 1).
      * apply (Hnext (fun s => s)); [apply step_update_id| |reflexivity].
        simpl. now rewrite update_step_id.
      * apply (Hnext (set_step_failed (step_error_msg msg tb) (Some msg)));
          [apply step_update_failed|reflexivity|reflexivity].
Qed.

Lemma _execute_step_frame nm st :
  exists g, step_update g /\
    wf_steps (run_wf (_execute_step nm st)) = update_step nm g (wf_steps (run_wf st)) /\
    wf_workflow_id (run_wf (_execute_step nm st)) = wf_workflow_id (run_wf st).
Proof.
  unfold _execute_step.
  destruct (find_step nm (wf_steps (run_wf st))) as [step|].
  - match goal with |- context [attempt_loop ?a ?wt nm ?h ?rc ?st0] =>
      destruct (attempt_loop_frame a wt nm h rc st0) as (g & Hg & Hs & Hi) end.
    exists (fun s => g (set_step_status StepStatus.RUNNING s)).
    split; [apply step_update_compose; [exact Hg|apply step_update_running]|].
    rewrite Hs, Hi. simpl.
    split; [apply update_step_compose; reflexivity|reflexivity].
  - exists (fun s => s). split; [apply step_update_id|].
    split; [now rewrite update_step_id|reflexivity].
Qed.

(** Executing a step leaves every step stored under another name as it
    was, and it keeps the name, the dependencies, the required flag and the
    retry count of the step itself. *)
Lemma execute_step_touches_one_step nm other st :
  other <> nm ->
  find_step other (wf_steps (run_wf (_execute_step nm st)))
    = find_step other (wf_steps (run_wf st)) /\
  match find_step nm (wf_steps (run_wf st)) with
  | Some s =>
      exists s', find_step nm (wf_steps (run_wf (_execute_step nm st))) = Some s' /\
                 step_name s' = step_name s /\
                 step_depends_on s' = step_depends_on s /\
                 step_required s' = step_required s /\
                 step_retry_count s' = step_retry_count s
  | None => _execute_step nm st = st
  end.
Proof.
  intros Hne. destruct (_execute_step_frame nm st) as (g & Hg & Hs & _).
  rewrite Hs, !find_step_update by (apply step_update_name, Hg).
  destruct (String.eqb_spec nm other) as [->|_]; [contradiction|].
  split; [reflexivity|]. rewrite String.eqb_refl.
  destruct (find_step nm (wf_steps (run_wf st))) as [s|] eqn:Hf.
  - exists (g s). split; [reflexivity|]. destruct (Hg s) as (H1 & H2 & H3 & H4 & _). auto.
  - unfold _execute_step. now rewrite Hf.
Qed.

(** *** The whole loop *)

(** A property of every step that the engine's updates keep is kept by the
    loop over the steps. *)
Lemma run_steps_Forall (Q : WorkflowStep Env -> Prop) :
  (forall g s, step_update g -> Q s -> Q (g s)) ->
  (forall s, Q s -> Q (set_step_status StepStatus.SKIPPED s)) ->
  forall order st,
  Forall Q (wf_steps (run_wf st)) -> Forall Q (wf_steps (run_wf (run_steps order st))).
Proof.
  intros Hupd Hskip. induction order as [|nm rest IH]; simpl; intros st Hst; [exact Hst|].
  destruct (find_step nm (wf_steps (run_wf st))); [|auto].
  destruct (_should_skip_step (run_wf st) nm).
  - apply IH. simpl. apply update_step_Forall; auto.
  - assert (Forall Q (wf_steps (run_wf (_execute_step nm st)))) as Hst'.
    { destruct (_execute_step_frame nm st) as (g & Hg & -> & _).
      apply update_step_Forall; auto. }
    destruct (find_step nm (wf_steps (run_wf (_execute_step nm st)))) as [s'|]; [|auto].
    destruct (StepStatus.eqb (step_status s') StepStatus.FAILED && step_required s'); auto.
Qed.

Lemma run_steps_names : forall order st,
  step_names (wf_steps (run_wf (run_steps order st))) = step_names (wf_steps (run_wf st)).
Proof.
  induction order as [|nm rest IH]; simpl; intros st; [reflexivity|].
  destruct (find_step nm (wf_steps (run_wf st))); [|auto].
  destruct (_should_skip_step (run_wf st) nm).
  - rewrite IH. simpl. now apply step_names_update.
  - assert (step_names (wf_steps (run_wf (_execute_step nm st)))
            = step_names (wf_steps (run_wf st))) as Hst'.
    { destruct (_execute_step_frame nm st) as (g & Hg & -> & _).
      apply step_names_update, step_update_name, Hg. }
    destruct (find_step nm (wf_steps (run_wf (_execute_step nm st)))) as [s'|];
      [|now rewrite IH].
    destruct (StepStatus.eqb (step_status s') StepStatus.FAILED && step_required s');
      [exact Hst'|now rewrite IH].
Qed.

(** *** Traces *)

Lemma handler_calls_app nm (a b : list Event) :
  handler_calls nm (a ++ b) = (handler_calls nm a + handler_calls nm b)%nat.
Proof. unfold handler_calls. now rewrite filter_app, length_app. Qed.

Lemma handler_calls_call nm step attempt :
  handler_calls nm [EvHandlerCall step attempt] = if String.eqb step nm then 1%nat else 0%nat.
Proof.
  unfold handler_calls. rewrite filter_cons.
  destruct (String.eqb step nm); reflexivity.
Qed.

Lemma no_skip_app (a b : list Event) :
  forallb (fun e => negb (is_skip e)) (a ++ b)
    = forallb (fun e => negb (is_skip e)) a && forallb (fun e => negb (is_skip e)) b.
Proof. apply forallb_app. Qed.

(** What the attempts of a step add to the trace: no skip, and at most one
    handler call per attempt, all of them calls of the step's handler. *)
Lemma attempt_loop_trace attempts wt nm (h : Handler Env) rc : forall st,
  exists new,
    run_trace (attempt_loop attempts wt nm h rc st) = run_trace st ++ new /\
    forallb (fun e => negb (is_skip e)) new = true /\
    forall nm', (handler_calls nm' new
                 <= if String.eqb nm nm' then length attempts else 0)%nat.
Proof.
  induction attempts as [|a rest IH]; simpl; intros st.
  - exists []. rewrite app_nil_r. repeat split.
    intros nm'. change (handler_calls nm' []) with 0%nat. lia.
  - destruct (h (run_env st) (wf_shared_resources (run_wf st))) as [[out env'] shared'].
    assert (forall evs st1,
              run_trace st1 = (run_trace st ++ [EvHandlerCall nm a]) ++ evs ->
              forallb (fun e => negb (is_skip e)) evs = true ->
              (forall nm', handler_calls nm' evs = 0%nat) ->
              exists new,
                run_trace (attempt_loop rest wt nm h rc st1) = run_trace st ++ new /\
                forallb (fun e => negb (is_skip e)) new = true /\
                forall nm', (handler_calls nm' new
                             <= if String.eqb nm nm' then S (length rest) else 0)%nat)
      as Hnext.
    { intros evs st1 Htr Hns Hc. destruct (IH st1) as (new & Hnew & Hns' & Hc').
      exists ([EvHandlerCall nm a] ++ evs ++ new).
      split; [rewrite Hnew, Htr; now rewrite <- !app_assoc|].
      split; [rewrite !no_skip_app, Hns, Hns'; reflexivity|].
      intros nm'. rewrite !handler_calls_app, handler_calls_call, Hc.
      specialize (Hc' nm'). destruct (String.eqb nm nm'); lia. }
    assert (forall evs,
              forallb (fun e => negb (is_skip e)) evs = true ->
              (forall nm', handler_calls nm' evs = 0%nat) ->
              exists new,
                (run_trace st ++ [EvHandlerCall nm a]) ++ evs = run_trace st ++ new /\
                forallb (fun e => negb (is_skip e)) new = true /\
                forall nm', (handler_calls nm' new
                             <= if String.eqb nm nm' then S (length rest) else 0)%nat)
      as Hstop.
    { intros evs Hns Hc. exists ([EvHandlerCall nm a] ++ evs).
      split; [now rewrite <- !app_assoc|].
      split; [rewrite no_skip_app, Hns; reflexivity|].
      intros nm'. rewrite handler_calls_app, handler_calls_call, Hc.
      destruct (String.eqb nm nm'); lia. }
    destruct out as [v|msg tb].
    + destruct (truthy v);
        [apply (Hstop [EvStepStatus nm StepStatus.COMPLETED; EvStepMetric wt nm "success"]);
         reflexivity|].
      destruct (Z.of_nat a <? rc - 1).
      * apply (Hnext [EvStepMetric wt nm "retry"; EvSleep]); reflexivity.
      * apply (Hnext [EvStepStatus nm StepStatus.FAILED; EvStepMetric wt nm "failed"]);
          reflexivity.
    + destruct (Z.of_nat a <? rc - 1).
      * apply (Hnext [EvStepMetric wt nm "retry"; EvSleep]); reflexivity.
      * apply (Hnext [EvStepStatus nm StepStatus.FAILED; EvStepMetric wt nm "failed"]);
          reflexivity.
Qed.

Lemma _execute_step_trace nm st :
  exists new,
    run_trace (_execute_step nm st) = run_trace st ++ new /\
    forallb (fun e => negb (is_skip e)) new = true /\
    forall nm', (handler_calls nm' new
                 <= if String.eqb nm nm' then attempts_allowed (wf_steps (run_wf st)) nm
                    else 0)%nat.
Proof.
  unfold _execute_step, attempts_allowed.
  destruct (find_step nm (wf_steps (run_wf st))) as [step|].
  - match goal with |- context [attempt_loop ?a ?wt nm ?h ?rc ?st0] =>
      destruct (attempt_loop_trace a wt nm h rc st0) as (new & Hnew & Hns & Hc) end.
    exists ([EvStepStatus nm StepStatus.RUNNING] ++ new).
    split; [rewrite Hnew; simpl; now rewrite <- app_assoc|].
    split; [rewrite no_skip_app, Hns; reflexivity|].
    intros nm'. rewrite handler_calls_app. specialize (Hc nm').
    rewrite length_seq in Hc. exact Hc.
  - exists []. rewrite app_nil_r. repeat split.
    intros nm'. change (handler_calls nm' []) with 0%nat. lia.
Qed.

(** *** No step is ever skipped *)

Lemma find_step_In nm steps (s : WorkflowStep Env) :
  find_step nm steps = Some s -> In s steps.
Proof.
  induction steps as [|s0 rest IH]; simpl; [discriminate|].
  destruct (String.eqb (step_name s0) nm).
  - intros H. inversion H. now left.
  - intros H. right. auto.
Qed.

Lemma should_skip_false (w : Workflow Env) nm :
  Forall (fun s => failed_required s = false) (wf_steps w) -> _should_skip_step w nm = false.
Proof.
  intros Hall. unfold _should_skip_step.
  destruct (find_step nm (wf_steps w)) as [step|]; [|reflexivity].
  induction (step_depends_on step) as [|d deps IH]; simpl; [reflexivity|].
  rewrite IH, orb_false_r.
  destruct (find_step d (wf_steps w)) as [ds|] eqn:Hd; [|reflexivity].
  apply find_step_In in Hd. rewrite List.Forall_forall in Hall. exact (Hall ds Hd).
Qed.

Lemma update_step_Forall_found (P : WorkflowStep Env -> Prop) nm
    (g : WorkflowStep Env -> WorkflowStep Env) steps :
  Forall P steps -> (forall s0, find_step nm steps = Some s0 -> P (g s0)) ->
  Forall P (update_step nm g steps).
Proof.
  induction 1 as [|s rest Hs Hrest IH]; simpl; intros Hfound; [constructor|].
  destruct (String.eqb (step_name s) nm); constructor; auto.
Qed.

Lemma step_update_not_skipped (g : WorkflowStep Env -> WorkflowStep Env)
    (s : WorkflowStep Env) :
  step_update g -> step_status s <> StepStatus.SKIPPED ->
  step_status (g s) <> StepStatus.SKIPPED.
Proof.
  intros Hg Hs. destruct (Hg s) as (_ & _ & _ & _ & [[E _]|[E|[E|[E _]]]]);
    rewrite E; [exact Hs|discriminate|discriminate|discriminate].
Qed.

(** While no required step has failed the loop skips nothing, and it stops
    at the first required step that fails. *)
Lemma run_steps_never_skips : forall order st,
  Forall (fun s => failed_required s = false) (wf_steps (run_wf st)) ->
  Forall (fun s => step_status s <> StepStatus.SKIPPED) (wf_steps (run_wf st)) ->
  forallb (fun e => negb (is_skip e)) (run_trace st) = true ->
  Forall (fun s => step_status s <> StepStatus.SKIPPED)
         (wf_steps (run_wf (run_steps order st))) /\
  forallb (fun e => negb (is_skip e)) (run_trace (run_steps order st)) = true.
Proof.
  induction order as [|nm rest IH]; simpl; intros st Hnf Hns Htr; [auto|].
  destruct (find_step nm (wf_steps (run_wf st))) as [s0|] eqn:Hfind; [|auto].
  rewrite should_skip_false by exact Hnf.
  destruct (_execute_step_frame nm st) as (g & Hg & Hsteps & _).
  destruct (_execute_step_trace nm st) as (new & Hnew & Hnsnew & _).
  assert (Forall (fun s => step_status s <> StepStatus.SKIPPED)
                 (wf_steps (run_wf (_execute_step nm st)))) as Hns'.
  { rewrite Hsteps. apply update_step_Forall; [|exact Hns].
    intros s. now apply step_update_not_skipped. }
  assert (forallb (fun e => negb (is_skip e)) (run_trace (_execute_step nm st)) = true)
    as Htr' by (rewrite Hnew, no_skip_app, Htr, Hnsnew; reflexivity).
  assert (find_step nm (wf_steps (run_wf (_execute_step nm st))) = Some (g s0)) as Hf'.
  { rewrite Hsteps, find_step_update by (apply step_update_name, Hg).
    now rewrite String.eqb_refl, Hfind. }
  rewrite Hf'.
  destruct (StepStatus.eqb (step_status (g s0)) StepStatus.FAILED && step_required (g s0))
    eqn:Hfailed; [auto|].
  apply IH; [|exact Hns'|exact Htr'].
  rewrite Hsteps. apply update_step_Forall_found; [exact Hnf|].
  intros s1 Hs1. rewrite Hfind in Hs1. inversion Hs1; subst. exact Hfailed.
Qed.

(** *** Counters *)

Lemma attempt_loop_counters wt nm (h : Handler Env) rc : forall (n a : nat) st,
  (a + n = Z.to_nat rc)%nat ->
  res_total_steps (run_result (attempt_loop (seq a n) wt nm h rc st))
    = res_total_steps (run_result st) /\
  res_results (run_result (attempt_loop (seq a n) wt nm h rc st))
    = res_results (run_result st) /\
  res_steps_completed (run_result st)
    <= res_steps_completed (run_result (attempt_loop (seq a n) wt nm h rc st)) /\
  res_steps_failed (run_result st)
    <= res_steps_failed (run_result (attempt_loop (seq a n) wt nm h rc st)) /\
  res_steps_completed (run_result (attempt_loop (seq a n) wt nm h rc st))
  + res_steps_failed (run_result (attempt_loop (seq a n) wt nm h rc st))
    <= res_steps_completed (run_result st) + res_steps_failed (run_result st) + 1.
Proof.
  induction n as [|n IH]; intros a st Hlen; cbn [seq attempt_loop].
  - repeat split; lia.
  - destruct (h (run_env st) (wf_shared_resources (run_wf st))) as [[out env'] shared'].
    assert (forall st1, run_result st1 = run_result st ->
              res_total_steps (run_result (attempt_loop (seq (S a) n) wt nm h rc st1))
                = res_total_steps (run_result st) /\
              res_results (run_result (attempt_loop (seq (S a) n) wt nm h rc st1))
                = res_results (run_result st) /\
              res_steps_completed (run_result st)
                <= res_steps_completed
                     (run_result (attempt_loop (seq (S a) n) wt nm h rc st1)) /\
              res_steps_failed (run_result st)
                <= res_steps_failed (run_result (attempt_loop (seq (S a) n) wt nm h rc st1)) /\
              res_steps_completed (run_result (attempt_loop (seq (S a) n) wt nm h rc st1))
              + res_steps_failed (run_result (attempt_loop (seq (S a) n) wt nm h rc st1))
                <= res_steps_completed (run_result st) + res_steps_failed (run_result st) + 1)
      as Hretry.
    { intros st1 Hr. rewrite <- Hr. apply IH. lia. }
    assert (forall st1, rc - 1 <= Z.of_nat a ->
              attempt_loop (seq (S a) n) wt nm h rc st1 = st1) as Hlast.
    { intros st1 Hge. assert (n = 0%nat) as -> by lia. reflexivity. }
    destruct out as [v|msg tb].
    + destruct (truthy v); [simpl; repeat split; lia|].
      destruct (Z.ltb_spec (Z.of_nat a) (rc - 1)) as [E|E].
      * apply Hretry; reflexivity.
      * rewrite Hlast by exact E. simpl. repeat split; lia.
    + destruct (Z.ltb_spec (Z.of_nat a) (rc - 1)) as [E|E].
      * apply Hretry; reflexivity.
      * rewrite Hlast by exact E. simpl. repeat split; lia.
Qed.

Lemma _execute_step_counters nm st :
  res_total_steps (run_result (_execute_step nm st)) = res_total_steps (run_result st) /\
  res_results (run_result (_execute_step nm st)) = res_results (run_result st) /\
  res_steps_completed (run_result st) <= res_steps_completed (run_result (_execute_step nm st)) /\
  res_steps_failed (run_result st) <= res_steps_failed (run_result (_execute_step nm st)) /\
  res_steps_completed (run_result (_execute_step nm st))
  + res_steps_failed (run_result (_execute_step nm st))
    <= res_steps_completed (run_result st) + res_steps_failed (run_result st) + 1.
Proof.
  unfold _execute_step.
  destruct (find_step nm (wf_steps (run_wf st))) as [step|]; [|repeat split; lia].
  match goal with |- context [attempt_loop (seq 0 ?n) ?wt nm ?h ?rc ?st0] =>
    pose proof (attempt_loop_counters wt nm h rc n 0%nat st0 eq_refl) as H end.
  exact H.
Qed.

Lemma run_steps_counters : forall order st,
  res_total_steps (run_result (run_steps order st)) = res_total_steps (run_result st) /\
  res_results (run_result (run_steps order st)) = res_results (run_result st) /\
  res_steps_completed (run_result st) <= res_steps_completed (run_result (run_steps order st)) /\
  res_steps_failed (run_result st) <= res_steps_failed (run_result (run_steps order st)) /\
  res_steps_completed (run_result (run_steps order st))
  + res_steps_failed (run_result (run_steps order st))
    <= res_steps_completed (run_result st) + res_steps_failed (run_result st)
       + Z.of_nat (length order).
Proof.
  induction order as [|nm rest IH]; intros st; cbn [run_steps length].
  - repeat split; lia.
  - destruct (find_step nm (wf_steps (run_wf st))).
    + destruct (_should_skip_step (run_wf st) nm).
      * match goal with |- context [run_steps rest ?st1] =>
          destruct (IH st1) as (H1 & H2 & H3 & H4 & H5) end.
        simpl in *. rewrite H1, H2. repeat split; lia.
      * destruct (_execute_step_counters nm st) as (E1 & E2 & E3 & E4 & E5).
        destruct (IH (_execute_step nm st)) as (H1 & H2 & H3 & H4 & H5).
        destruct (find_step nm (wf_steps (run_wf (_execute_step nm st)))) as [s'|].
        -- destruct (StepStatus.eqb (step_status s') StepStatus.FAILED && step_required s').
           ++ rewrite E1, E2. repeat split; lia.
           ++ rewrite H1, H2, E1, E2. repeat split; lia.
        -- rewrite H1, H2, E1, E2. repeat split; lia.
    + destruct (IH st) as (H1 & H2 & H3 & H4 & H5). rewrite H1, H2. repeat split; lia.
Qed.

(** *** Handler calls *)

Lemma attempts_allowed_update nm nm' (g : WorkflowStep Env -> WorkflowStep Env) steps :
  (forall s, step_name (g s) = step_name s) ->
  (forall s, step_retry_count (g s) = step_retry_count s) ->
  attempts_allowed (update_step nm g steps) nm' = attempts_allowed steps nm'.
Proof.
  intros Hn Hr. unfold attempts_allowed. rewrite find_step_update by exact Hn.
  destruct (String.eqb nm nm'); [|reflexivity].
  destruct (find_step nm' steps); simpl; [now rewrite Hr|reflexivity].
Qed.

Lemma run_steps_calls : forall order st nm',
  (handler_calls nm' (run_trace (run_steps order st))
   <= handler_calls nm' (run_trace st)
      + count_occ string_dec order nm' * attempts_allowed (wf_steps (run_wf st)) nm')%nat.
Proof.
  induction order as [|nm rest IH]; intros st nm'; cbn [run_steps count_occ]; [lia|].
  assert (count_occ string_dec rest nm' <= if string_dec nm nm'
                                           then S (count_occ string_dec rest nm')
                                           else count_occ string_dec rest nm')%nat as Hle
    by (destruct (string_dec nm nm'); lia).
  destruct (find_step nm (wf_steps (run_wf st))).
  - destruct (_should_skip_step (run_wf st) nm).
    + match goal with |- context [run_steps rest ?st1] => specialize (IH st1 nm') end.
      cbn [run_trace run_wf wf_steps with_steps] in IH.
      rewrite handler_calls_app in IH.
      change (handler_calls nm' [EvStepStatus nm StepStatus.SKIPPED]) with 0%nat in IH.
      rewrite attempts_allowed_update in IH by reflexivity. nia.
    + destruct (_execute_step_frame nm st) as (g & Hg & Hsteps & _).
      destruct (_execute_step_trace nm st) as (new & Hnew & _ & Hc).
      specialize (Hc nm'). specialize (IH (_execute_step nm st) nm').
      rewrite Hsteps in IH.
      rewrite attempts_allowed_update in IH
        by (intros s; destruct (Hg s) as (H1 & _ & _ & H4 & _); assumption).
      rewrite Hnew, handler_calls_app in IH.
      assert (handler_calls nm' (run_trace (_execute_step nm st))
              <= handler_calls nm' (run_trace st)
                 + (if string_dec nm nm' then S (count_occ string_dec rest nm')
                    else count_occ string_dec rest nm')
                   * attempts_allowed (wf_steps (run_wf st)) nm')%nat as Hstop.
      { rewrite Hnew, handler_calls_app.
        destruct (string_dec nm nm') as [->|Hne].
        - rewrite String.eqb_refl in Hc. nia.
        - apply String.eqb_neq in Hne. rewrite Hne in Hc. nia. }
      assert (handler_calls nm' (run_trace (run_steps rest (_execute_step nm st)))
              <= handler_calls nm' (run_trace st)
                 + (if string_dec nm nm' then S (count_occ string_dec rest nm')
                    else count_occ string_dec rest nm')
                   * attempts_allowed (wf_steps (run_wf st)) nm')%nat as Hgo.
      { destruct (string_dec nm nm') as [->|Hne].
        - rewrite String.eqb_refl in Hc. nia.
        - apply String.eqb_neq in Hne. rewrite Hne in Hc. nia. }
      destruct (find_step nm (wf_steps (run_wf (_execute_step nm st)))) as [s'|];
        [|exact Hgo].
      destruct (StepStatus.eqb (step_status s') StepStatus.FAILED && step_required s');
        [exact Hstop|exact Hgo].
  - specialize (IH st nm'). nia.
Qed.

Lemma business_events_calls nm wt outcome : handler_calls nm (business_events wt outcome) = 0%nat.
Proof.
  unfold business_events.
  destruct (String.eqb wt "ccma"); [reflexivity|].
  destruct (String.eqb wt "ddjj"); reflexivity.
Qed.

Lemma business_events_no_skip wt outcome :
  forallb (fun e => negb (is_skip e)) (business_events wt outcome) = true.
Proof.
  unfold business_events.
  destruct (String.eqb wt "ccma"); [reflexivity|].
  destruct (String.eqb wt "ddjj"); reflexivity.
Qed.

Lemma attempts_allowed_reset steps nm :
  attempts_allowed (map reset_step steps) nm = attempts_allowed steps nm.
Proof.
  unfold attempts_allowed. induction steps as [|s rest IH]; simpl; [reflexivity|].
  destruct (String.eqb (step_name s) nm); [reflexivity|exact IH].
Qed.

(** *** Errors and results *)

Lemma collect_errors_other steps : forall (acc : dict string) k,
  ~ In k (step_names steps) -> dict_get k (collect_errors steps acc) = dict_get k acc.
Proof.
  unfold collect_errors.
  induction steps as [|s rest IH]; simpl; intros acc k Hnot; [reflexivity|].
  rewrite IH by tauto.
  destruct (step_error s); [|reflexivity].
  apply dict_get_set_other. tauto.
Qed.

Lemma collect_errors_complete steps : forall (acc : dict string) (s : WorkflowStep Env) e,
  NoDup (step_names steps) -> In s steps -> step_error s = Some e ->
  dict_get (step_name s) (collect_errors steps acc) = Some e.
Proof.
  induction steps as [|s0 rest IH]; simpl; intros acc s e Hnd Hin He; [contradiction|].
  apply NoDup_cons in Hnd as [Hnot Hnd].
  destruct Hin as [->|Hin].
  - unfold collect_errors. simpl. rewrite He.
    fold (collect_errors rest (dict_set (step_name s) e acc)).
    rewrite collect_errors_other by (intros H; apply Hnot, list_elem_of_In, H).
    apply dict_get_set_same.
  - apply (IH _ s e Hnd Hin He).
Qed.

Lemma collect_shared_get (shared : dict pyval) : forall (acc : dict pyval) k v,
  dict_get k (collect_shared shared acc) = Some v ->
  dict_get k acc = Some v \/ In k allowed_shared_keys /\ In (k, v) shared.
Proof.
  unfold collect_shared.
  induction shared as [|[k0 v0] rest IH]; cbn [fold_left fst snd]; intros acc k v H;
    [auto|].
  apply IH in H as [H|[Hk Hin]]; [|right; split; [exact Hk|now right]].
  destruct (existsb (String.eqb k0) allowed_shared_keys) eqn:Hallowed; [|auto].
  rewrite dict_get_set in H. destruct (String.eqb_spec k0 k) as [->|Hne]; [|auto].
  inversion H; subst. right. split; [|now left].
  apply existsb_exists in Hallowed as (x & Hx & Heq).
  apply String.eqb_eq in Heq. now subst.
Qed.

Lemma step_update_failed_has_error (g : WorkflowStep Env -> WorkflowStep Env)
    (s : WorkflowStep Env) :
  step_update g ->
  (step_status s = StepStatus.FAILED -> step_error s <> None) ->
  step_status (g s) = StepStatus.FAILED -> step_error (g s) <> None.
Proof.
  intros Hg Hs Hf. destruct (Hg s) as (_ & _ & _ & _ & [[E1 E2]|[E|[E|[_ E]]]]).
  - rewrite E2. apply Hs. now rewrite <- E1.
  - rewrite E in Hf. discriminate Hf.
  - rewrite E in Hf. discriminate Hf.
  - exact E.
Qed.

(** *** A whole execution *)

Tactic Notation "open_execute" constr(Hw) ident(order) ident(msg) ident(Hout) :=
  unfold execute_workflow; rewrite Hw; cbv zeta;
  match goal with |- context [get_step_execution_order ?x] =>
    let out := fresh "out" in
    destruct (get_step_execution_order_total x) as [out Hout];
    rewrite Hout; destruct out as [order|msg]
  end.

(** X13. No execution ever skips a step: when it ends no step has the status
    SKIPPED and the trace holds no such status change. The loop stops at
    the first required step that fails, so the test for a failed required
    dependency never succeeds. *)
Theorem no_step_is_skipped (o : Orchestrator) (workflow_id : string)
    (w0 : Workflow Env) (exchange_id : option string) (env : Env) :
  dict_get workflow_id (workflows o) = Some w0 ->
  exists r o' env' tr w',
    execute_workflow o workflow_id exchange_id env = Some (Finished r o' env' tr) /\
    dict_get workflow_id (workflows o') = Some w' /\
    Forall (fun s => step_status s <> StepStatus.SKIPPED) (wf_steps w') /\
    forallb (fun e => negb (is_skip e)) tr = true.
Proof.
  intros Hw. open_execute Hw order msg Hout.
  - match goal with |- context [run_steps order ?st0] =>
      pose proof (run_steps_never_skips order st0) as Hrun;
      set (st := run_steps order st0) in * end.
    destruct Hrun as [Hsteps Htr].
    + simpl. apply List.Forall_forall. intros s Hs.
      apply in_map_iff in Hs as (s0 & <- & _). reflexivity.
    + simpl. apply List.Forall_forall. intros s Hs.
      apply in_map_iff in Hs as (s0 & <- & _). discriminate.
    + reflexivity.
    + do 5 eexists. split; [reflexivity|]. simpl.
      split; [apply dict_get_set_same|]. simpl. split; [exact Hsteps|].
      rewrite !no_skip_app, Htr, business_events_no_skip. reflexivity.
  - do 5 eexists. split; [reflexivity|]. simpl.
    split; [apply dict_get_set_same|]. simpl. split.
    + apply List.Forall_forall. intros s Hs.
      apply in_map_iff in Hs as (s0 & <- & _). discriminate.
    + rewrite no_skip_app, business_events_no_skip. reflexivity.
Qed.

(** X14. The counters of a result: the total is the number of steps, and
    the completed and the failed steps together never exceed it. *)
Theorem step_counters_are_bounded (o : Orchestrator) (workflow_id : string)
    (w0 : Workflow Env) (exchange_id : option string) (env : Env) :
  dict_get workflow_id (workflows o) = Some w0 ->
  exists r o' env' tr,
    execute_workflow o workflow_id exchange_id env = Some (Finished r o' env' tr) /\
    res_total_steps r = Z.of_nat (length (wf_steps w0)) /\
    0 <= res_steps_completed r /\ 0 <= res_steps_failed r /\
    res_steps_completed r + res_steps_failed r <= res_total_steps r.
Proof.
  intros Hw. open_execute Hw order msg Hout.
  - apply get_step_execution_order_inv in Hout as [_ Hlen].
    match goal with |- context [run_steps order ?st0] =>
      pose proof (run_steps_counters order st0) as Hrun;
      set (st := run_steps order st0) in * end.
    destruct Hrun as (H1 & H2 & H3 & H4 & H5).
    do 4 eexists. split; [reflexivity|]. simpl in *.
    rewrite length_map in *. rewrite H1. repeat split; lia.
  - do 4 eexists. split; [reflexivity|]. simpl.
    rewrite length_map. repeat split; lia.
Qed.

(** X15. In one execution the handler of a step is called at most as often
    as the retry count of the step says. *)
Theorem handler_calls_are_bounded (o : Orchestrator) (workflow_id : string)
    (w0 : Workflow Env) (exchange_id : option string) (env : Env) :
  dict_get workflow_id (workflows o) = Some w0 ->
  exists r o' env' tr,
    execute_workflow o workflow_id exchange_id env = Some (Finished r o' env' tr) /\
    forall nm, (handler_calls nm tr <= attempts_allowed (wf_steps w0) nm)%nat.
Proof.
  intros Hw. open_execute Hw order msg Hout.
  - apply get_step_execution_order_inv in Hout as [(_ & Hnd & _) _].
    do 4 eexists. split; [reflexivity|]. intros nm.
    match goal with |- context [run_steps order ?st0] =>
      pose proof (run_steps_calls order st0 nm) as Hc;
      set (st := run_steps order st0) in * end.
    simpl in Hc. rewrite attempts_allowed_reset in Hc.
    rewrite !handler_calls_app, business_events_calls.
    change (handler_calls nm []) with 0%nat in Hc.
    match goal with |- context [handler_calls nm [EvPublish ?a ?b ?c]] =>
      change (handler_calls nm [EvPublish a b c]) with 0%nat end.
    change (handler_calls nm [EvCleanup]) with 0%nat.
    apply NoDup_ListNoDup in Hnd.
    pose proof (proj1 (NoDup_count_occ string_dec order) Hnd nm) as Hocc.
    nia.
  - do 4 eexists. split; [reflexivity|]. intros nm.
    rewrite !handler_calls_app, business_events_calls.
    match goal with |- context [handler_calls nm [EvPublish ?a ?b ?c]] =>
      change (handler_calls nm [EvPublish a b c]) with 0%nat end.
    change (handler_calls nm [EvCleanup]) with 0%nat. lia.
Qed.

(** X16. The results of an execution hold entries of the shared resources
    under the five keys that the orchestrator copies, and no other entry. *)
Theorem results_hold_allowed_keys_only (o : Orchestrator) (workflow_id : string)
    (w0 : Workflow Env) (exchange_id : option string) (env : Env) :
  dict_get workflow_id (workflows o) = Some w0 ->
  exists r o' env' tr w',
    execute_workflow o workflow_id exchange_id env = Some (Finished r o' env' tr) /\
    dict_get workflow_id (workflows o') = Some w' /\
    forall k v, dict_get k (res_results r) = Some v ->
                In k allowed_shared_keys /\ In (k, v) (wf_shared_resources w').
Proof.
  intros Hw. open_execute Hw order msg Hout.
  - match goal with |- context [run_steps order ?st0] =>
      pose proof (run_steps_counters order st0) as (_ & Hres & _);
      set (st := run_steps order st0) in * end.
    do 5 eexists. split; [reflexivity|]. simpl.
    split; [apply dict_get_set_same|]. simpl. rewrite Hres. simpl.
    intros k v Hget. apply collect_shared_get in Hget as [Hget|Hget]; [discriminate|auto].
  - do 5 eexists. split; [reflexivity|]. simpl.
    split; [apply dict_get_set_same|]. intros k v Hget. discriminate Hget.
Qed.

(** X17. Every step that an execution leaves in FAILED has an error text,
    and the errors of the result hold that text under the name of the
    step. *)
Theorem failed_steps_are_explained (o : Orchestrator) (workflow_id : string)
    (w0 : Workflow Env) (exchange_id : option string) (env : Env) :
  dict_get workflow_id (workflows o) = Some w0 ->
  NoDup (step_names (wf_steps w0)) ->
  exists r o' env' tr w',
    execute_workflow o workflow_id exchange_id env = Some (Finished r o' env' tr) /\
    dict_get workflow_id (workflows o') = Some w' /\
    forall s, In s (wf_steps w') -> step_status s = StepStatus.FAILED ->
              exists e, step_error s = Some e /\
                        dict_get (step_name s) (res_errors r) = Some e.
Proof.
  intros Hw Hnd. open_execute Hw order msg Hout.
  - match goal with |- context [run_steps order ?st0] => set (st := run_steps order st0) end.
    assert (Forall (fun s => step_status s = StepStatus.FAILED -> step_error s <> None)
                   (wf_steps (run_wf st))) as Hexp.
    { apply run_steps_Forall.
      - intros g s Hg Hs. now apply step_update_failed_has_error.
      - intros s _ Hs. discriminate Hs.
      - simpl. apply List.Forall_forall. intros s Hs.
        apply in_map_iff in Hs as (s0 & <- & _). discriminate. }
    assert (NoDup (step_names (wf_steps (run_wf st)))) as Hnd'.
    { unfold st. rewrite run_steps_names. simpl. now rewrite step_names_reset. }
    do 5 eexists. split; [reflexivity|]. simpl.
    split; [apply dict_get_set_same|]. simpl.
    intros s Hs Hfailed. rewrite List.Forall_forall in Hexp.
    specialize (Hexp s Hs Hfailed).
    destruct (step_error s) as [e|] eqn:He; [|contradiction].
    exists e. split; [reflexivity|]. now apply collect_errors_complete.
  - do 5 eexists. split; [reflexivity|]. simpl.
    split; [apply dict_get_set_same|]. simpl.
    intros s Hs Hfailed. apply in_map_iff in Hs as (s0 & <- & _). discriminate Hfailed.
Qed.

End WithEnv.

Lemma no_step_is_skipped_witness :
  exists r o' env' tr w',
    execute_workflow Samples.mixed_orchestrator "ccma_mixed" None tt
      = Some (Finished r o' env' tr) /\
    dict_get "ccma_mixed" (workflows o') = Some w' /\
    Forall (fun s => step_status s <> StepStatus.SKIPPED) (wf_steps w') /\
    forallb (fun e => negb (is_skip e)) tr = true.
Proof.
  apply (no_step_is_skipped Samples.mixed_orchestrator "ccma_mixed" Samples.mixed_workflow
           None tt).
  reflexivity.
Defined.

Lemma step_counters_are_bounded_witness :
  exists r o' env' tr,
    execute_workflow Samples.mixed_orchestrator "ccma_mixed" None tt
      = Some (Finished r o' env' tr) /\
    res_total_steps r = Z.of_nat (length (wf_steps Samples.mixed_workflow)) /\
    0 <= res_steps_completed r /\ 0 <= res_steps_failed r /\
    res_steps_completed r + res_steps_failed r <= res_total_steps r.
Proof.
  apply (step_counters_are_bounded Samples.mixed_orchestrator "ccma_mixed"
           Samples.mixed_workflow None tt).
  reflexivity.
Defined.

Lemma handler_calls_are_bounded_witness :
  exists r o' env' tr,
    execute_workflow Samples.mixed_orchestrator "ccma_mixed" None tt
      = Some (Finished r o' env' tr) /\
    forall nm,
      (handler_calls nm tr <= attempts_allowed (wf_steps Samples.mixed_workflow) nm)%nat.
Proof.
  apply (handler_calls_are_bounded Samples.mixed_orchestrator "ccma_mixed"
           Samples.mixed_workflow None tt).
  reflexivity.
Defined.

Lemma results_hold_allowed_keys_only_witness :
  exists r o' env' tr w',
    execute_workflow Samples.mixed_orchestrator "ccma_mixed" None tt
      = Some (Finished r o' env' tr) /\
    dict_get "ccma_mixed" (workflows o') = Some w' /\
    forall k v, dict_get k (res_results r) = Some v ->
                In k allowed_shared_keys /\ In (k, v) (wf_shared_resources w').
Proof.
  apply (results_hold_allowed_keys_only Samples.mixed_orchestrator "ccma_mixed"
           Samples.mixed_workflow None tt).
  reflexivity.
Defined.

(** The step "optional" of [mixed_workflow] ends in FAILED. *)
Lemma failed_steps_are_explained_witness :
  exists r o' env' tr w',
    execute_workflow Samples.mixed_orchestrator "ccma_mixed" None tt
      = Some (Finished r o' env' tr) /\
    dict_get "ccma_mixed" (workflows o') = Some w' /\
    forall s, In s (wf_steps w') -> step_status s = StepStatus.FAILED ->
              exists e, step_error s = Some e /\
                        dict_get (step_name s) (res_errors r) = Some e.
Proof.
  apply (failed_steps_are_explained Samples.mixed_orchestrator "ccma_mixed"
           Samples.mixed_workflow None tt).
  - reflexivity.
  - exact mixed_workflow_names.
Defined.

End RunFacts.

(** ** The step engine: registering steps and passing parameters *)

Module ParamFacts.
Import Py PyFacts Engine EngineFacts Hashing App.

Section WithEnv.
Context {Env : Type}.

(** [add_step] stores the step under its name: a lookup of the name returns
    the step, the steps under other names are as before, and names that
    were distinct stay distinct. *)
Lemma add_step_then_find (step : WorkflowStep Env) (steps : list (WorkflowStep Env)) :
  find_step (step_name step) (add_step step steps) = Some step /\
  (forall other, other <> step_name step ->
     find_step other (add_step step steps) = find_step other steps) /\
  (NoDup (step_names steps) -> NoDup (step_names (add_step step steps))).
Proof.
  split; [|split].
  - induction steps as [|s rest IH]; simpl.
    + now rewrite String.eqb_refl.
    + destruct (String.eqb (step_name s) (step_name step)) eqn:E; simpl.
      * now rewrite String.eqb_refl.
      * now rewrite E.
  - intros other Hne. induction steps as [|s rest IH]; simpl.
    + destruct (String.eqb_spec (step_name step) other); [congruence|reflexivity].
    + destruct (String.eqb_spec (step_name s) (step_name step)) as [E|E]; simpl.
      * destruct (String.eqb_spec (step_name step) other); [congruence|].
        destruct (String.eqb_spec (step_name s) other); [congruence|reflexivity].
      * now rewrite IH.
  - apply add_step_NoDup.
Qed.

End WithEnv.

Lemma copy_keys_get (keys : list string) (params : dict pyval) :
  forall (acc : dict pyval) (k : string),
  dict_get k (copy_keys keys params acc) =
    if existsb (String.eqb k) keys
    then match dict_get k params with Some v => Some v | None => dict_get k acc end
    else dict_get k acc.
Proof.
  unfold copy_keys.
  induction keys as [|key rest IH]; intros acc k; cbn [fold_left existsb]; [reflexivity|].
  rewrite IH. destruct (String.eqb_spec k key) as [->|Hne]; cbn [orb].
  - destruct (dict_get key params) as [v|] eqn:Hp.
    + rewrite dict_get_set_same. now destruct (existsb (String.eqb key) rest).
    + now destruct (existsb (String.eqb key) rest).
  - destruct (dict_get key params) as [v|]; [|reflexivity].
    rewrite dict_get_set_other by congruence. reflexivity.
Qed.

(** X18. The parameters that reach the constructor of a workflow: for the two
    workflow types that the orchestrator knows, the entries of the request
    parameters under the keys of its list, with their values, and nothing
    else; for every other type, the parameters as they are. *)
Theorem filter_keeps_listed_keys (workflow_type : string) (params : dict pyval)
    (k : string) :
  dict_get k (_filter_workflow_params "ccma_workflow" params)
    = (if existsb (String.eqb k) ccma_param_keys then dict_get k params else None) /\
  dict_get k (_filter_workflow_params "ddjj_workflow" params)
    = (if existsb (String.eqb k) (ddjj_param_keys ++ ["vep_data"])
       then dict_get k params else None) /\
  (String.eqb workflow_type "ccma_workflow" = false ->
   String.eqb workflow_type "ddjj_workflow" = false ->
   _filter_workflow_params workflow_type params = params).
Proof.
  split; [|split].
  - unfold _filter_workflow_params. cbn [String.eqb Ascii.eqb Bool.eqb].
    rewrite copy_keys_get. cbn [dict_get].
    destruct (existsb (String.eqb k) ccma_param_keys); [|reflexivity].
    now destruct (dict_get k params).
  - unfold _filter_workflow_params. cbn [String.eqb Ascii.eqb Bool.eqb].
    rewrite !copy_keys_get, existsb_app. cbn [dict_get].
    destruct (existsb (String.eqb k) ddjj_param_keys),
             (existsb (String.eqb k) ["vep_data"]), (dict_get k params); reflexivity.
  - intros H1 H2. unfold _filter_workflow_params. now rewrite H1, H2.
Qed.

(** X19. The parameters that the intake builds for an entry, after the
    orchestrator has filtered them for a CCMA workflow: ten entries; the
    flag that the intake passes as "include_interests" is not among them,
    since the list of the orchestrator names "include_interest". *)
Theorem intake_flag_is_filtered_out (cuit password : string) (headless : bool)
    (entry : CCMAEntry) :
  _filter_workflow_params "ccma_workflow" (workflow_params_of cuit password headless entry)
    = [("cuit", PStr cuit);
       ("password", PStr password);
       ("headless", PBool headless);
       ("form_payment", PStr (ccma_form_payment entry));
       ("tipo_contribuyente", opt_pyval (ccma_taxpayer_type entry));
       ("impuesto", opt_pyval (ccma_tax_type entry));
       ("period_from", PStr (ccma_period_from entry));
       ("period_to", PStr (ccma_period_to entry));
       ("calculation_date", PStr (ccma_calculation_date entry));
       ("expiration_date", PStr (ccma_expiration_date entry))] /\
  dict_get "include_interests" (workflow_params_of cuit password headless entry)
    = Some (PBool (ccma_include_interests entry)) /\
  dict_get "include_interests"
    (_filter_workflow_params "ccma_workflow"
       (workflow_params_of cuit password headless entry)) = None.
Proof. repeat split. Qed.

End ParamFacts.

(** ** Fingerprints: order of the entries and optional fields *)

Module FingerprintFacts.
Import Py Hashing.

Lemma ascii_compare_refl (c : ascii) : Ascii.compare c c = Eq.
Proof. unfold Ascii.compare. apply N.compare_refl. Qed.

Lemma string_leb_trans : forall s1 s2 s3 : string,
  String.leb s1 s2 = true -> String.leb s2 s3 = true -> String.leb s1 s3 = true.
Proof.
  unfold String.leb.
  induction s1 as [|c1 s1 IH]; intros [|c2 s2] [|c3 s3]; simpl;
    try reflexivity; try discriminate.
  unfold Ascii.compare.
  destruct (N.compare_spec (N_of_ascii c1) (N_of_ascii c2)) as [E12|E12|E12];
    destruct (N.compare_spec (N_of_ascii c2) (N_of_ascii c3)) as [E23|E23|E23];
    try discriminate; intros H1 H2.
  - rewrite E12, E23, N.compare_refl. now apply (IH s2 s3).
  - rewrite E12. apply N.compare_lt_iff in E23. now rewrite E23.
  - rewrite <- E23. apply N.compare_lt_iff in E12. now rewrite E12.
  - assert (N_of_ascii c1 < N_of_ascii c3)%N as E by lia.
    apply N.compare_lt_iff in E. now rewrite E.
Qed.

Lemma insert_sorted_comm (x y : string) : forall l : list string,
  insert_sorted x (insert_sorted y l) = insert_sorted y (insert_sorted x l).
Proof.
  induction l as [|z l IH]; simpl.
  - destruct (String.leb x y) eqn:Exy, (String.leb y x) eqn:Eyx; try reflexivity.
    + now rewrite (String.leb_antisym x y Exy Eyx).
    + destruct (String.leb_total x y); congruence.
  - destruct (String.leb y z) eqn:Eyz, (String.leb x z) eqn:Exz; simpl;
      rewrite ?Eyz, ?Exz.
    + destruct (String.leb x y) eqn:Exy, (String.leb y x) eqn:Eyx; try reflexivity.
      * now rewrite (String.leb_antisym x y Exy Eyx).
      * destruct (String.leb_total x y); congruence.
    + destruct (String.leb x y) eqn:Exy; [|reflexivity].
      rewrite (string_leb_trans x y z Exy Eyz) in Exz. discriminate.
    + destruct (String.leb y x) eqn:Eyx; [|reflexivity].
      rewrite (string_leb_trans y x z Eyx Exz) in Eyz. discriminate.
    + now rewrite IH.
Qed.

(** [sorted] depends on the strings it is given and not on their order. *)
Lemma sorted_Permutation (l l' : list string) : Permutation l l' -> sorted l = sorted l'.
Proof.
  unfold sorted. induction 1; simpl.
  - reflexivity.
  - now f_equal.
  - apply insert_sorted_comm.
  - congruence.
Qed.

Section WithRuntime.
Variable sha256_hex : string -> string.
Variable repr_fraction : pyfloat -> string.

(** X20. The workflow fingerprint of a request does not depend on the order of
    its entries. *)
Theorem ccma_workflow_hash_ignores_order (r1 r2 : CCMAWorkflowRequest) :
  cred_cuit (ccma_credentials r1) = cred_cuit (ccma_credentials r2) ->
  Permutation (ccma_entries r1) (ccma_entries r2) ->
  generate_ccma_workflow_hash sha256_hex r1 = generate_ccma_workflow_hash sha256_hex r2.
Proof.
  intros Hc Hp. unfold generate_ccma_workflow_hash. rewrite Hc.
  now rewrite (sorted_Permutation _ _ (Permutation_map ccma_workflow_entry_data Hp)).
Qed.

Lemma ddjj_workflow_hash_ignores_order (r1 r2 : DDJJWorkflowRequest) :
  cred_cuit (ddjj_credentials r1) = cred_cuit (ddjj_credentials r2) ->
  Permutation (ddjj_entries r1) (ddjj_entries r2) ->
  generate_ddjj_workflow_hash sha256_hex repr_fraction r1
    = generate_ddjj_workflow_hash sha256_hex repr_fraction r2.
Proof.
  intros Hc Hp. unfold generate_ddjj_workflow_hash. rewrite Hc.
  now rewrite (sorted_Permutation _ _
                 (Permutation_map (ddjj_entry_hash_data repr_fraction) Hp)).
Qed.

(** X21. The fingerprint of an entry does not tell a taxpayer type from a tax
    type, and it does not see the flag [include_interests]: an entry with
    the text [x] as taxpayer type and no tax type has the fingerprint of the
    entry with [x] as tax type and no taxpayer type, whatever the flags
    are. The per-entry text of the workflow fingerprint behaves alike. *)
Theorem optional_fields_are_not_told_apart (period_from period_to calculation_date
    form_payment expiration_date x : string) (flag1 flag2 : bool) :
  generate_ccma_entry_hash sha256_hex
    (mkCCMAEntry period_from period_to calculation_date form_payment expiration_date
                 (Some x) None flag1)
  = generate_ccma_entry_hash sha256_hex
      (mkCCMAEntry period_from period_to calculation_date form_payment expiration_date
                   None (Some x) flag2) /\
  ccma_workflow_entry_data
    (mkCCMAEntry period_from period_to calculation_date form_payment expiration_date
                 (Some x) None flag1)
  = ccma_workflow_entry_data
      (mkCCMAEntry period_from period_to calculation_date form_payment expiration_date
                   None (Some x) flag2).
Proof.
  unfold generate_ccma_entry_hash, ccma_entry_hash_data, ccma_workflow_entry_data.
  cbn [ccma_period_from ccma_period_to ccma_calculation_date ccma_form_payment
       ccma_expiration_date ccma_taxpayer_type ccma_tax_type opt_truthy fmt_opt].
  destruct (str_truthy x); split; reflexivity.
Qed.

End WithRuntime.

Lemma ccma_workflow_hash_ignores_order_witness :
  generate_ccma_workflow_hash Samples.sha256_tag Samples.request_two
    = generate_ccma_workflow_hash Samples.sha256_tag Samples.request_two_swapped.
Proof.
  apply (ccma_workflow_hash_ignores_order Samples.sha256_tag Samples.request_two
           Samples.request_two_swapped).
  - reflexivity.
  - apply perm_swap.
Defined.

End FingerprintFacts.

(** ** Entry TTL: bounds *)

Module TtlBounds.
Import Py Ttl.

Section WithRuntime.
Variable strptime : string -> string -> option Z.
Variable fromisoformat : string -> option datetime.
Variable now : Z.


End WithRuntime.

End TtlBounds.

(** ** Browser-fleet autoscaler: bounds of the node count *)

Module FleetFacts.
Import Py Scaler ScalerFacts Idle.

Lemma sum_slots_nonneg : forall (nodes : list pyval) (n : Z),
  sum_slots nodes = Returns n -> 0 <= n.
Proof.
  induction nodes as [|node rest IH]; simpl; intros n H.
  - inversion H. lia.
  - destruct (json_get "availability" PNone node) as [availability|]; [|discriminate].
    destruct (match availability with PStr s => String.eqb s "DOWN" | _ => false end);
      [auto|].
    destruct (json_get "slots" (PList []) node) as [slots|]; [|discriminate].
    destruct (py_len slots) as [k|] eqn:Hk; [|discriminate].
    destruct (sum_slots rest) as [total|]; [|discriminate].
    inversion H; subst.
    specialize (IH total eq_refl).
    destruct slots; simpl in Hk; inversion Hk; lia.
Qed.

(** The session count is never negative, and it is 0 when the hub does not
    answer with status 200. *)
Lemma active_sessions_count_nonneg (probe : StatusProbe) (n : Z) :
  get_active_sessions_count probe = Returns n ->
  0 <= n /\ (get_hub_status probe = None -> n = 0).
Proof.
  unfold get_active_sessions_count.
  destruct (get_hub_status probe) as [status|].
  - intros H. split; [|discriminate].
    destruct (truthy status); [|inversion H; lia].
    destruct (json_get "value" (PDict []) status) as [value|]; [|discriminate].
    destruct (json_get "ready" (PBool true) value) as [ready|]; [|discriminate].
    destruct (truthy ready); [inversion H; lia|].
    destruct (json_get "nodes" (PList []) value) as [nodes|]; [|discriminate].
    destruct (py_iter nodes) as [l|]; [|discriminate].
    eapply sum_slots_nonneg; eauto.
  - intros H. inversion H. split; [lia|reflexivity].
Qed.

Section WithWorld.
Variable compose : Z -> ComposeResult.
Variable hub : nat -> HubProbe * N.

(** X23. [scale_down] never raises the node count and never takes it below the
    minimum, whatever [count] is and whatever the scale command does; the
    limits of the scaler stay as they are. *)
Theorem scale_down_stays_above_minimum (sc : SeleniumScaler) (count : Z) :
  current_nodes (snd (scale_down compose sc count)) <= current_nodes sc /\
  Z.min (current_nodes sc) (min_nodes sc) <= current_nodes (snd (scale_down compose sc count)) /\
  min_nodes (snd (scale_down compose sc count)) = min_nodes sc /\
  max_nodes (snd (scale_down compose sc count)) = max_nodes sc /\
  sessions_per_node (snd (scale_down compose sc count)) = sessions_per_node sc.
Proof.
  unfold scale_down.
  destruct (Z.leb_spec (current_nodes sc) (Z.max (current_nodes sc - count) (min_nodes sc)));
    [simpl; repeat split; lia|].
  destruct (compose _) as [returncode| |]; try (simpl; repeat split; lia).
  destruct (returncode =? 0); simpl; repeat split; lia.
Qed.

Lemma scale_up_bounds (sc : SeleniumScaler) (count : Z) :
  exists b sc',
    scale_up compose hub sc count = Some (b, sc') /\
    current_nodes sc <= current_nodes sc' /\
    current_nodes sc' <= Z.max (current_nodes sc) (max_nodes sc) /\
    min_nodes sc' = min_nodes sc /\ max_nodes sc' = max_nodes sc /\
    sessions_per_node sc' = sessions_per_node sc.
Proof.
  unfold scale_up.
  destruct (Z.leb_spec (Z.min (current_nodes sc + count) (max_nodes sc)) (current_nodes sc)).
  - do 2 eexists. split; [reflexivity|]. repeat split; lia.
  - destruct (compose _) as [returncode| |];
      try (do 2 eexists; split; [reflexivity|]; repeat split; lia).
    destruct (returncode =? 0);
      [|do 2 eexists; split; [reflexivity|]; repeat split; lia].
    match goal with |- context [_wait_for_nodes_ready hub ?t 30] =>
      destruct (_wait_for_nodes_ready_total hub t 30) as [ready ->] end.
    do 2 eexists. split; [reflexivity|]. simpl. repeat split; lia.
Qed.

(** X24. [ensure_capacity] always returns or raises; it never lowers the node
    count and never takes it above the larger of the maximum and the count
    it started from; the limits of the scaler stay as they are. *)
Theorem ensure_capacity_stays_below_maximum (sc : SeleniumScaler) (sessions_needed : Z) :
  exists out sc',
    ensure_capacity compose hub sc sessions_needed = Some (out, sc') /\
    current_nodes sc <= current_nodes sc' /\
    current_nodes sc' <= Z.max (current_nodes sc) (max_nodes sc) /\
    min_nodes sc' = min_nodes sc /\ max_nodes sc' = max_nodes sc /\
    sessions_per_node sc' = sessions_per_node sc.
Proof.
  unfold ensure_capacity.
  destruct (sessions_per_node sc =? 0);
    [do 2 eexists; split; [reflexivity|]; repeat split; lia|].
  destruct (current_nodes sc <? _);
    [|do 2 eexists; split; [reflexivity|]; repeat split; lia].
  match goal with |- context [scale_up compose hub sc ?c] =>
    destruct (scale_up_bounds sc c) as (b & sc' & -> & H) end.
  do 2 eexists. split; [reflexivity|]. exact H.
Qed.

(** Scaling up by [count] nodes and down by [count] nodes again returns to
    the node count at the start, when both scale commands succeed and both
    counts lie between the limits. *)
Lemma scale_up_then_down (sc : SeleniumScaler) (count : Z) :
  0 < count ->
  min_nodes sc <= current_nodes sc ->
  current_nodes sc + count <= max_nodes sc ->
  compose (current_nodes sc + count) = Exited 0 ->
  compose (current_nodes sc) = Exited 0 ->
  exists sc1,
    scale_up compose hub sc count = Some (true, sc1) /\
    current_nodes sc1 = current_nodes sc + count /\
    scale_down compose sc1 count = (true, sc).
Proof.
  intros Hcount Hmin Hmax Hup Hdown. unfold scale_up.
  replace (Z.min (current_nodes sc + count) (max_nodes sc))
    with (current_nodes sc + count) by lia.
  destruct (Z.leb_spec (current_nodes sc + count) (current_nodes sc)); [lia|].
  rewrite Hup. simpl.
  destruct (_wait_for_nodes_ready_total hub (current_nodes sc + count) 30) as [ready ->].
  eexists. split; [reflexivity|]. split; [reflexivity|].
  unfold scale_down. simpl.
  replace (Z.max (current_nodes sc + count - count) (min_nodes sc))
    with (current_nodes sc) by lia.
  destruct (Z.leb_spec (current_nodes sc + count) (current_nodes sc)); [lia|].
  rewrite Hdown. simpl. destruct sc; reflexivity.
Qed.

(** *** The idle monitor *)

Variable now : nat -> Z.

(** X25. One check of the monitor removes one node at most, never goes below the
    minimum, and changes neither the limits of the scaler nor the timing of
    the monitor. *)
Theorem check_removes_one_node_at_most (probe : StatusProbe) (m : SeleniumMonitor) :
  current_nodes (scaler m) - 1
    <= current_nodes (scaler (_check_and_scale_down compose now probe m)) /\
  current_nodes (scaler (_check_and_scale_down compose now probe m))
    <= current_nodes (scaler m) /\
  Z.min (current_nodes (scaler m)) (min_nodes (scaler m))
    <= current_nodes (scaler (_check_and_scale_down compose now probe m)) /\
  min_nodes (scaler (_check_and_scale_down compose now probe m)) = min_nodes (scaler m) /\
  max_nodes (scaler (_check_and_scale_down compose now probe m)) = max_nodes (scaler m) /\
  idle_timeout (_check_and_scale_down compose now probe m) = idle_timeout m /\
  check_interval (_check_and_scale_down compose now probe m) = check_interval m.
Proof.
  unfold _check_and_scale_down.
  destruct (get_active_sessions_count probe) as [active|]; [|repeat split; lia].
  destruct (0 <? active); [simpl; repeat split; lia|].
  destruct (_ && _); [|repeat split; lia].
  unfold scale_down.
  destruct (Z.leb_spec (current_nodes (scaler m))
              (Z.max (current_nodes (scaler m) - 1) (min_nodes (scaler m))));
    [simpl; repeat split; lia|].
  destruct (compose _) as [returncode| |]; try (simpl; repeat split; lia).
  destruct (returncode =? 0); simpl; repeat split; lia.
Qed.

(** While the hub reports a session the monitor leaves the fleet alone and
    takes the time of the check as the last activity. *)
Lemma busy_fleet_is_left_alone (probe : StatusProbe) (m : SeleniumMonitor) (n : Z) :
  get_active_sessions_count probe = Returns n -> 0 < n ->
  _check_and_scale_down compose now probe m = with_last_activity m (now 0%nat).
Proof.
  intros Hc Hn. unfold _check_and_scale_down. rewrite Hc.
  apply Z.ltb_lt in Hn. now rewrite Hn.
Qed.

(** X26. A hub that cannot be reached counts as a fleet without sessions: once
    the idle timeout has passed, the monitor removes a node. *)
Theorem unreachable_hub_counts_as_idle (probe : StatusProbe) (m : SeleniumMonitor) :
  get_hub_status probe = None ->
  idle_timeout m * 1000000 <= now 0%nat - last_activity_time m ->
  min_nodes (scaler m) < current_nodes (scaler m) ->
  0 < current_nodes (scaler m) ->
  compose (current_nodes (scaler m) - 1) = Exited 0 ->
  _check_and_scale_down compose now probe m
    = mkMonitor (with_current_nodes (scaler m) (current_nodes (scaler m) - 1))
                (idle_timeout m) (check_interval m) (now 1%nat).
Proof.
  intros Hhub Hidle Hmin Hpos Hc.
  unfold _check_and_scale_down, get_active_sessions_count. rewrite Hhub.
  cbn [Z.ltb Z.compare].
  apply Z.leb_le in Hidle. rewrite Hidle.
  apply Z.ltb_lt in Hpos. rewrite Hpos. cbn [andb].
  unfold scale_down.
  replace (Z.max (current_nodes (scaler m) - 1) (min_nodes (scaler m)))
    with (current_nodes (scaler m) - 1) by lia.
  destruct (Z.leb_spec (current_nodes (scaler m)) (current_nodes (scaler m) - 1)); [lia|].
  rewrite Hc. reflexivity.
Qed.

End WithWorld.

(** One node, idle for 700 seconds with a timeout of 600, and a hub that
    does not answer. *)
Lemma unreachable_hub_counts_as_idle_witness :
  _check_and_scale_down Samples.compose_ok Samples.clock_700s StatusException
                        Samples.idle_monitor
    = mkMonitor (mkScaler 0 3 2 0) 600 60 700000001.
Proof.
  apply (unreachable_hub_counts_as_idle Samples.compose_ok Samples.clock_700s
           StatusException Samples.idle_monitor).
  - reflexivity.
  - vm_compute. discriminate.
  - reflexivity.
  - reflexivity.
  - reflexivity.
Defined.

End FleetFacts.

(** ** Application service: what an intake leaves in the store *)

Module IntakeFacts.
Import Py PyFacts Hashing Ttl Store App AppFacts.

Lemma bind_Ok {A B : Type} (m : M A) (k : A -> M B) (w w' : World) (b : B) :
  bind m k w = (Ok b, w') -> exists a w1, m w = (Ok a, w1) /\ k a w1 = (Ok b, w').
Proof.
  unfold bind. destruct (m w) as [[a|e] w1]; [eauto|discriminate].
Qed.

Lemma reads_only_refl (w : World) : reads_only w w.
Proof. repeat split. Qed.

Lemma reads_only_trans (w1 w2 w3 : World) :
  reads_only w1 w2 -> reads_only w2 w3 -> reads_only w1 w3.
Proof. intros (A1 & A2 & A3) (B1 & B2 & B3). repeat split; congruence. Qed.

Lemma check_duplicate_reads (h : string) (w : World) :
  exists found w', check_duplicate h w = (Ok found, w') /\ reads_only w w'.
Proof.
  unfold check_duplicate.
  destruct (find_by_hash h (w_transactions w)); do 2 eexists; (split; [reflexivity|]);
    repeat split; cbn [w_trace emit]; rewrite filter_app; simpl; now rewrite app_nil_r.
Qed.

Lemma get_existing_reads (entry_hash : option string) (current : string) (w : World) :
  forall out w', _get_existing_workflow_uuid entry_hash current w = (out, w') -> w' = w.
Proof.
  intros out w'. unfold _get_existing_workflow_uuid.
  destruct entry_hash as [h|]; [|unfold ret; intros H; now inversion H].
  destruct (str_truthy h); [|unfold ret; intros H; now inversion H].
  unfold bind at 1, get_transaction.
  destruct (dict_get h (w_transactions w)) as [[|kv data]|];
    try (unfold ret; intros H; now inversion H).
  destruct (dict_get "request_data" (kv :: data)) as [request_data|];
    try (unfold ret; intros H; now inversion H).
  unfold bind, lift. destruct (py_get "workflow_exchange_id" request_data) as [v|e];
    [|intros H; now inversion H].
  destruct (truthy v); [|unfold ret; intros H; now inversion H].
  destruct v; unfold ret, raise; intros H; now inversion H.
Qed.

Section WithRuntime.
Variable clock : nat -> Z.
Variable isoformat : Z -> string.
Variable sha256_hex : string -> string.
Variable strptime : string -> string -> option Z.
Variable fromisoformat : string -> option datetime.
Variable uuid4 : nat -> string.
Variable password_service : option (string -> option string).
Variable task_created : string -> dict pyval -> string -> bool.

Abbreviation execute :=
  (execute_ccma_workflow clock isoformat sha256_hex strptime fromisoformat uuid4
                         password_service task_created).

(** The classification reads the store and writes nothing; every entry ends
    in one of the two lists. *)
Lemma classify_entries_reads (exchange_id : string) :
  forall (entries : list CCMAEntry) (p d p' d' : list CCMAEntryStatus) (w w' : World),
  classify_entries sha256_hex entries exchange_id p d w = (Ok (p', d'), w') ->
  reads_only w w' /\
  (length p' + length d' = length p + length d + length entries)%nat.
Proof.
  induction entries as [|entry rest IH]; intros p d p' d' w w' H; cbn [classify_entries] in H.
  - unfold ret in H. inversion H; subst. split; [apply reads_only_refl|simpl; lia].
  - apply bind_Ok in H as (found & w1 & Hcd & H).
    apply bind_Ok in H as (existing & w2 & Hget & H).
    destruct (check_duplicate_reads (generate_ccma_entry_hash sha256_hex entry) w)
      as (found' & w1' & Hcd' & Hr1).
    rewrite Hcd in Hcd'. inversion Hcd'; subst found' w1'.
    apply get_existing_reads in Hget. subst w2.
    destruct (opt_truthy found); apply IH in H as [Hr Hlen];
      (split; [eapply reads_only_trans; eauto|]);
      rewrite length_app in Hlen; simpl in *; lia.
Qed.

Lemma resolve_password_reads (cuit : string) (provided : option string) (w : World) :
  forall out w', _resolve_password password_service cuit provided w = (out, w') -> w' = w.
Proof.
  intros out w'. unfold _resolve_password.
  assert (forall m : M string,
            m = match password_service with
                | Some get_password =>
                    match get_password cuit with
                    | Some password => ret password
                    | None => raise (PasswordNotFoundError cuit)
                    end
                | None => raise PasswordServiceNotAvailableError
                end -> m w = (out, w') -> w' = w) as Hsvc.
  { intros m ->. destruct password_service as [get_password|];
      [destruct (get_password cuit)|]; unfold ret, raise; intros H; now inversion H. }
  destruct provided as [p|]; [|now apply Hsvc].
  destruct (str_truthy p && str_truthy (strip p)); [|now apply Hsvc].
  unfold ret. intros H. now inversion H.
Qed.

(** X27. The counts of a response: the total is the number of entries of the
    request, the two other counts are the lengths of the two lists, and
    together they make the total. *)
Theorem response_counts_add_up (request : CCMAWorkflowRequest) (headless : bool)
    (w w' : World) (resp : CCMAWorkflowExecutionResponse) :
  execute request headless w = (Ok resp, w') ->
  resp_total_entries resp = length (ccma_entries request) /\
  resp_processed_count resp = length (resp_processed_entries resp) /\
  resp_duplicate_count resp = length (resp_duplicate_entries resp) /\
  (resp_processed_count resp + resp_duplicate_count resp = resp_total_entries resp)%nat.
Proof.
  intros H. unfold execute_ccma_workflow in H.
  apply bind_Ok in H as (existing & w1 & _ & H).
  apply bind_Ok in H as (u & w2 & _ & H).
  apply bind_Ok in H as (password & w3 & _ & H).
  apply bind_Ok in H as (exchange_id & w4 & _ & H).
  apply bind_Ok in H as ([p d] & w5 & Hcl & H).
  apply classify_entries_reads in Hcl as [_ Hlen]. cbn [fst snd] in H.
  destruct p as [|s p].
  - unfold ret in H. inversion H; subst. simpl in *. repeat split; lia.
  - apply bind_Ok in H as (u1 & w6 & _ & H).
    apply bind_Ok in H as (started & w7 & _ & H).
    destruct (started =? 0)%nat.
    + apply bind_Ok in H as (u2 & w8 & _ & H). discriminate H.
    + apply bind_Ok in H as (u2 & w8 & _ & H).
      apply bind_Ok in H as (u3 & w9 & _ & H).
      unfold ret in H. inversion H; subst. simpl in *. repeat split; lia.
Qed.

(** X28. A response without a run id, which is the answer when every entry
    is a duplicate, comes from a call that wrote no record, started no
    workflow and spawned no monitor; the only identifier drawn is the one
    that the call threw away. *)
Theorem all_duplicates_write_nothing (request : CCMAWorkflowRequest) (headless : bool)
    (w w' : World) (resp : CCMAWorkflowExecutionResponse) :
  execute request headless w = (Ok resp, w') ->
  resp_exchange_id resp = None ->
  resp_processed_entries resp = [] /\
  length (resp_duplicate_entries resp) = length (ccma_entries request) /\
  w_transactions w' = w_transactions w /\
  filter (fun e => is_write e = true) (w_trace w')
    = filter (fun e => is_write e = true) (w_trace w).
Proof.
  intros H Hnone. unfold execute_ccma_workflow in H.
  apply bind_Ok in H as (existing & w1 & Hcd & H).
  apply bind_Ok in H as (u & w2 & Hdup & H).
  apply bind_Ok in H as (password & w3 & Hpw & H).
  apply bind_Ok in H as (exchange_id & w4 & Hid & H).
  apply bind_Ok in H as ([p d] & w5 & Hcl & H).
  destruct (check_duplicate_reads (generate_ccma_workflow_hash sha256_hex request) w)
    as (found & w1' & Hcd' & Hr1).
  rewrite Hcd in Hcd'. inversion Hcd'; subst found w1'.
  assert (w2 = w1) as ->.
  { destruct existing as [e|]; [destruct (str_truthy e)|];
      unfold ret, raise in Hdup; now inversion Hdup. }
  apply resolve_password_reads in Hpw. subst w3.
  unfold fresh_uuid in Hid. inversion Hid; subst exchange_id w4. clear Hid.
  apply classify_entries_reads in Hcl as [(T & U & W) Hlen]. cbn [fst snd] in H.
  destruct Hr1 as (T1 & U1 & W1). simpl in *.
  destruct p as [|s p].
  - unfold ret in H. inversion H; subst. simpl in *.
    repeat split; try congruence; lia.
  - apply bind_Ok in H as (u1 & w6 & _ & H).
    apply bind_Ok in H as (started & w7 & _ & H).
    destruct (started =? 0)%nat.
    + apply bind_Ok in H as (u2 & w8 & _ & H). discriminate H.
    + apply bind_Ok in H as (u2 & w8 & _ & H).
      apply bind_Ok in H as (u3 & w9 & _ & H).
      unfold ret in H. inversion H; subst. discriminate Hnone.
Qed.

(** *** The run id *)

Lemma create_entry_transactions_frame (exchange_id k : string) :
  forall (l : list CCMAEntry) (w w' : World) out,
  create_entry_transactions clock isoformat sha256_hex strptime fromisoformat
                            l exchange_id w = (out, w') ->
  (forall e, In e l -> generate_ccma_entry_hash sha256_hex e <> k) ->
  dict_get k (w_transactions w') = dict_get k (w_transactions w).
Proof.
  induction l as [|e rest IH]; intros w w' out H Hk; cbn [create_entry_transactions] in H.
  - unfold ret in H. now inversion H.
  - unfold bind at 1 in H. unfold bind at 1 in H.
    unfold create_transaction, bind at 1, now_iso in H.
    apply IH in H; [|intros e0 He0; apply Hk; now right].
    rewrite H. cbn [w_transactions emit with_transactions advance].
    apply dict_get_set_other. apply Hk. now left.
Qed.

Lemma start_entry_workflows_frame (cuit password : string) (headless : bool)
    (exchange_id : string) :
  forall (l : list CCMAEntry) (n : nat) (w w' : World) out,
  start_entry_workflows task_created l cuit password headless exchange_id n w = (out, w') ->
  w_transactions w' = w_transactions w.
Proof.
  induction l as [|e rest IH]; intros n w w' out H; cbn [start_entry_workflows] in H.
  - unfold ret in H. now inversion H.
  - unfold bind at 1 in H. unfold execute_workflow_async, bind at 1, log, ret in H.
    apply IH in H. rewrite H. reflexivity.
Qed.

Lemma select_new_entries_In (entries : list CCMAEntry) :
  forall (statuses : list CCMAEntryStatus) e,
  In e (select_new_entries entries statuses) -> In e entries.
Proof.
  unfold select_new_entries.
  induction entries as [|e0 rest IH]; intros [|s statuses] e; simpl; try tauto.
  rewrite filter_cons. destruct (decide _); simpl.
  - intros [<-|H]; [now left|right; eauto].
  - intros H. right. eauto.
Qed.

Lemma set_workflow_status_missing (exchange_id : string) (status : WorkflowStatus)
    (w w' : World) out :
  set_workflow_status clock isoformat exchange_id status w = (out, w') ->
  dict_get exchange_id (w_transactions w) = None ->
  w_transactions w' = w_transactions w.
Proof.
  unfold set_workflow_status, bind at 1, update_status, bind at 1, log.
  cbn [w_transactions emit]. intros H Hnone. rewrite Hnone in H.
  unfold ret in H. now inversion H.
Qed.

(** X29. The run id that a response carries is not a storage key: the
    records of the entries are stored under their fingerprints, and the
    status that the intake writes for the run id finds no record. Right
    after the intake a lookup of the run id returns nothing. *)
Theorem run_id_has_no_record (request : CCMAWorkflowRequest) (headless : bool)
    (w w' : World) (resp : CCMAWorkflowExecutionResponse) (run_id : string) :
  execute request headless w = (Ok resp, w') ->
  resp_exchange_id resp = Some run_id ->
  dict_get (uuid4 (w_uuids w)) (w_transactions w) = None ->
  (forall e, In e (ccma_entries request) ->
             generate_ccma_entry_hash sha256_hex e <> uuid4 (w_uuids w)) ->
  run_id = uuid4 (w_uuids w) /\
  get_transaction run_id w' = (Ok None, w').
Proof.
  intros H Hsome Hfree Hhash. unfold execute_ccma_workflow in H.
  apply bind_Ok in H as (existing & w1 & Hcd & H).
  apply bind_Ok in H as (u & w2 & Hdup & H).
  apply bind_Ok in H as (password & w3 & Hpw & H).
  apply bind_Ok in H as (exchange_id & w4 & Hid & H).
  apply bind_Ok in H as ([p d] & w5 & Hcl & H).
  destruct (check_duplicate_reads (generate_ccma_workflow_hash sha256_hex request) w)
    as (found & w1' & Hcd' & Hr1).
  rewrite Hcd in Hcd'. inversion Hcd'; subst found w1'.
  assert (w2 = w1) as ->.
  { destruct existing as [e|]; [destruct (str_truthy e)|];
      unfold ret, raise in Hdup; now inversion Hdup. }
  apply resolve_password_reads in Hpw. subst w3.
  unfold fresh_uuid in Hid. inversion Hid; subst exchange_id w4. clear Hid.
  apply classify_entries_reads in Hcl as [(T & U & W) _]. cbn [fst snd] in H.
  destruct Hr1 as (T1 & U1 & W1). simpl in T, U.
  rewrite U1 in *.
  destruct p as [|s p].
  - unfold ret in H. inversion H; subst. discriminate Hsome.
  - apply bind_Ok in H as (u1 & w6 & Hcreate & H).
    apply bind_Ok in H as (started & w7 & Hstart & H).
    apply (create_entry_transactions_frame _ (uuid4 (w_uuids w))) in Hcreate;
      [|intros e He; apply Hhash; eapply select_new_entries_In; eauto].
    apply start_entry_workflows_frame in Hstart.
    destruct (started =? 0)%nat.
    + apply bind_Ok in H as (u2 & w8 & _ & H). discriminate H.
    + apply bind_Ok in H as (u2 & w8 & Hset & H).
      apply bind_Ok in H as (u3 & w9 & Hlog & H).
      unfold ret in H. inversion H; subst. simpl in Hsome. inversion Hsome; subst run_id.
      split; [reflexivity|].
      apply set_workflow_status_missing in Hset; [|congruence].
      unfold log in Hlog. inversion Hlog; subst.
      unfold get_transaction. cbn [w_transactions emit]. do 2 f_equal. congruence.
Qed.

End WithRuntime.

Lemma response_counts_add_up_witness :
  exists resp w',
    execute_ccma_workflow Samples.clock_2026 Samples.isoformat_plain Samples.sha256_tag
      Samples.strptime_examples Samples.fromisoformat_examples Samples.uuid4_counter
      None Samples.every_task_created Samples.request_twice false Samples.empty_world
      = (Ok resp, w') /\
    resp_total_entries resp = length (ccma_entries Samples.request_twice) /\
    resp_processed_count resp = length (resp_processed_entries resp) /\
    resp_duplicate_count resp = length (resp_duplicate_entries resp) /\
    (resp_processed_count resp + resp_duplicate_count resp = resp_total_entries resp)%nat.
Proof.
  do 2 eexists. split; [vm_compute; reflexivity|].
  eapply (response_counts_add_up Samples.clock_2026 Samples.isoformat_plain
            Samples.sha256_tag Samples.strptime_examples Samples.fromisoformat_examples
            Samples.uuid4_counter None Samples.every_task_created Samples.request_twice
            false Samples.empty_world).
  vm_compute. reflexivity.
Defined.

(** The entry of [request_once] is in the store already, under its
    fingerprint. *)
Lemma all_duplicates_write_nothing_witness :
  exists resp w',
    execute_ccma_workflow Samples.clock_2026 Samples.isoformat_plain Samples.sha256_tag
      Samples.strptime_examples Samples.fromisoformat_examples Samples.uuid4_counter
      None Samples.every_task_created Samples.request_once false
      Samples.world_with_known_entry = (Ok resp, w') /\
    resp_processed_entries resp = [] /\
    length (resp_duplicate_entries resp) = length (ccma_entries Samples.request_once) /\
    w_transactions w' = w_transactions Samples.world_with_known_entry /\
    filter (fun e => is_write e = true) (w_trace w')
      = filter (fun e => is_write e = true) (w_trace Samples.world_with_known_entry).
Proof.
  do 2 eexists. split; [vm_compute; reflexivity|].
  eapply (all_duplicates_write_nothing Samples.clock_2026 Samples.isoformat_plain
            Samples.sha256_tag Samples.strptime_examples Samples.fromisoformat_examples
            Samples.uuid4_counter None Samples.every_task_created Samples.request_once
            false Samples.world_with_known_entry).
  - vm_compute. reflexivity.
  - reflexivity.
Defined.

Lemma run_id_has_no_record_witness :
  exists resp w',
    execute_ccma_workflow Samples.clock_2026 Samples.isoformat_plain Samples.sha256_tag
      Samples.strptime_examples Samples.fromisoformat_examples Samples.uuid4_counter
      None Samples.every_task_created Samples.request_twice false Samples.empty_world
      = (Ok resp, w') /\
    resp_exchange_id resp = Some (Samples.uuid4_counter 0) /\
    Samples.uuid4_counter 0 = Samples.uuid4_counter (w_uuids Samples.empty_world) /\
    get_transaction (Samples.uuid4_counter 0) w' = (Ok None, w').
Proof.
  do 2 eexists. split; [vm_compute; reflexivity|]. split; [reflexivity|].
  eapply (run_id_has_no_record Samples.clock_2026 Samples.isoformat_plain
            Samples.sha256_tag Samples.strptime_examples Samples.fromisoformat_examples
            Samples.uuid4_counter None Samples.every_task_created Samples.request_twice
            false Samples.empty_world).
  - vm_compute. reflexivity.
  - reflexivity.
  - reflexivity.
  - intros e [<-|[<-|[]]] H; vm_compute in H; discriminate H.
Defined.

End IntakeFacts.

(** ** Processed results *)

Module ResultFacts.
Import Py PyFacts DictFacts Store App.

Section WithFiles.
Variable path_exists : string -> bool.
Variable read_base64 : string -> option string.
Variable guess_type : string -> option string.
Variable path_name : string -> string.
Variable path_error_text : string.


End WithFiles.

End ResultFacts.
